(** * PulseSensor on the Cheap Yellow Display: a shallow embedding

    The repository holds two variants of one Arduino sketch for the
    ESP32-2432S028R board:

    - [Part000]: the "Dashboard" sketch (source file [unnamed/part_000]),
    - [CYD]: the sketch [PulseSensor_CYD.ino].

    Both keep their state in global variables and are driven by [loop].
    The globals become a record [State]; every function of the sketch is a
    computation in a small state-and-output monad [M State], whose output
    is the list of calls made to the display, the LED driver and the
    serial port.  What the sketch reads from the outside during one
    iteration of [loop] (the clock and the pulse sensor) is an [Inputs]
    record. *)

From Stdlib Require Import ZArith Lia String Ascii SpecFloat.
From stdpp Require Import base list strings pretty.

Local Open Scope Z_scope.

(** ** C arithmetic on the ESP32

    [int] and [long] are 32-bit two's complement, [unsigned long] is 32-bit. *)

Definition INT_MIN : Z := - 2 ^ 31.
Definition INT_MAX : Z := 2 ^ 31 - 1.

Definition wrap32 (z : Z) : Z := (z + 2 ^ 31) mod 2 ^ 32 - 2 ^ 31.

Definition iadd (a b : Z) : Z := wrap32 (a + b).
Definition isub (a b : Z) : Z := wrap32 (a - b).
Definition imul (a b : Z) : Z := wrap32 (a * b).
Definition idiv (a b : Z) : Z := wrap32 (Z.quot a b).
Definition irem (a b : Z) : Z := Z.rem a b.

(** Subtraction of two [unsigned long] clock readings. *)
Definition usub (a b : Z) : Z := (a - b) mod 2 ^ 32.

(** A raw reading of the 12-bit converter the sensor is attached to. *)
Definition is_sample (z : Z) : Prop := 0 <= z <= 4095.

(** ** The Arduino helpers the sketches call *)

Module Arduino.

Definition min (a b : Z) : Z := if a <? b then a else b.
Definition max (a b : Z) : Z := if a >? b then a else b.
Definition abs (x : Z) : Z := if x >? 0 then x else wrap32 (- x).
Definition constrain (amt low high : Z) : Z :=
  if amt <? low then low else if amt >? high then high else amt.

(** [long map(long x, long in_min, long in_max, long out_min, long out_max)]
    of the ESP32 core: a zero run is reported and answered with -1. *)
Definition map (x in_min in_max out_min out_max : Z) : Z :=
  let run := isub in_max in_min in
  if run =? 0 then -1
  else
    let rise := isub out_max out_min in
    let delta := isub x in_min in
    iadd (idiv (imul delta rise) run) out_min.

End Arduino.

(** ** Single-precision floats, for the scale factor of the Dashboard *)

Definition f32_of_int (z : Z) : spec_float := binary_normalize 24 128 z 0 false.
Definition f32_div : spec_float -> spec_float -> spec_float := SFdiv 24 128.
Definition f32_mul : spec_float -> spec_float -> spec_float := SFmul 24 128.

(** The conversion [(int)f] truncates toward zero (undefined in C when the
    value is not finite; 0 here). *)
Definition int_of_f32 (f : spec_float) : Z :=
  match f with
  | S754_finite s m e =>
      let mag := if 0 <=? e then Z.pos m * 2 ^ e else Z.pos m / 2 ^ (- e) in
      if s then - mag else mag
  | _ => 0
  end.

(** ** Text *)

Definition CR : string := String (ascii_of_nat 13) EmptyString.
Definition LF : string := String (ascii_of_nat 10) EmptyString.
Definition CRLF : string := CR +:+ LF.

(** [%d] of printf, and [print(int)]. *)
Definition dec (z : Z) : string := pretty z.

(** The text ends with the beat flag of a status record: ["1"] and a line feed. *)
Fixpoint ends_with_flag (s : string) : bool :=
  match s with
  | EmptyString => false
  | String c r =>
      if Ascii.eqb c "1"%char && String.eqb r LF then true else ends_with_flag r
  end.

(** ** Calls to the outside world *)

Inductive Event : Type :=
  | SerialBegin (baud : Z)
  | SerialWrite (text : string)
  | PinMode (pin : Z) (output : bool)
  | DigitalWrite (pin : Z) (high : bool)
  | AnalogWrite (pin value : Z)
  | LedcAttach (pin freq resolution : Z)
  | LedcWrite (pin duty : Z)
  | SensorAnalogInput (pin : Z)
  | SensorSetThreshold (threshold : Z)
  | TftInit
  | TftSetRotation (r : Z)
  | TftFillScreen (color : Z)
  | TftFillRect (x y w h color : Z)
  | TftDrawRect (x y w h color : Z)
  | TftDrawFastVLine (x y h color : Z)
  | TftDrawPixel (x y color : Z)
  | TftDrawLine (x0 y0 x1 y1 color : Z)
  | TftFillCircle (x y r color : Z)
  | TftFillTriangle (x0 y0 x1 y1 x2 y2 color : Z)
  | TftSetTextColor (fg : Z) (bg : option Z)
  | TftSetTextSize (size : Z)
  | TftSetCursor (x y : Z)
  | TftPrintInt (n : Z)
  | TftPrintStr (text : string)
  | TftDrawNumber (n x y font : Z)
  | TftDrawString (text : string) (x y font : Z).

(** ** The state-and-output monad *)

Definition M (S A : Type) : Type := S -> A * S * list Event.

#[global] Instance M_ret {S} : MRet (M S) := fun A a s => (a, s, []).
#[global] Instance M_bind {S} : MBind (M S) := fun A B f m s =>
  let '(a, s1, e1) := m s in
  let '(b, s2, e2) := f a s1 in
  (b, s2, e1 ++ e2).

Definition gets {S A} (f : S -> A) : M S A := fun s => (f s, s, []).
Definition modify {S} (f : S -> S) : M S unit := fun s => (tt, f s, []).
Definition emit {S} (e : Event) : M S unit := fun s => (tt, s, [e]).
Definition skip {S} : M S unit := mret tt.

(** [for (int t = 0; t < n; t++) body] over the values [ts] of [t]. *)
Fixpoint for_each {S} (ts : list Z) (body : Z -> M S unit) : M S unit :=
  match ts with
  | [] => skip
  | t :: rest => body t;; for_each rest body
  end.

(** The state a computation ends in, and the calls it made. *)
Definition exec {S A} (m : M S A) (s : S) : S := snd (fst (m s)).
Definition calls {S A} (m : M S A) (s : S) : list Event := snd (m s).


(** * The Dashboard sketch ([unnamed/part_000]) *)

Module Part000.

(** ** Constants *)

Definition PULSE_SENSOR_PIN : Z := 35.
Definition BACKLIGHT_PIN : Z := 21.
Definition LED_RED_PIN : Z := 4.
Definition LED_GREEN_PIN : Z := 16.
Definition LED_BLUE_PIN : Z := 17.

Definition SCREEN_WIDTH : Z := 320.
Definition SCREEN_HEIGHT : Z := 240.

Definition BPM_X : Z := 10.
Definition BPM_Y : Z := 5.
Definition BEAT_X : Z := 270.
Definition BEAT_Y : Z := 35.

Definition WAVEFORM_TOP : Z := 80.
Definition WAVEFORM_HEIGHT : Z := 100.
Definition WAVEFORM_BOTTOM : Z := WAVEFORM_TOP + WAVEFORM_HEIGHT.

Definition BOTTOM_Y : Z := 190.
Definition SIGNAL_X : Z := 10.
Definition IBI_X : Z := 170.

Definition COLOR_BG : Z := 0x18C3.
Definition COLOR_WAVEFORM : Z := 0xFE60.
Definition COLOR_BPM : Z := 0x4F10.
Definition COLOR_SIGNAL : Z := 0xFE60.
Definition COLOR_IBI : Z := 0xE1E9.
Definition COLOR_HEART : Z := 0xE1E9.
Definition COLOR_HEART_DIM : Z := 0x4208.
Definition COLOR_LABEL : Z := 0x6B6D.
Definition COLOR_GRID : Z := 0x3A0A.
Definition COLOR_BORDER : Z := 0x4A69.

Definition BRAND_TEXT : string := "PulseSensor.com".
Definition BRAND_COLOR : Z := 0xFFFF.
Definition BRAND_SIZE : Z := 1.
Definition BRAND_X : Z := 110.
Definition BRAND_Y : Z := 2.

Definition WAVEFORM_THICKNESS : Z := 4.
Definition WAVEFORM_SPEED : Z := 5.

Definition LED_FADE_SPEED : Z := 4.
Definition LED_MAX_BRIGHTNESS : Z := 255.

Definition THRESHOLD : Z := 550.
Definition NO_BEAT_TIMEOUT : Z := 3000.
Definition WAVEFORM_SAMPLES : Z := SCREEN_WIDTH.

(** ** The globals *)

Record State : Type := {
  waveformBuffer : list Z;
  waveformX : Z;
  minSignal : Z;
  maxSignal : Z;
  lastDrawTime : Z;
  lastBeatTime : Z;
  lastLedUpdate : Z;
  beatFlashActive : bool;
  fingerPresent : bool;
  ledBrightness : Z;
  currentBPM : Z;
  currentSignal : Z;
  currentIBI : Z;
  lastDisplayedBPM : Z;
  lastDisplayedSignal : Z;
  lastDisplayedIBI : Z;
  (** the [static] local of [updateMinMax] *)
  lastDecay : Z
}.

(** The values the globals have when [setup] starts. *)
Definition init : State :=
  {| waveformBuffer := replicate (Z.to_nat WAVEFORM_SAMPLES) 0;
     waveformX := 0; minSignal := 4095; maxSignal := 0;
     lastDrawTime := 0; lastBeatTime := 0; lastLedUpdate := 0;
     beatFlashActive := false; fingerPresent := false;
     ledBrightness := 0;
     currentBPM := 0; currentSignal := 0; currentIBI := 0;
     lastDisplayedBPM := -1; lastDisplayedSignal := -1; lastDisplayedIBI := -1;
     lastDecay := 0 |}.

(** Assignments to one global. *)
Definition set_waveformBuffer (v : list Z) (st : State) : State :=
  {| waveformBuffer := v; waveformX := waveformX st; minSignal := minSignal st;
     maxSignal := maxSignal st; lastDrawTime := lastDrawTime st;
     lastBeatTime := lastBeatTime st; lastLedUpdate := lastLedUpdate st;
     beatFlashActive := beatFlashActive st; fingerPresent := fingerPresent st;
     ledBrightness := ledBrightness st; currentBPM := currentBPM st;
     currentSignal := currentSignal st; currentIBI := currentIBI st;
     lastDisplayedBPM := lastDisplayedBPM st; lastDisplayedSignal := lastDisplayedSignal st;
     lastDisplayedIBI := lastDisplayedIBI st; lastDecay := lastDecay st |}.
Definition set_waveformX (v : Z) (st : State) : State :=
  {| waveformBuffer := waveformBuffer st; waveformX := v; minSignal := minSignal st;
     maxSignal := maxSignal st; lastDrawTime := lastDrawTime st;
     lastBeatTime := lastBeatTime st; lastLedUpdate := lastLedUpdate st;
     beatFlashActive := beatFlashActive st; fingerPresent := fingerPresent st;
     ledBrightness := ledBrightness st; currentBPM := currentBPM st;
     currentSignal := currentSignal st; currentIBI := currentIBI st;
     lastDisplayedBPM := lastDisplayedBPM st; lastDisplayedSignal := lastDisplayedSignal st;
     lastDisplayedIBI := lastDisplayedIBI st; lastDecay := lastDecay st |}.
Definition set_minSignal (v : Z) (st : State) : State :=
  {| waveformBuffer := waveformBuffer st; waveformX := waveformX st; minSignal := v;
     maxSignal := maxSignal st; lastDrawTime := lastDrawTime st;
     lastBeatTime := lastBeatTime st; lastLedUpdate := lastLedUpdate st;
     beatFlashActive := beatFlashActive st; fingerPresent := fingerPresent st;
     ledBrightness := ledBrightness st; currentBPM := currentBPM st;
     currentSignal := currentSignal st; currentIBI := currentIBI st;
     lastDisplayedBPM := lastDisplayedBPM st; lastDisplayedSignal := lastDisplayedSignal st;
     lastDisplayedIBI := lastDisplayedIBI st; lastDecay := lastDecay st |}.
Definition set_maxSignal (v : Z) (st : State) : State :=
  {| waveformBuffer := waveformBuffer st; waveformX := waveformX st; minSignal := minSignal st;
     maxSignal := v; lastDrawTime := lastDrawTime st; lastBeatTime := lastBeatTime st;
     lastLedUpdate := lastLedUpdate st; beatFlashActive := beatFlashActive st;
     fingerPresent := fingerPresent st; ledBrightness := ledBrightness st;
     currentBPM := currentBPM st; currentSignal := currentSignal st;
     currentIBI := currentIBI st; lastDisplayedBPM := lastDisplayedBPM st;
     lastDisplayedSignal := lastDisplayedSignal st; lastDisplayedIBI := lastDisplayedIBI st;
     lastDecay := lastDecay st |}.
Definition set_lastDrawTime (v : Z) (st : State) : State :=
  {| waveformBuffer := waveformBuffer st; waveformX := waveformX st; minSignal := minSignal st;
     maxSignal := maxSignal st; lastDrawTime := v; lastBeatTime := lastBeatTime st;
     lastLedUpdate := lastLedUpdate st; beatFlashActive := beatFlashActive st;
     fingerPresent := fingerPresent st; ledBrightness := ledBrightness st;
     currentBPM := currentBPM st; currentSignal := currentSignal st;
     currentIBI := currentIBI st; lastDisplayedBPM := lastDisplayedBPM st;
     lastDisplayedSignal := lastDisplayedSignal st; lastDisplayedIBI := lastDisplayedIBI st;
     lastDecay := lastDecay st |}.
Definition set_lastBeatTime (v : Z) (st : State) : State :=
  {| waveformBuffer := waveformBuffer st; waveformX := waveformX st; minSignal := minSignal st;
     maxSignal := maxSignal st; lastDrawTime := lastDrawTime st; lastBeatTime := v;
     lastLedUpdate := lastLedUpdate st; beatFlashActive := beatFlashActive st;
     fingerPresent := fingerPresent st; ledBrightness := ledBrightness st;
     currentBPM := currentBPM st; currentSignal := currentSignal st;
     currentIBI := currentIBI st; lastDisplayedBPM := lastDisplayedBPM st;
     lastDisplayedSignal := lastDisplayedSignal st; lastDisplayedIBI := lastDisplayedIBI st;
     lastDecay := lastDecay st |}.
Definition set_lastLedUpdate (v : Z) (st : State) : State :=
  {| waveformBuffer := waveformBuffer st; waveformX := waveformX st; minSignal := minSignal st;
     maxSignal := maxSignal st; lastDrawTime := lastDrawTime st;
     lastBeatTime := lastBeatTime st; lastLedUpdate := v;
     beatFlashActive := beatFlashActive st; fingerPresent := fingerPresent st;
     ledBrightness := ledBrightness st; currentBPM := currentBPM st;
     currentSignal := currentSignal st; currentIBI := currentIBI st;
     lastDisplayedBPM := lastDisplayedBPM st; lastDisplayedSignal := lastDisplayedSignal st;
     lastDisplayedIBI := lastDisplayedIBI st; lastDecay := lastDecay st |}.
Definition set_beatFlashActive (v : bool) (st : State) : State :=
  {| waveformBuffer := waveformBuffer st; waveformX := waveformX st; minSignal := minSignal st;
     maxSignal := maxSignal st; lastDrawTime := lastDrawTime st;
     lastBeatTime := lastBeatTime st; lastLedUpdate := lastLedUpdate st; beatFlashActive := v;
     fingerPresent := fingerPresent st; ledBrightness := ledBrightness st;
     currentBPM := currentBPM st; currentSignal := currentSignal st;
     currentIBI := currentIBI st; lastDisplayedBPM := lastDisplayedBPM st;
     lastDisplayedSignal := lastDisplayedSignal st; lastDisplayedIBI := lastDisplayedIBI st;
     lastDecay := lastDecay st |}.
Definition set_fingerPresent (v : bool) (st : State) : State :=
  {| waveformBuffer := waveformBuffer st; waveformX := waveformX st; minSignal := minSignal st;
     maxSignal := maxSignal st; lastDrawTime := lastDrawTime st;
     lastBeatTime := lastBeatTime st; lastLedUpdate := lastLedUpdate st;
     beatFlashActive := beatFlashActive st; fingerPresent := v;
     ledBrightness := ledBrightness st; currentBPM := currentBPM st;
     currentSignal := currentSignal st; currentIBI := currentIBI st;
     lastDisplayedBPM := lastDisplayedBPM st; lastDisplayedSignal := lastDisplayedSignal st;
     lastDisplayedIBI := lastDisplayedIBI st; lastDecay := lastDecay st |}.
Definition set_ledBrightness (v : Z) (st : State) : State :=
  {| waveformBuffer := waveformBuffer st; waveformX := waveformX st; minSignal := minSignal st;
     maxSignal := maxSignal st; lastDrawTime := lastDrawTime st;
     lastBeatTime := lastBeatTime st; lastLedUpdate := lastLedUpdate st;
     beatFlashActive := beatFlashActive st; fingerPresent := fingerPresent st;
     ledBrightness := v; currentBPM := currentBPM st; currentSignal := currentSignal st;
     currentIBI := currentIBI st; lastDisplayedBPM := lastDisplayedBPM st;
     lastDisplayedSignal := lastDisplayedSignal st; lastDisplayedIBI := lastDisplayedIBI st;
     lastDecay := lastDecay st |}.
Definition set_currentBPM (v : Z) (st : State) : State :=
  {| waveformBuffer := waveformBuffer st; waveformX := waveformX st; minSignal := minSignal st;
     maxSignal := maxSignal st; lastDrawTime := lastDrawTime st;
     lastBeatTime := lastBeatTime st; lastLedUpdate := lastLedUpdate st;
     beatFlashActive := beatFlashActive st; fingerPresent := fingerPresent st;
     ledBrightness := ledBrightness st; currentBPM := v; currentSignal := currentSignal st;
     currentIBI := currentIBI st; lastDisplayedBPM := lastDisplayedBPM st;
     lastDisplayedSignal := lastDisplayedSignal st; lastDisplayedIBI := lastDisplayedIBI st;
     lastDecay := lastDecay st |}.
Definition set_currentSignal (v : Z) (st : State) : State :=
  {| waveformBuffer := waveformBuffer st; waveformX := waveformX st; minSignal := minSignal st;
     maxSignal := maxSignal st; lastDrawTime := lastDrawTime st;
     lastBeatTime := lastBeatTime st; lastLedUpdate := lastLedUpdate st;
     beatFlashActive := beatFlashActive st; fingerPresent := fingerPresent st;
     ledBrightness := ledBrightness st; currentBPM := currentBPM st; currentSignal := v;
     currentIBI := currentIBI st; lastDisplayedBPM := lastDisplayedBPM st;
     lastDisplayedSignal := lastDisplayedSignal st; lastDisplayedIBI := lastDisplayedIBI st;
     lastDecay := lastDecay st |}.
Definition set_currentIBI (v : Z) (st : State) : State :=
  {| waveformBuffer := waveformBuffer st; waveformX := waveformX st; minSignal := minSignal st;
     maxSignal := maxSignal st; lastDrawTime := lastDrawTime st;
     lastBeatTime := lastBeatTime st; lastLedUpdate := lastLedUpdate st;
     beatFlashActive := beatFlashActive st; fingerPresent := fingerPresent st;
     ledBrightness := ledBrightness st; currentBPM := currentBPM st;
     currentSignal := currentSignal st; currentIBI := v;
     lastDisplayedBPM := lastDisplayedBPM st; lastDisplayedSignal := lastDisplayedSignal st;
     lastDisplayedIBI := lastDisplayedIBI st; lastDecay := lastDecay st |}.
Definition set_lastDisplayedBPM (v : Z) (st : State) : State :=
  {| waveformBuffer := waveformBuffer st; waveformX := waveformX st; minSignal := minSignal st;
     maxSignal := maxSignal st; lastDrawTime := lastDrawTime st;
     lastBeatTime := lastBeatTime st; lastLedUpdate := lastLedUpdate st;
     beatFlashActive := beatFlashActive st; fingerPresent := fingerPresent st;
     ledBrightness := ledBrightness st; currentBPM := currentBPM st;
     currentSignal := currentSignal st; currentIBI := currentIBI st; lastDisplayedBPM := v;
     lastDisplayedSignal := lastDisplayedSignal st; lastDisplayedIBI := lastDisplayedIBI st;
     lastDecay := lastDecay st |}.
Definition set_lastDisplayedSignal (v : Z) (st : State) : State :=
  {| waveformBuffer := waveformBuffer st; waveformX := waveformX st; minSignal := minSignal st;
     maxSignal := maxSignal st; lastDrawTime := lastDrawTime st;
     lastBeatTime := lastBeatTime st; lastLedUpdate := lastLedUpdate st;
     beatFlashActive := beatFlashActive st; fingerPresent := fingerPresent st;
     ledBrightness := ledBrightness st; currentBPM := currentBPM st;
     currentSignal := currentSignal st; currentIBI := currentIBI st;
     lastDisplayedBPM := lastDisplayedBPM st; lastDisplayedSignal := v;
     lastDisplayedIBI := lastDisplayedIBI st; lastDecay := lastDecay st |}.
Definition set_lastDisplayedIBI (v : Z) (st : State) : State :=
  {| waveformBuffer := waveformBuffer st; waveformX := waveformX st; minSignal := minSignal st;
     maxSignal := maxSignal st; lastDrawTime := lastDrawTime st;
     lastBeatTime := lastBeatTime st; lastLedUpdate := lastLedUpdate st;
     beatFlashActive := beatFlashActive st; fingerPresent := fingerPresent st;
     ledBrightness := ledBrightness st; currentBPM := currentBPM st;
     currentSignal := currentSignal st; currentIBI := currentIBI st;
     lastDisplayedBPM := lastDisplayedBPM st; lastDisplayedSignal := lastDisplayedSignal st;
     lastDisplayedIBI := v; lastDecay := lastDecay st |}.
Definition set_lastDecay (v : Z) (st : State) : State :=
  {| waveformBuffer := waveformBuffer st; waveformX := waveformX st; minSignal := minSignal st;
     maxSignal := maxSignal st; lastDrawTime := lastDrawTime st;
     lastBeatTime := lastBeatTime st; lastLedUpdate := lastLedUpdate st;
     beatFlashActive := beatFlashActive st; fingerPresent := fingerPresent st;
     ledBrightness := ledBrightness st; currentBPM := currentBPM st;
     currentSignal := currentSignal st; currentIBI := currentIBI st;
     lastDisplayedBPM := lastDisplayedBPM st; lastDisplayedSignal := lastDisplayedSignal st;
     lastDisplayedIBI := lastDisplayedIBI st; lastDecay := v |}.

(** [waveformBuffer[i]] and [waveformBuffer[i] = v], for [i] inside the
    array; the cursor of the sketch never leaves it. *)
Definition buffer_get (buf : list Z) (i : Z) : Z := default 0 (buf !! Z.to_nat i).
Definition buffer_set (i v : Z) (buf : list Z) : list Z := <[Z.to_nat i := v]> buf.

(** What one iteration of [loop] reads from outside. *)
Record Inputs : Type := {
  (** [millis()] at the top of [loop] *)
  in_now : Z;
  (** [pulseSensor.getLatestSample()] *)
  in_sample : Z;
  (** [pulseSensor.sawStartOfBeat()], and when it holds
      [getBeatsPerMinute()] and [getInterBeatIntervalMs()] *)
  in_beat : option (Z * Z);
  (** [millis()] in [updateLED] *)
  in_now_led : Z;
  (** [millis()] in [checkFingerTimeout] *)
  in_now_timeout : Z;
  (** [millis()] in [updateMinMax] *)
  in_now_decay : Z
}.

(** ** RGB LED *)

Definition setLED (brightness : Z) : M State unit :=
  let pwmValue := isub 255 brightness in
  emit (LedcWrite LED_RED_PIN pwmValue);;
  emit (LedcWrite LED_GREEN_PIN 255);;
  emit (LedcWrite LED_BLUE_PIN 255).

Definition setupLED : M State unit :=
  emit (LedcAttach LED_RED_PIN 5000 8);;
  emit (LedcAttach LED_GREEN_PIN 5000 8);;
  emit (LedcAttach LED_BLUE_PIN 5000 8);;
  setLED 0.

Definition flashLED : M State unit :=
  modify (set_ledBrightness LED_MAX_BRIGHTNESS);;
  b ← gets ledBrightness;
  setLED b.

Definition updateLED (now : Z) : M State unit :=
  last ← gets lastLedUpdate;
  if usub now last >=? 10 then
    modify (set_lastLedUpdate now);;
    b ← gets ledBrightness;
    if b >? 0 then
      modify (set_ledBrightness (isub b LED_FADE_SPEED));;
      b ← gets ledBrightness;
      (if b <? 0 then modify (set_ledBrightness 0) else skip);;
      b ← gets ledBrightness;
      setLED b
    else skip
  else skip.

(** ** Drawing *)

Definition drawLabels : M State unit :=
  emit (TftSetTextColor COLOR_LABEL (Some COLOR_BG));;
  emit (TftSetTextSize 2);;
  emit (TftSetCursor BPM_X BPM_Y);;
  emit (TftPrintStr "BPM");;
  emit (TftSetCursor SIGNAL_X BOTTOM_Y);;
  emit (TftPrintStr "Signal");;
  emit (TftSetCursor IBI_X BOTTOM_Y);;
  emit (TftPrintStr "IBI");;
  emit (TftDrawRect 0 (WAVEFORM_TOP - 1) SCREEN_WIDTH (WAVEFORM_HEIGHT + 2) COLOR_BORDER);;
  emit (TftSetTextColor BRAND_COLOR (Some COLOR_BG));;
  emit (TftSetTextSize BRAND_SIZE);;
  emit (TftSetCursor BRAND_X BRAND_Y);;
  emit (TftPrintStr BRAND_TEXT).

Definition drawBPM (bpm : Z) : M State unit :=
  emit (TftFillRect BPM_X (BPM_Y + 20) 150 55 COLOR_BG);;
  emit (TftSetTextSize 7);;
  if (bpm >? 30) && (bpm <? 220) then
    emit (TftSetTextColor COLOR_BPM (Some COLOR_BG));;
    emit (TftSetCursor BPM_X (BPM_Y + 20));;
    emit (TftPrintInt bpm)
  else
    emit (TftSetTextColor COLOR_LABEL (Some COLOR_BG));;
    emit (TftSetCursor BPM_X (BPM_Y + 20));;
    emit (TftPrintStr "--").

Definition drawSignal (signal : Z) : M State unit :=
  emit (TftFillRect SIGNAL_X (BOTTOM_Y + 18) 120 35 COLOR_BG);;
  emit (TftSetTextSize 4);;
  emit (TftSetTextColor COLOR_SIGNAL (Some COLOR_BG));;
  emit (TftSetCursor SIGNAL_X (BOTTOM_Y + 20));;
  emit (TftPrintInt signal).

Definition drawIBI (ibi : Z) : M State unit :=
  emit (TftFillRect IBI_X (BOTTOM_Y + 18) 140 35 COLOR_BG);;
  emit (TftSetTextSize 4);;
  emit (TftSetTextColor COLOR_IBI (Some COLOR_BG));;
  emit (TftSetCursor IBI_X (BOTTOM_Y + 20));;
  if ibi >? 0 then
    emit (TftPrintInt ibi);;
    emit (TftSetTextSize 2);;
    emit (TftPrintStr "ms")
  else
    emit (TftPrintStr "--").

Definition drawHeart (color : Z) : M State unit :=
  emit (TftFillCircle (BEAT_X - 12) (BEAT_Y - 8) 14 color);;
  emit (TftFillCircle (BEAT_X + 12) (BEAT_Y - 8) 14 color);;
  emit (TftFillTriangle (BEAT_X - 26) (BEAT_Y - 2) (BEAT_X + 26) (BEAT_Y - 2)
                        BEAT_X (BEAT_Y + 28) color).

Definition drawBeatIndicator (active : bool) : M State unit :=
  emit (TftFillRect (BEAT_X - 30) (BEAT_Y - 30) 65 65 COLOR_BG);;
  if active then drawHeart COLOR_HEART else drawHeart COLOR_HEART_DIM.

(** The span the renderer scales by: [max(maxSignal - minSignal, 100)]. *)
Definition range (st : State) : Z :=
  Arduino.max (isub (maxSignal st) (minSignal st)) 100.

(** The row of a sample:
    [WAVEFORM_BOTTOM - 5 - (int)((sample - minSignal) * scale)], constrained. *)
Definition row (st : State) (sample : Z) : Z :=
  let scale := f32_div (f32_of_int (WAVEFORM_HEIGHT - 10)) (f32_of_int (range st)) in
  let y := isub (WAVEFORM_BOTTOM - 5)
                (int_of_f32 (f32_mul (f32_of_int (isub sample (minSignal st))) scale)) in
  Arduino.constrain y (WAVEFORM_TOP + 2) (WAVEFORM_BOTTOM - 2).

Definition drawWaveformColumn : M State unit :=
  x ← gets waveformX;
  emit (TftDrawFastVLine x (WAVEFORM_TOP + 1) (WAVEFORM_HEIGHT - 2) COLOR_BG);;
  let cursorX := irem (iadd x 4) SCREEN_WIDTH in
  emit (TftDrawFastVLine cursorX (WAVEFORM_TOP + 1) (WAVEFORM_HEIGHT - 2) COLOR_GRID);;
  st ← gets id;
  let y := row st (buffer_get (waveformBuffer st) x) in
  for_each (seqZ 0 WAVEFORM_THICKNESS) (fun t =>
    emit (TftDrawPixel x (y + t) COLOR_WAVEFORM);;
    emit (TftDrawPixel x (y - t) COLOR_WAVEFORM));;
  if x >? 0 then
    let prevY := row st (buffer_get (waveformBuffer st) (x - 1)) in
    for_each (seqZ 0 WAVEFORM_THICKNESS) (fun t =>
      emit (TftDrawLine (x - 1) (prevY + t) x (y + t) COLOR_WAVEFORM);;
      emit (TftDrawLine (x - 1) (prevY - t) x (y - t) COLOR_WAVEFORM))
  else skip.

(** ** The scale envelope *)

(** The decay of the envelope toward 2048, due every 100 ms. *)
Definition decayMinMax (now : Z) : M State unit :=
  last ← gets lastDecay;
  if usub now last >? 100 then
    modify (set_lastDecay now);;
    mn ← gets minSignal;
    modify (set_minSignal (Arduino.min (iadd mn 5) 2048));;
    mx ← gets maxSignal;
    modify (set_maxSignal (Arduino.max (isub mx 5) 2048))
  else skip.

(** The widening of the envelope by the current sample. *)
Definition widenMinMax : M State unit :=
  mn ← gets minSignal; cs ← gets currentSignal;
  modify (set_minSignal (Arduino.min mn cs));;
  mx ← gets maxSignal; cs ← gets currentSignal;
  modify (set_maxSignal (Arduino.max mx cs)).

Definition updateMinMax (now : Z) : M State unit :=
  decayMinMax now;;
  widenMinMax.

(** ** No-finger timeout *)

Definition checkFingerTimeout (now : Z) : M State unit :=
  fp ← gets fingerPresent; last ← gets lastBeatTime;
  if fp && (usub now last >? NO_BEAT_TIMEOUT) then
    modify (set_fingerPresent false);;
    modify (set_currentBPM 0);;
    modify (set_currentIBI 0);;
    shownBPM ← gets lastDisplayedBPM;
    (if negb (shownBPM =? 0) then
       drawBPM 0;;
       modify (set_lastDisplayedBPM 0)
     else skip);;
    shownIBI ← gets lastDisplayedIBI;
    (if negb (shownIBI =? 0) then
       drawIBI 0;;
       modify (set_lastDisplayedIBI 0)
     else skip);;
    emit (SerialWrite ("No finger detected - values reset" +:+ CRLF))
  else skip.

(** ** [setup] and [loop] *)

(** [sensor_ok] is the answer of [pulseSensor.begin()]. *)
Definition setup (sensor_ok : bool) : M State unit :=
  emit (SerialBegin 115200);;
  emit (SerialWrite (LF +:+ LF +:+ "=== PulseSensor CYD Dashboard ===" +:+ CRLF));;
  emit (PinMode BACKLIGHT_PIN true);;
  emit (DigitalWrite BACKLIGHT_PIN true);;
  setupLED;;
  emit TftInit;;
  emit (TftSetRotation 1);;
  emit (TftFillScreen COLOR_BG);;
  drawLabels;;
  emit (TftFillRect 1 WAVEFORM_TOP (SCREEN_WIDTH - 2) WAVEFORM_HEIGHT COLOR_BG);;
  emit (SensorAnalogInput PULSE_SENSOR_PIN);;
  emit (SensorSetThreshold THRESHOLD);;
  (if sensor_ok then emit (SerialWrite ("PulseSensor initialized!" +:+ CRLF))
   else emit (SerialWrite ("PulseSensor FAILED!" +:+ CRLF)));;
  for_each (seqZ 0 WAVEFORM_SAMPLES) (fun i =>
    modify (fun st => set_waveformBuffer (buffer_set i 2048 (waveformBuffer st)) st));;
  drawBPM 0;;
  drawSignal 0;;
  drawIBI 0;;
  drawBeatIndicator false.

(** The branch of [loop] taken when the sensor saw the start of a beat. *)
Definition onBeat (now bpm ibi : Z) : M State unit :=
  modify (set_currentBPM bpm);;
  modify (set_currentIBI ibi);;
  modify (set_lastBeatTime now);;
  modify (set_beatFlashActive true);;
  modify (set_fingerPresent true);;
  flashLED;;
  cur ← gets currentBPM; shown ← gets lastDisplayedBPM;
  (if negb (cur =? shown) then
     drawBPM cur;;
     modify (set_lastDisplayedBPM cur)
   else skip);;
  cur ← gets currentIBI; shown ← gets lastDisplayedIBI;
  (if negb (cur =? shown) then
     drawIBI cur;;
     modify (set_lastDisplayedIBI cur)
   else skip);;
  drawBeatIndicator true;;
  sig ← gets currentSignal; bpm ← gets currentBPM; ibi ← gets currentIBI;
  emit (SerialWrite (dec sig +:+ "," +:+ dec bpm +:+ "," +:+ dec ibi +:+ ",1" +:+ LF)).

(** The refresh of the signal readout at the end of a render tick. *)
Definition refreshSignal : M State unit :=
  x ← gets waveformX;
  if irem x 10 =? 0 then
    cs ← gets currentSignal; shown ← gets lastDisplayedSignal;
    if Arduino.abs (isub cs shown) >? 30 then
      drawSignal cs;;
      modify (set_lastDisplayedSignal cs)
    else skip
  else skip.

(** The body of the render tick. *)
Definition renderTick (now now_decay : Z) : M State unit :=
  modify (set_lastDrawTime now);;
  x ← gets waveformX; cs ← gets currentSignal;
  modify (fun st => set_waveformBuffer (buffer_set x cs (waveformBuffer st)) st);;
  updateMinMax now_decay;;
  drawWaveformColumn;;
  x ← gets waveformX;
  modify (set_waveformX (iadd x 1));;
  x ← gets waveformX;
  (if x >=? SCREEN_WIDTH then modify (set_waveformX 0) else skip);;
  refreshSignal.

(** The blocks of [loop], in the order of the source. *)

(** [if (pulseSensor.sawStartOfBeat()) { ... }] *)
Definition beatStage (i : Inputs) : M State unit :=
  match in_beat i with
  | Some (bpm, ibi) => onBeat (in_now i) bpm ibi
  | None => skip
  end.

(** [if (beatFlashActive && (now - lastBeatTime > 150)) { ... }] *)
Definition flashStage (now : Z) : M State unit :=
  flash ← gets beatFlashActive; last ← gets lastBeatTime;
  if flash && (usub now last >? 150) then
    modify (set_beatFlashActive false);;
    drawBeatIndicator false
  else skip.

(** [if (now - lastDrawTime >= WAVEFORM_SPEED) { ... }] *)
Definition renderStage (i : Inputs) : M State unit :=
  last ← gets lastDrawTime;
  if usub (in_now i) last >=? WAVEFORM_SPEED then
    renderTick (in_now i) (in_now_decay i)
  else skip.

Definition loop (i : Inputs) : M State unit :=
  modify (set_currentSignal (in_sample i));;
  beatStage i;;
  flashStage (in_now i);;
  updateLED (in_now_led i);;
  checkFingerTimeout (in_now_timeout i);;
  renderStage i.

(** The sketch after [setup] and some iterations of [loop]. *)
Definition run (ins : list Inputs) (st : State) : State :=
  foldl (fun s i => exec (loop i) s) st ins.

Definition booted (sensor_ok : bool) : State := exec (setup sensor_ok) init.

(** ** Observations used in the statements *)

(** The render tick is due in this iteration. *)
Definition renders (i : Inputs) (st : State) : bool :=
  usub (in_now i) (lastDrawTime st) >=? WAVEFORM_SPEED.

(** More than the timeout has passed since the last beat. *)
Definition timed_out (i : Inputs) (st : State) : bool :=
  usub (in_now_timeout i) (lastBeatTime st) >? NO_BEAT_TIMEOUT.

Definition no_beat (i : Inputs) : Prop := in_beat i = None.

(** The buffer indices written by the iterations [ins], in order. *)
Fixpoint writes (ins : list Inputs) (st : State) : list Z :=
  match ins with
  | [] => []
  | i :: rest =>
      (if renders i st then [waveformX st] else []) ++ writes rest (exec (loop i) st)
  end.

(** How often the presence goes from present to absent over [ins]. *)
Fixpoint transitions (ins : list Inputs) (st : State) : nat :=
  match ins with
  | [] => 0%nat
  | i :: rest =>
      ((if fingerPresent st && negb (fingerPresent (exec (loop i) st)) then 1 else 0)
       + transitions rest (exec (loop i) st))%nat
  end.

(** The calls that start a redraw of a numeric field: the rectangle that
    clears it. *)
Definition clears_bpm (e : Event) : bool :=
  match e with
  | TftFillRect x y w h _ => (x =? BPM_X) && (y =? BPM_Y + 20) && (w =? 150) && (h =? 55)
  | _ => false
  end.
Definition clears_signal (e : Event) : bool :=
  match e with
  | TftFillRect x y w h _ => (x =? SIGNAL_X) && (y =? BOTTOM_Y + 18) && (w =? 120) && (h =? 35)
  | _ => false
  end.
Definition clears_ibi (e : Event) : bool :=
  match e with
  | TftFillRect x y w h _ => (x =? IBI_X) && (y =? BOTTOM_Y + 18) && (w =? 140) && (h =? 35)
  | _ => false
  end.

(** The line written to the serial port when the finger is gone. *)
Definition no_finger_line : string := "No finger detected - values reset" +:+ CRLF.

(** Example inputs: a quiet iteration at clock reading [t] with sample [s]. *)
Definition quiet_at (t s : Z) : Inputs :=
  {| in_now := t; in_sample := s; in_beat := None;
     in_now_led := t; in_now_timeout := t; in_now_decay := t |}.

(** Example inputs: an iteration at [t] in which a beat is seen. *)
Definition beat_at (t s bpm ibi : Z) : Inputs :=
  {| in_now := t; in_sample := s; in_beat := Some (bpm, ibi);
     in_now_led := t; in_now_timeout := t; in_now_decay := t |}.

End Part000.

(** * The sketch [PulseSensor_CYD.ino] *)

Module CYD.

(** ** Constants *)

Definition PULSE_SENSOR_PIN : Z := 35.
Definition BACKLIGHT_PIN : Z := 21.
Definition RGB_LED_R : Z := 4.
Definition RGB_LED_G : Z := 16.
Definition RGB_LED_B : Z := 17.

Definition SCREEN_WIDTH : Z := 320.
Definition SCREEN_HEIGHT : Z := 240.

Definition BPM_X : Z := 10.
Definition BPM_Y : Z := 5.
Definition BEAT_X : Z := 270.
Definition BEAT_Y : Z := 35.
Definition BEAT_R : Z := 25.

Definition WAVEFORM_TOP : Z := 80.
Definition WAVEFORM_HEIGHT : Z := 100.
Definition WAVEFORM_BOTTOM : Z := WAVEFORM_TOP + WAVEFORM_HEIGHT.

Definition BOTTOM_Y : Z := 190.
Definition SIGNAL_X : Z := 10.
Definition IBI_X : Z := 170.

Definition COLOR_BG : Z := 0x18C3.
Definition COLOR_WAVEFORM : Z := 0xE1E9.
Definition COLOR_BPM : Z := 0x4F10.
Definition COLOR_SIGNAL : Z := 0xFE60.
Definition COLOR_IBI : Z := 0x269E.
Definition COLOR_HEART : Z := 0xEA29.
Definition COLOR_HEART_DIM : Z := 0x4208.
Definition COLOR_LABEL : Z := 0x6B6D.
Definition COLOR_GRID : Z := 0x3A0A.
(** [TFT_RED] of the display library. *)
Definition TFT_RED : Z := 0xF800.

Definition WAVEFORM_THICKNESS : Z := 3.
Definition WAVEFORM_SPEED : Z := 20.

Definition THRESHOLD : Z := 550.
Definition NO_BEAT_TIMEOUT : Z := 3000.
Definition WAVEFORM_SAMPLES : Z := SCREEN_WIDTH.

(** ** The globals *)

Record State : Type := {
  waveformBuffer : list Z;
  waveformIndex : Z;
  minSignal : Z;
  maxSignal : Z;
  lastDrawTime : Z;
  lastBeatTime : Z;
  beatFlashActive : bool;
  fingerPresent : bool;
  ledFadeValue : Z;
  lastLedUpdate : Z;
  currentBPM : Z;
  currentSignal : Z;
  currentIBI : Z;
  lastDisplayedBPM : Z;
  lastDisplayedSignal : Z;
  lastDisplayedIBI : Z
}.

(** The values the globals have when [setup] starts. *)
Definition init : State :=
  {| waveformBuffer := replicate (Z.to_nat WAVEFORM_SAMPLES) 0;
     waveformIndex := 0; minSignal := 4095; maxSignal := 0;
     lastDrawTime := 0; lastBeatTime := 0;
     beatFlashActive := false; fingerPresent := false;
     ledFadeValue := 0; lastLedUpdate := 0;
     currentBPM := 0; currentSignal := 0; currentIBI := 0;
     lastDisplayedBPM := -1; lastDisplayedSignal := -1; lastDisplayedIBI := -1 |}.

(** Assignments to one global. *)
Definition set_waveformBuffer (v : list Z) (st : State) : State :=
  {| waveformBuffer := v; waveformIndex := waveformIndex st; minSignal := minSignal st;
     maxSignal := maxSignal st; lastDrawTime := lastDrawTime st;
     lastBeatTime := lastBeatTime st; beatFlashActive := beatFlashActive st;
     fingerPresent := fingerPresent st; ledFadeValue := ledFadeValue st;
     lastLedUpdate := lastLedUpdate st; currentBPM := currentBPM st;
     currentSignal := currentSignal st; currentIBI := currentIBI st;
     lastDisplayedBPM := lastDisplayedBPM st; lastDisplayedSignal := lastDisplayedSignal st;
     lastDisplayedIBI := lastDisplayedIBI st |}.
Definition set_waveformIndex (v : Z) (st : State) : State :=
  {| waveformBuffer := waveformBuffer st; waveformIndex := v; minSignal := minSignal st;
     maxSignal := maxSignal st; lastDrawTime := lastDrawTime st;
     lastBeatTime := lastBeatTime st; beatFlashActive := beatFlashActive st;
     fingerPresent := fingerPresent st; ledFadeValue := ledFadeValue st;
     lastLedUpdate := lastLedUpdate st; currentBPM := currentBPM st;
     currentSignal := currentSignal st; currentIBI := currentIBI st;
     lastDisplayedBPM := lastDisplayedBPM st; lastDisplayedSignal := lastDisplayedSignal st;
     lastDisplayedIBI := lastDisplayedIBI st |}.
Definition set_minSignal (v : Z) (st : State) : State :=
  {| waveformBuffer := waveformBuffer st; waveformIndex := waveformIndex st; minSignal := v;
     maxSignal := maxSignal st; lastDrawTime := lastDrawTime st;
     lastBeatTime := lastBeatTime st; beatFlashActive := beatFlashActive st;
     fingerPresent := fingerPresent st; ledFadeValue := ledFadeValue st;
     lastLedUpdate := lastLedUpdate st; currentBPM := currentBPM st;
     currentSignal := currentSignal st; currentIBI := currentIBI st;
     lastDisplayedBPM := lastDisplayedBPM st; lastDisplayedSignal := lastDisplayedSignal st;
     lastDisplayedIBI := lastDisplayedIBI st |}.
Definition set_maxSignal (v : Z) (st : State) : State :=
  {| waveformBuffer := waveformBuffer st; waveformIndex := waveformIndex st;
     minSignal := minSignal st; maxSignal := v; lastDrawTime := lastDrawTime st;
     lastBeatTime := lastBeatTime st; beatFlashActive := beatFlashActive st;
     fingerPresent := fingerPresent st; ledFadeValue := ledFadeValue st;
     lastLedUpdate := lastLedUpdate st; currentBPM := currentBPM st;
     currentSignal := currentSignal st; currentIBI := currentIBI st;
     lastDisplayedBPM := lastDisplayedBPM st; lastDisplayedSignal := lastDisplayedSignal st;
     lastDisplayedIBI := lastDisplayedIBI st |}.
Definition set_lastDrawTime (v : Z) (st : State) : State :=
  {| waveformBuffer := waveformBuffer st; waveformIndex := waveformIndex st;
     minSignal := minSignal st; maxSignal := maxSignal st; lastDrawTime := v;
     lastBeatTime := lastBeatTime st; beatFlashActive := beatFlashActive st;
     fingerPresent := fingerPresent st; ledFadeValue := ledFadeValue st;
     lastLedUpdate := lastLedUpdate st; currentBPM := currentBPM st;
     currentSignal := currentSignal st; currentIBI := currentIBI st;
     lastDisplayedBPM := lastDisplayedBPM st; lastDisplayedSignal := lastDisplayedSignal st;
     lastDisplayedIBI := lastDisplayedIBI st |}.
Definition set_lastBeatTime (v : Z) (st : State) : State :=
  {| waveformBuffer := waveformBuffer st; waveformIndex := waveformIndex st;
     minSignal := minSignal st; maxSignal := maxSignal st; lastDrawTime := lastDrawTime st;
     lastBeatTime := v; beatFlashActive := beatFlashActive st;
     fingerPresent := fingerPresent st; ledFadeValue := ledFadeValue st;
     lastLedUpdate := lastLedUpdate st; currentBPM := currentBPM st;
     currentSignal := currentSignal st; currentIBI := currentIBI st;
     lastDisplayedBPM := lastDisplayedBPM st; lastDisplayedSignal := lastDisplayedSignal st;
     lastDisplayedIBI := lastDisplayedIBI st |}.
Definition set_beatFlashActive (v : bool) (st : State) : State :=
  {| waveformBuffer := waveformBuffer st; waveformIndex := waveformIndex st;
     minSignal := minSignal st; maxSignal := maxSignal st; lastDrawTime := lastDrawTime st;
     lastBeatTime := lastBeatTime st; beatFlashActive := v; fingerPresent := fingerPresent st;
     ledFadeValue := ledFadeValue st; lastLedUpdate := lastLedUpdate st;
     currentBPM := currentBPM st; currentSignal := currentSignal st;
     currentIBI := currentIBI st; lastDisplayedBPM := lastDisplayedBPM st;
     lastDisplayedSignal := lastDisplayedSignal st; lastDisplayedIBI := lastDisplayedIBI st |}.
Definition set_fingerPresent (v : bool) (st : State) : State :=
  {| waveformBuffer := waveformBuffer st; waveformIndex := waveformIndex st;
     minSignal := minSignal st; maxSignal := maxSignal st; lastDrawTime := lastDrawTime st;
     lastBeatTime := lastBeatTime st; beatFlashActive := beatFlashActive st;
     fingerPresent := v; ledFadeValue := ledFadeValue st; lastLedUpdate := lastLedUpdate st;
     currentBPM := currentBPM st; currentSignal := currentSignal st;
     currentIBI := currentIBI st; lastDisplayedBPM := lastDisplayedBPM st;
     lastDisplayedSignal := lastDisplayedSignal st; lastDisplayedIBI := lastDisplayedIBI st |}.
Definition set_ledFadeValue (v : Z) (st : State) : State :=
  {| waveformBuffer := waveformBuffer st; waveformIndex := waveformIndex st;
     minSignal := minSignal st; maxSignal := maxSignal st; lastDrawTime := lastDrawTime st;
     lastBeatTime := lastBeatTime st; beatFlashActive := beatFlashActive st;
     fingerPresent := fingerPresent st; ledFadeValue := v; lastLedUpdate := lastLedUpdate st;
     currentBPM := currentBPM st; currentSignal := currentSignal st;
     currentIBI := currentIBI st; lastDisplayedBPM := lastDisplayedBPM st;
     lastDisplayedSignal := lastDisplayedSignal st; lastDisplayedIBI := lastDisplayedIBI st |}.
Definition set_lastLedUpdate (v : Z) (st : State) : State :=
  {| waveformBuffer := waveformBuffer st; waveformIndex := waveformIndex st;
     minSignal := minSignal st; maxSignal := maxSignal st; lastDrawTime := lastDrawTime st;
     lastBeatTime := lastBeatTime st; beatFlashActive := beatFlashActive st;
     fingerPresent := fingerPresent st; ledFadeValue := ledFadeValue st; lastLedUpdate := v;
     currentBPM := currentBPM st; currentSignal := currentSignal st;
     currentIBI := currentIBI st; lastDisplayedBPM := lastDisplayedBPM st;
     lastDisplayedSignal := lastDisplayedSignal st; lastDisplayedIBI := lastDisplayedIBI st |}.
Definition set_currentBPM (v : Z) (st : State) : State :=
  {| waveformBuffer := waveformBuffer st; waveformIndex := waveformIndex st;
     minSignal := minSignal st; maxSignal := maxSignal st; lastDrawTime := lastDrawTime st;
     lastBeatTime := lastBeatTime st; beatFlashActive := beatFlashActive st;
     fingerPresent := fingerPresent st; ledFadeValue := ledFadeValue st;
     lastLedUpdate := lastLedUpdate st; currentBPM := v; currentSignal := currentSignal st;
     currentIBI := currentIBI st; lastDisplayedBPM := lastDisplayedBPM st;
     lastDisplayedSignal := lastDisplayedSignal st; lastDisplayedIBI := lastDisplayedIBI st |}.
Definition set_currentSignal (v : Z) (st : State) : State :=
  {| waveformBuffer := waveformBuffer st; waveformIndex := waveformIndex st;
     minSignal := minSignal st; maxSignal := maxSignal st; lastDrawTime := lastDrawTime st;
     lastBeatTime := lastBeatTime st; beatFlashActive := beatFlashActive st;
     fingerPresent := fingerPresent st; ledFadeValue := ledFadeValue st;
     lastLedUpdate := lastLedUpdate st; currentBPM := currentBPM st; currentSignal := v;
     currentIBI := currentIBI st; lastDisplayedBPM := lastDisplayedBPM st;
     lastDisplayedSignal := lastDisplayedSignal st; lastDisplayedIBI := lastDisplayedIBI st |}.
Definition set_currentIBI (v : Z) (st : State) : State :=
  {| waveformBuffer := waveformBuffer st; waveformIndex := waveformIndex st;
     minSignal := minSignal st; maxSignal := maxSignal st; lastDrawTime := lastDrawTime st;
     lastBeatTime := lastBeatTime st; beatFlashActive := beatFlashActive st;
     fingerPresent := fingerPresent st; ledFadeValue := ledFadeValue st;
     lastLedUpdate := lastLedUpdate st; currentBPM := currentBPM st;
     currentSignal := currentSignal st; currentIBI := v;
     lastDisplayedBPM := lastDisplayedBPM st; lastDisplayedSignal := lastDisplayedSignal st;
     lastDisplayedIBI := lastDisplayedIBI st |}.
Definition set_lastDisplayedBPM (v : Z) (st : State) : State :=
  {| waveformBuffer := waveformBuffer st; waveformIndex := waveformIndex st;
     minSignal := minSignal st; maxSignal := maxSignal st; lastDrawTime := lastDrawTime st;
     lastBeatTime := lastBeatTime st; beatFlashActive := beatFlashActive st;
     fingerPresent := fingerPresent st; ledFadeValue := ledFadeValue st;
     lastLedUpdate := lastLedUpdate st; currentBPM := currentBPM st;
     currentSignal := currentSignal st; currentIBI := currentIBI st; lastDisplayedBPM := v;
     lastDisplayedSignal := lastDisplayedSignal st; lastDisplayedIBI := lastDisplayedIBI st |}.
Definition set_lastDisplayedSignal (v : Z) (st : State) : State :=
  {| waveformBuffer := waveformBuffer st; waveformIndex := waveformIndex st;
     minSignal := minSignal st; maxSignal := maxSignal st; lastDrawTime := lastDrawTime st;
     lastBeatTime := lastBeatTime st; beatFlashActive := beatFlashActive st;
     fingerPresent := fingerPresent st; ledFadeValue := ledFadeValue st;
     lastLedUpdate := lastLedUpdate st; currentBPM := currentBPM st;
     currentSignal := currentSignal st; currentIBI := currentIBI st;
     lastDisplayedBPM := lastDisplayedBPM st; lastDisplayedSignal := v;
     lastDisplayedIBI := lastDisplayedIBI st |}.
Definition set_lastDisplayedIBI (v : Z) (st : State) : State :=
  {| waveformBuffer := waveformBuffer st; waveformIndex := waveformIndex st;
     minSignal := minSignal st; maxSignal := maxSignal st; lastDrawTime := lastDrawTime st;
     lastBeatTime := lastBeatTime st; beatFlashActive := beatFlashActive st;
     fingerPresent := fingerPresent st; ledFadeValue := ledFadeValue st;
     lastLedUpdate := lastLedUpdate st; currentBPM := currentBPM st;
     currentSignal := currentSignal st; currentIBI := currentIBI st;
     lastDisplayedBPM := lastDisplayedBPM st; lastDisplayedSignal := lastDisplayedSignal st;
     lastDisplayedIBI := v |}.

(** [waveformBuffer[i]] and [waveformBuffer[i] = v], for [i] inside the
    array; the cursor of the sketch never leaves it. *)
Definition buffer_get (buf : list Z) (i : Z) : Z := default 0 (buf !! Z.to_nat i).
Definition buffer_set (i v : Z) (buf : list Z) : list Z := <[Z.to_nat i := v]> buf.

(** What one iteration of [loop] reads from outside; the clock is read anew
    at every [millis()] of the source. *)
Record Inputs : Type := {
  (** [pulseSensor.getLatestSample()] *)
  in_sample : Z;
  (** [pulseSensor.sawStartOfBeat()], and when it holds
      [getBeatsPerMinute()] and [getInterBeatIntervalMs()] *)
  in_beat : option (Z * Z);
  (** [lastBeatTime = millis()] *)
  in_now_beat : Z;
  (** [millis() - lastDrawTime >= WAVEFORM_SPEED] *)
  in_now_draw : Z;
  (** [lastDrawTime = millis()] *)
  in_now_drawn : Z;
  (** [millis() - lastBeatTime > 100] *)
  in_now_flash : Z;
  (** [millis() - lastLedUpdate > 10] *)
  in_now_led : Z;
  (** [lastLedUpdate = millis()] *)
  in_now_led_set : Z;
  (** [millis()] in [checkFingerTimeout] *)
  in_now_timeout : Z
}.

(** ** Drawing *)

Definition drawLabels : M State unit :=
  emit (TftSetTextColor COLOR_LABEL None);;
  emit (TftSetTextSize 1);;
  emit (TftDrawString "BPM" BPM_X (BPM_Y + 50) 2);;
  emit (TftDrawString "Signal" SIGNAL_X BOTTOM_Y 2);;
  emit (TftDrawString "IBI" IBI_X BOTTOM_Y 2).

Definition drawBPM (bpm : Z) : M State unit :=
  shown ← gets lastDisplayedBPM;
  if bpm =? shown then skip
  else
    modify (set_lastDisplayedBPM bpm);;
    emit (TftFillRect BPM_X BPM_Y 150 50 COLOR_BG);;
    emit (TftSetTextColor COLOR_BPM None);;
    emit (TftSetTextSize 1);;
    emit (TftDrawNumber bpm BPM_X BPM_Y 7).

Definition drawSignal (signal : Z) : M State unit :=
  shown ← gets lastDisplayedSignal;
  if signal =? shown then skip
  else
    modify (set_lastDisplayedSignal signal);;
    emit (TftFillRect SIGNAL_X (BOTTOM_Y + 16) 80 24 COLOR_BG);;
    emit (TftSetTextColor COLOR_SIGNAL None);;
    emit (TftDrawNumber signal SIGNAL_X (BOTTOM_Y + 16) 4).

(** [buf] holds ten characters; the text is [sprintf("%dms", ibi)]. *)
Definition drawIBI (ibi : Z) : M State unit :=
  shown ← gets lastDisplayedIBI;
  if ibi =? shown then skip
  else
    modify (set_lastDisplayedIBI ibi);;
    emit (TftFillRect IBI_X (BOTTOM_Y + 16) 100 24 COLOR_BG);;
    emit (TftSetTextColor COLOR_IBI None);;
    let buf := dec ibi +:+ "ms" in
    emit (TftDrawString buf IBI_X (BOTTOM_Y + 16) 4).

Definition drawHeart (color : Z) : M State unit :=
  let x := BEAT_X in
  let y := BEAT_Y in
  let r := BEAT_R in
  emit (TftFillCircle (x - Z.quot r 2) y (Z.quot r 2) color);;
  emit (TftFillCircle (x + Z.quot r 2) y (Z.quot r 2) color);;
  emit (TftFillTriangle (x - r) y (x + r) y x (y + r) color).

Definition drawWaveformColumn : M State unit :=
  x ← gets waveformIndex;
  emit (TftDrawFastVLine x WAVEFORM_TOP WAVEFORM_HEIGHT COLOR_BG);;
  buf ← gets waveformBuffer;
  let currentSample := buffer_get buf x in
  let prevIndex := irem (iadd (isub x 1) WAVEFORM_SAMPLES) WAVEFORM_SAMPLES in
  let prevSample := buffer_get buf prevIndex in
  mn ← gets minSignal; mx ← gets maxSignal;
  let range := isub mx mn in
  let range := if range <? 100 then 100 else range in
  let y1 := Arduino.map prevSample mn mx (WAVEFORM_BOTTOM - 5) (WAVEFORM_TOP + 5) in
  let y2 := Arduino.map currentSample mn mx (WAVEFORM_BOTTOM - 5) (WAVEFORM_TOP + 5) in
  let y1 := Arduino.constrain y1 WAVEFORM_TOP WAVEFORM_BOTTOM in
  let y2 := Arduino.constrain y2 WAVEFORM_TOP WAVEFORM_BOTTOM in
  for_each (seqZ 0 WAVEFORM_THICKNESS) (fun t =>
    emit (TftDrawLine (isub x 1) (y1 + t) x (y2 + t) COLOR_WAVEFORM));;
  let eraseX := irem (iadd x 10) SCREEN_WIDTH in
  emit (TftDrawFastVLine eraseX WAVEFORM_TOP WAVEFORM_HEIGHT COLOR_BG).

(** ** RGB LED *)

Definition updateRgbLed (now now_set : Z) : M State unit :=
  fade ← gets ledFadeValue;
  if fade >? 0 then
    last ← gets lastLedUpdate;
    if usub now last >? 10 then
      modify (set_lastLedUpdate now_set);;
      fade ← gets ledFadeValue;
      modify (set_ledFadeValue (isub fade 8));;
      fade ← gets ledFadeValue;
      (if fade <? 0 then modify (set_ledFadeValue 0) else skip);;
      fade ← gets ledFadeValue;
      emit (AnalogWrite RGB_LED_R fade)
    else skip
  else skip.

(** ** No-finger timeout *)

Definition resetDisplay : M State unit :=
  modify (set_lastDisplayedBPM (-1));;
  modify (set_lastDisplayedSignal (-1));;
  modify (set_lastDisplayedIBI (-1));;
  emit (TftFillRect BPM_X BPM_Y 150 50 COLOR_BG);;
  emit (TftFillRect IBI_X (BOTTOM_Y + 16) 100 24 COLOR_BG);;
  emit (TftSetTextColor COLOR_LABEL None);;
  emit (TftDrawString "Place finger" BPM_X (BPM_Y + 10) 2);;
  emit (TftDrawString "on sensor" BPM_X (BPM_Y + 28) 2);;
  drawHeart COLOR_HEART_DIM;;
  modify (set_minSignal 1800);;
  modify (set_maxSignal 2200);;
  emit (SerialWrite ("Waiting for finger..." +:+ CRLF)).

Definition checkFingerTimeout (now : Z) : M State unit :=
  fp ← gets fingerPresent; last ← gets lastBeatTime;
  if fp && (usub now last >? NO_BEAT_TIMEOUT) then
    modify (set_fingerPresent false);;
    resetDisplay
  else skip.

(** ** [setup] and [loop] *)

(** [sensor_ok] is the answer of [pulseSensor.begin()], [now] the clock at
    the end of [setup]. *)
Definition setup (sensor_ok : bool) (now : Z) : M State unit :=
  emit (SerialBegin 115200);;
  emit (SerialWrite (LF +:+ "=== PulseSensor CYD ===" +:+ CRLF));;
  emit (SerialWrite ("pulsesensor.com/pages/cyd" +:+ CRLF));;
  emit (PinMode BACKLIGHT_PIN true);;
  emit (DigitalWrite BACKLIGHT_PIN true);;
  emit (PinMode RGB_LED_R true);;
  emit (PinMode RGB_LED_G true);;
  emit (PinMode RGB_LED_B true);;
  emit (AnalogWrite RGB_LED_R 0);;
  emit (AnalogWrite RGB_LED_G 0);;
  emit (AnalogWrite RGB_LED_B 0);;
  emit TftInit;;
  emit (TftSetRotation 1);;
  emit (TftFillScreen COLOR_BG);;
  drawLabels;;
  drawHeart COLOR_HEART_DIM;;
  emit (SensorAnalogInput PULSE_SENSOR_PIN);;
  emit (SensorSetThreshold THRESHOLD);;
  (if sensor_ok then emit (SerialWrite ("PulseSensor ready" +:+ CRLF))
   else
     emit (SerialWrite ("PulseSensor FAILED" +:+ CRLF));;
     emit (TftSetTextColor TFT_RED None);;
     emit (TftDrawString "Sensor Error!" 100 120 4));;
  for_each (seqZ 0 WAVEFORM_SAMPLES) (fun i =>
    modify (fun st => set_waveformBuffer (buffer_set i 2048 (waveformBuffer st)) st));;
  modify (set_lastBeatTime now).

(** The branch of [loop] taken when the sensor saw the start of a beat. *)
Definition onBeat (now bpm ibi : Z) : M State unit :=
  modify (set_currentBPM bpm);;
  modify (set_currentIBI ibi);;
  modify (set_lastBeatTime now);;
  modify (set_fingerPresent true);;
  modify (set_beatFlashActive true);;
  modify (set_ledFadeValue 255);;
  cur ← gets currentBPM; drawBPM cur;;
  cur ← gets currentIBI; drawIBI cur;;
  drawHeart COLOR_HEART;;
  emit (SerialWrite "BPM: ");;
  cur ← gets currentBPM; emit (SerialWrite (dec cur));;
  emit (SerialWrite " | IBI: ");;
  cur ← gets currentIBI; emit (SerialWrite (dec cur +:+ CRLF)).

(** "Update min/max for scaling": the envelope is widened by the sample. *)
Definition widenMinMax : M State unit :=
  cs ← gets currentSignal; mn ← gets minSignal;
  (if cs <? mn then modify (set_minSignal cs) else skip);;
  cs ← gets currentSignal; mx ← gets maxSignal;
  (if cs >? mx then modify (set_maxSignal cs) else skip).

(** "Slowly drift min/max toward center": one unit per render tick, and
    never past 1800 and 2200. *)
Definition driftMinMax : M State unit :=
  mn ← gets minSignal; modify (set_minSignal (iadd mn 1));;
  mx ← gets maxSignal; modify (set_maxSignal (isub mx 1));;
  mn ← gets minSignal;
  (if mn >? 1800 then modify (set_minSignal 1800) else skip);;
  mx ← gets maxSignal;
  (if mx <? 2200 then modify (set_maxSignal 2200) else skip).

(** The update of the envelope in [loop]. *)
Definition updateMinMax : M State unit :=
  widenMinMax;;
  driftMinMax.

(** "Store sample", after the time of the tick is noted. *)
Definition storeSample (now : Z) : M State unit :=
  modify (set_lastDrawTime now);;
  x ← gets waveformIndex; cs ← gets currentSignal;
  modify (fun st => set_waveformBuffer (buffer_set x cs (waveformBuffer st)) st).

(** The body of the render tick. *)
Definition renderTick (now : Z) : M State unit :=
  storeSample now;;
  updateMinMax;;
  drawWaveformColumn;;
  x ← gets waveformIndex;
  modify (set_waveformIndex (irem (iadd x 1) SCREEN_WIDTH));;
  cs ← gets currentSignal;
  drawSignal cs.

(** The blocks of [loop], in the order of the source. *)

(** "Check for beat": [if (pulseSensor.sawStartOfBeat()) { ... }] *)
Definition beatStage (i : Inputs) : M State unit :=
  match in_beat i with
  | Some (bpm, ibi) => onBeat (in_now_beat i) bpm ibi
  | None => skip
  end.

(** "Update waveform at interval":
    [if (millis() - lastDrawTime >= WAVEFORM_SPEED) { ... }] *)
Definition renderStage (i : Inputs) : M State unit :=
  last ← gets lastDrawTime;
  if usub (in_now_draw i) last >=? WAVEFORM_SPEED then
    renderTick (in_now_drawn i)
  else skip.

(** "Heart fade": [if (beatFlashActive && millis() - lastBeatTime > 100) { ... }] *)
Definition flashStage (now : Z) : M State unit :=
  flash ← gets beatFlashActive; last ← gets lastBeatTime;
  if flash && (usub now last >? 100) then
    modify (set_beatFlashActive false);;
    drawHeart COLOR_HEART_DIM
  else skip.

Definition loop (i : Inputs) : M State unit :=
  modify (set_currentSignal (in_sample i));;
  beatStage i;;
  renderStage i;;
  flashStage (in_now_flash i);;
  updateRgbLed (in_now_led i) (in_now_led_set i);;
  checkFingerTimeout (in_now_timeout i).

(** The sketch after [setup] and some iterations of [loop]. *)
Definition run (ins : list Inputs) (st : State) : State :=
  foldl (fun s i => exec (loop i) s) st ins.

Definition booted (sensor_ok : bool) (now : Z) : State := exec (setup sensor_ok now) init.

(** ** Observations used in the statements *)

(** The render tick is due in this iteration. *)
Definition renders (i : Inputs) (st : State) : bool :=
  usub (in_now_draw i) (lastDrawTime st) >=? WAVEFORM_SPEED.

(** More than the timeout has passed since the last beat. *)
Definition timed_out (i : Inputs) (st : State) : bool :=
  usub (in_now_timeout i) (lastBeatTime st) >? NO_BEAT_TIMEOUT.

Definition no_beat (i : Inputs) : Prop := in_beat i = None.

(** The buffer indices written by the iterations [ins], in order. *)
Fixpoint writes (ins : list Inputs) (st : State) : list Z :=
  match ins with
  | [] => []
  | i :: rest =>
      (if renders i st then [waveformIndex st] else []) ++ writes rest (exec (loop i) st)
  end.

(** How often the presence goes from present to absent over [ins]. *)
Fixpoint transitions (ins : list Inputs) (st : State) : nat :=
  match ins with
  | [] => 0%nat
  | i :: rest =>
      ((if fingerPresent st && negb (fingerPresent (exec (loop i) st)) then 1 else 0)
       + transitions rest (exec (loop i) st))%nat
  end.

(** The state in which [drawWaveformColumn] is called by the render tick of
    the iteration [i] started in [st]. *)
Definition at_draw (i : Inputs) (st : State) : State :=
  exec updateMinMax
    (exec (storeSample (in_now_drawn i))
       (exec (beatStage i) (set_currentSignal (in_sample i) st))).

(** The line written to the serial port for a beat. *)
Definition beat_line (bpm ibi : Z) : string :=
  "BPM: " +:+ dec bpm +:+ " | IBI: " +:+ dec ibi +:+ CRLF.

(** The line written to the serial port when the finger is gone. *)
Definition waiting_line : string := "Waiting for finger..." +:+ CRLF.

(** Example inputs: a quiet iteration at clock reading [t] with sample [s]. *)
Definition quiet_at (t s : Z) : Inputs :=
  {| in_sample := s; in_beat := None; in_now_beat := t; in_now_draw := t;
     in_now_drawn := t; in_now_flash := t; in_now_led := t; in_now_led_set := t;
     in_now_timeout := t |}.

(** Example inputs: an iteration at [t] in which a beat is seen. *)
Definition beat_at (t s bpm ibi : Z) : Inputs :=
  {| in_sample := s; in_beat := Some (bpm, ibi); in_now_beat := t; in_now_draw := t;
     in_now_drawn := t; in_now_flash := t; in_now_led := t; in_now_led_set := t;
     in_now_timeout := t |}.

End CYD.

(** * Vocabulary of the statements *)

(** The value a computation returns. *)
Definition val {S A} (m : M S A) (s : S) : A := fst (fst (m s)).

(** [m] leaves the observation [f] of the state as it was. *)
Definition preserves {S A B} (f : S -> B) (m : M S A) : Prop :=
  forall s, f (exec m s) = f s.

(** [m] makes no call selected by [p]. *)
Definition quiet {S A} (p : Event -> bool) (m : M S A) : Prop :=
  forall s, Forall (fun e => p e = false) (calls m s).

(** The texts written to the serial port, one per call. *)
Definition serial_writes (evs : list Event) : list string :=
  omap (fun e => match e with SerialWrite t => Some t | _ => None end) evs.

(** Everything written to the serial port, as one text. *)
Definition serial_output (evs : list Event) : string :=
  foldr String.append EmptyString (serial_writes evs).

(** The status record of the interface: [signal,bpm,ibi,beatFlag] with
    [beatFlag] 1, on a line of its own. *)
Definition status_record (signal bpm ibi : Z) : string :=
  dec signal +:+ "," +:+ dec bpm +:+ "," +:+ dec ibi +:+ ",1" +:+ LF.

(** The floor of the span the renderer scales by. *)
Definition minimumSpan : Z := 100.

Definition is_status_record (text : string) : Prop :=
  exists signal bpm ibi, text = status_record signal bpm ibi.

(** ** Further observations *)

(** The duties written to the LED channels of the Dashboard sketch, as
    (pin, duty), in order. *)
Definition ledc_writes (evs : list Event) : list (Z * Z) :=
  omap (fun e => match e with LedcWrite pin duty => Some (pin, duty) | _ => None end) evs.

(** The values written with [analogWrite], as (pin, value), in order. *)
Definition analog_writes (evs : list Event) : list (Z * Z) :=
  omap (fun e => match e with AnalogWrite pin v => Some (pin, v) | _ => None end) evs.

(** The colours the parts of the heart are painted in, in order. *)
Definition heart_colors (evs : list Event) : list Z :=
  omap (fun e => match e with
                 | TftFillCircle _ _ _ c | TftFillTriangle _ _ _ _ _ _ c => Some c
                 | _ => None
                 end) evs.

(** The calls that paint in the waveform area: the columns cleared or
    marked, and the pixels and line segments of the trace, in order. *)
Definition trace_calls (evs : list Event) : list Event :=
  omap (fun e => match e with
                 | TftDrawFastVLine _ _ _ _ | TftDrawPixel _ _ _ | TftDrawLine _ _ _ _ _ =>
                     Some e
                 | _ => None
                 end) evs.

(** The texts put on the screen, in order. *)
Definition screen_texts (evs : list Event) : list string :=
  omap (fun e => match e with
                 | TftPrintStr t | TftDrawString t _ _ _ => Some t
                 | _ => None
                 end) evs.

(** The state in which [drawWaveformColumn] is called by the render tick of
    the iteration [i] of the Dashboard sketch started in [st]: the time of the
    tick is noted, the sample stored and the envelope updated. *)
Definition dashboard_at_draw (i : Part000.Inputs) (st : Part000.State) : Part000.State :=
  let s4 :=
    exec (Part000.checkFingerTimeout (Part000.in_now_timeout i))
      (exec (Part000.updateLED (Part000.in_now_led i))
         (exec (Part000.flashStage (Part000.in_now i))
            (exec (Part000.beatStage i)
               (Part000.set_currentSignal (Part000.in_sample i) st)))) in
  exec (Part000.updateMinMax (Part000.in_now_decay i))
    (Part000.set_waveformBuffer
       (Part000.buffer_set (Part000.waveformX s4) (Part000.currentSignal s4)
          (Part000.waveformBuffer s4))
       (Part000.set_lastDrawTime (Part000.in_now i) s4)).

(** The screen coordinates a call of the waveform renderer touches lie in
    the columns [x0, x1] and the rows [y0, y1]. *)
Definition within (x0 x1 y0 y1 : Z) (e : Event) : Prop :=
  match e with
  | TftDrawPixel x y _ => x0 <= x <= x1 /\ y0 <= y <= y1
  | TftDrawLine xa ya xb yb _ =>
      x0 <= xa <= x1 /\ x0 <= xb <= x1 /\ y0 <= ya <= y1 /\ y0 <= yb <= y1
  | TftDrawFastVLine x y h _ => x0 <= x <= x1 /\ y0 <= y /\ y + h - 1 <= y1
  | _ => True
  end.

(** The fade steps the LED of the Dashboard sketch is due over [ins]: the
    iterations in which [updateLED] finds 10 ms passed. *)
Fixpoint dashboard_fade_ticks (ins : list Part000.Inputs) (st : Part000.State) : Z :=
  match ins with
  | [] => 0
  | i :: rest =>
      (if usub (Part000.in_now_led i) (Part000.lastLedUpdate st) >=? 10 then 1 else 0)
      + dashboard_fade_ticks rest (exec (Part000.loop i) st)
  end.

(** The fade steps [updateRgbLed] takes over [ins]: the iterations in which
    the LED is lit and more than 10 ms have passed. *)
Fixpoint cyd_fade_ticks (ins : list CYD.Inputs) (st : CYD.State) : Z :=
  match ins with
  | [] => 0
  | i :: rest =>
      (if (CYD.ledFadeValue st >? 0) &&
          (usub (CYD.in_now_led i) (CYD.lastLedUpdate st) >? 10) then 1 else 0)
      + cyd_fade_ticks rest (exec (CYD.loop i) st)
  end.

(** Nothing is due in the iteration [i] of the Dashboard sketch started in
    [st]: no beat, no end of the heart flash, no fade step, no timeout, no
    render tick. *)
Definition dashboard_idle (i : Part000.Inputs) (st : Part000.State) : bool :=
  match Part000.in_beat i with Some _ => false | None => true end &&
  negb (Part000.beatFlashActive st &&
        (usub (Part000.in_now i) (Part000.lastBeatTime st) >? 150)) &&
  negb ((usub (Part000.in_now_led i) (Part000.lastLedUpdate st) >=? 10) &&
        (Part000.ledBrightness st >? 0)) &&
  negb (Part000.fingerPresent st && Part000.timed_out i st) &&
  negb (Part000.renders i st).

(** The same for [PulseSensor_CYD.ino]. *)
Definition cyd_idle (i : CYD.Inputs) (st : CYD.State) : bool :=
  match CYD.in_beat i with Some _ => false | None => true end &&
  negb (CYD.renders i st) &&
  negb (CYD.beatFlashActive st &&
        (usub (CYD.in_now_flash i) (CYD.lastBeatTime st) >? 100)) &&
  negb ((CYD.ledFadeValue st >? 0) &&
        (usub (CYD.in_now_led i) (CYD.lastLedUpdate st) >? 10)) &&
  negb (CYD.fingerPresent st && CYD.timed_out i st).

(** Example inputs: quiet iterations, one every [step] ms from [t] on, all
    with sample [s]. *)
Definition dashboard_quiet_run (t step s : Z) (n : nat) : list Part000.Inputs :=
  (fun k => Part000.quiet_at (t + step * Z.of_nat k) s) <$> seq 0 n.

Definition cyd_quiet_run (t step s : Z) (n : nat) : list CYD.Inputs :=
  (fun k => CYD.quiet_at (t + step * Z.of_nat k) s) <$> seq 0 n.

(** All calls made over the iterations [ins], in order. *)
Fixpoint dashboard_run_calls (ins : list Part000.Inputs) (st : Part000.State) : list Event :=
  match ins with
  | [] => []
  | i :: rest => calls (Part000.loop i) st ++ dashboard_run_calls rest (exec (Part000.loop i) st)
  end.

Fixpoint cyd_run_calls (ins : list CYD.Inputs) (st : CYD.State) : list Event :=
  match ins with
  | [] => []
  | i :: rest => calls (CYD.loop i) st ++ cyd_run_calls rest (exec (CYD.loop i) st)
  end.

(** The duty last written to the red channel of the LED of the Dashboard
    sketch, if any was. *)
Definition red_duty (evs : list Event) : option Z :=
  last (omap (fun w : Z * Z => if w.1 =? Part000.LED_RED_PIN then Some w.2 else None)
          (ledc_writes evs)).

(** The numbers on display follow the presence of the finger.  Dashboard
    sketch: while the finger is present the BPM and IBI on display are the
    current ones; while it is absent the current ones are 0 and the display
    holds what [setup] left (-1) or what the timeout drew (0). *)
Definition dashboard_readouts_follow_presence (st : Part000.State) : Prop :=
  if Part000.fingerPresent st then
    Part000.lastDisplayedBPM st = Part000.currentBPM st /\
    Part000.lastDisplayedIBI st = Part000.currentIBI st
  else
    Part000.currentBPM st = 0 /\ Part000.currentIBI st = 0 /\
    ((Part000.lastDisplayedBPM st = -1 /\ Part000.lastDisplayedIBI st = -1) \/
     (Part000.lastDisplayedBPM st = 0 /\ Part000.lastDisplayedIBI st = 0)).

(** [PulseSensor_CYD.ino]: while the finger is present the BPM and IBI on
    display are the current ones; while it is absent nothing is on display
    (-1). *)
Definition cyd_readouts_follow_presence (st : CYD.State) : Prop :=
  if CYD.fingerPresent st then
    CYD.lastDisplayedBPM st = CYD.currentBPM st /\
    CYD.lastDisplayedIBI st = CYD.currentIBI st
  else CYD.lastDisplayedBPM st = -1 /\ CYD.lastDisplayedIBI st = -1.

(** * Facts about the monad *)

Section MonadFacts.
Context {S : Type}.

Lemma run_bind {A B} (m : M S A) (k : A -> M S B) (s : S) :
  (m ≫= k) s =
  (val (k (val m s)) (exec m s), exec (k (val m s)) (exec m s),
   calls m s ++ calls (k (val m s)) (exec m s)).
Proof.
  unfold mbind, M_bind, val, exec, calls.
  destruct (m s) as [[a s1] e1]; simpl.
  destruct (k a s1) as [[b s2] e2]; reflexivity.
Qed.

Lemma exec_bind {A B} (m : M S A) (k : A -> M S B) s :
  exec (m ≫= k) s = exec (k (val m s)) (exec m s).
Proof. unfold exec at 1. rewrite run_bind. reflexivity. Qed.

Lemma calls_bind {A B} (m : M S A) (k : A -> M S B) s :
  calls (m ≫= k) s = calls m s ++ calls (k (val m s)) (exec m s).
Proof. unfold calls at 1. rewrite run_bind. reflexivity. Qed.

Lemma exec_gets {A} (f : S -> A) s : exec (gets f) s = s.
Proof. reflexivity. Qed.
Lemma val_gets {A} (f : S -> A) s : val (gets f) s = f s.
Proof. reflexivity. Qed.
Lemma calls_gets {A} (f : S -> A) s : calls (gets f) s = [].
Proof. reflexivity. Qed.
Lemma exec_modify (f : S -> S) s : exec (modify f) s = f s.
Proof. reflexivity. Qed.
Lemma calls_modify (f : S -> S) s : calls (modify f) s = [].
Proof. reflexivity. Qed.
Lemma exec_emit e (s : S) : exec (emit e) s = s.
Proof. reflexivity. Qed.
Lemma calls_emit e (s : S) : calls (emit e) s = [e].
Proof. reflexivity. Qed.
Lemma exec_skip (s : S) : exec skip s = s.
Proof. reflexivity. Qed.
Lemma calls_skip (s : S) : calls (@skip S) s = [].
Proof. reflexivity. Qed.

Lemma exec_if {A} (b : bool) (m1 m2 : M S A) s :
  exec (if b then m1 else m2) s = if b then exec m1 s else exec m2 s.
Proof. destruct b; reflexivity. Qed.
Lemma calls_if {A} (b : bool) (m1 m2 : M S A) s :
  calls (if b then m1 else m2) s = if b then calls m1 s else calls m2 s.
Proof. destruct b; reflexivity. Qed.

(** Frame rules. *)

Lemma preserves_bind {A B C} (f : S -> C) (m : M S A) (k : A -> M S B) :
  preserves f m -> (forall a, preserves f (k a)) -> preserves f (m ≫= k).
Proof. intros Hm Hk s. rewrite exec_bind, Hk. apply Hm. Qed.

Lemma preserves_gets {A C} (f : S -> C) (g : S -> A) : preserves f (gets g).
Proof. intros s; reflexivity. Qed.
Lemma preserves_emit {C} (f : S -> C) e : preserves f (emit e).
Proof. intros s; reflexivity. Qed.
Lemma preserves_skip {C} (f : S -> C) : preserves f skip.
Proof. intros s; reflexivity. Qed.
Lemma preserves_modify {C} (f : S -> C) (g : S -> S) :
  (forall s, f (g s) = f s) -> preserves f (modify g).
Proof. intros H s; apply H. Qed.
Lemma preserves_if {A C} (f : S -> C) (b : bool) (m1 m2 : M S A) :
  preserves f m1 -> preserves f m2 -> preserves f (if b then m1 else m2).
Proof. destruct b; auto. Qed.
Lemma preserves_for_each {C} (f : S -> C) ts (body : Z -> M S unit) :
  (forall t, preserves f (body t)) -> preserves f (for_each ts body).
Proof.
  intros H; induction ts as [|t ts IH]; simpl.
  - apply preserves_skip.
  - apply preserves_bind; auto.
Qed.

(** Rules for calls that are not made. *)

Lemma quiet_bind {A B} p (m : M S A) (k : A -> M S B) :
  quiet p m -> (forall a, quiet p (k a)) -> quiet p (m ≫= k).
Proof. intros Hm Hk s. rewrite calls_bind. apply Forall_app; split; [apply Hm | apply Hk]. Qed.

Lemma quiet_gets {A} p (g : S -> A) : quiet p (gets g).
Proof. intros s; constructor. Qed.
Lemma quiet_modify p (g : S -> S) : quiet p (modify g).
Proof. intros s; constructor. Qed.
Lemma quiet_skip p : quiet p (@skip S).
Proof. intros s; constructor. Qed.
Lemma quiet_emit p e : p e = false -> quiet p (@emit S e).
Proof. intros H s; repeat constructor; exact H. Qed.
Lemma quiet_if {A} p (b : bool) (m1 m2 : M S A) :
  quiet p m1 -> quiet p m2 -> quiet p (if b then m1 else m2).
Proof. destruct b; auto. Qed.
Lemma quiet_for_each p ts (body : Z -> M S unit) :
  (forall t, quiet p (body t)) -> quiet p (for_each ts body).
Proof.
  intros H; induction ts as [|t ts IH]; simpl.
  - apply quiet_skip.
  - apply quiet_bind; auto.
Qed.

End MonadFacts.

Ltac frame_step :=
  first
    [ apply preserves_emit | apply preserves_gets | apply preserves_skip
    | apply preserves_for_each; intros ?
    | apply preserves_if
    | apply preserves_bind; [ | intros ? ]
    | apply preserves_modify; intros ?; reflexivity
    | apply quiet_gets | apply quiet_modify | apply quiet_skip
    | apply quiet_emit; reflexivity
    | apply quiet_for_each; intros ?
    | apply quiet_if
    | apply quiet_bind; [ | intros ? ]
    | match goal with
      | |- preserves _ (match ?x with _ => _ end) => destruct x
      | |- quiet _ (match ?x with _ => _ end) => destruct x
      end ].

Lemma wrap32_id z : INT_MIN <= z <= INT_MAX -> wrap32 z = z.
Proof.
  unfold INT_MIN, INT_MAX, wrap32; intros H.
  rewrite Z.mod_small by lia. lia.
Qed.

Lemma wrap32_range z : INT_MIN <= wrap32 z <= INT_MAX.
Proof.
  unfold INT_MIN, INT_MAX, wrap32.
  pose proof (Z.mod_pos_bound (z + 2 ^ 31) (2 ^ 32) ltac:(lia)). lia.
Qed.

Lemma serial_writes_app a b : serial_writes (a ++ b) = serial_writes a ++ serial_writes b.
Proof. apply omap_app. Qed.

Lemma str_app_cons c a b : String c a +:+ b = String c (a +:+ b).
Proof. reflexivity. Qed.

Lemma ends_with_flag_record a : ends_with_flag (a +:+ ",1" +:+ LF) = true.
Proof.
  induction a as [|c a IH]; [reflexivity|].
  rewrite str_app_cons. cbn [ends_with_flag].
  case_match; [reflexivity | exact IH].
Qed.

Lemma ends_with_flag_crlf a : ends_with_flag (a +:+ CRLF) = false.
Proof.
  induction a as [|c a IH]; [reflexivity|].
  rewrite str_app_cons. cbn [ends_with_flag].
  replace (String.eqb (a +:+ CRLF) LF) with false.
  - rewrite andb_false_r. exact IH.
  - symmetry. apply String.eqb_neq. destruct a as [|c' a]; [discriminate|].
    rewrite str_app_cons. unfold LF. intros [= _ H]. destruct a; discriminate.
Qed.

Lemma str_app_assoc (a b c : string) : (a +:+ b) +:+ c = a +:+ b +:+ c.
Proof.
  induction a as [|x a IH]; [reflexivity|].
  rewrite !str_app_cons, IH. reflexivity.
Qed.

Lemma str_app_nil_r (a : string) : a +:+ "" = a.
Proof.
  induction a as [|x a IH]; [reflexivity|]. rewrite str_app_cons, IH. reflexivity.
Qed.

Lemma status_record_flag text : is_status_record text -> ends_with_flag text = true.
Proof.
  intros (a & b & c & ->). unfold status_record.
  rewrite <- !str_app_assoc. rewrite str_app_assoc.
  apply ends_with_flag_record.
Qed.

Lemma crlf_line_not_record a : ~ is_status_record (a +:+ CRLF).
Proof.
  intros H. apply status_record_flag in H. rewrite ends_with_flag_crlf in H. discriminate.
Qed.

Create Rewrite HintDb msimpl.
#[global] Hint Rewrite @exec_bind @calls_bind @val_gets @exec_gets @calls_gets
  @exec_modify @calls_modify @exec_emit @calls_emit @exec_skip @calls_skip
  @exec_if @calls_if : msimpl.

(** Runs a computation symbolically, down to the named functions in it. *)
Ltac msimpl := repeat (progress (autorewrite with msimpl; cbn beta)).

Lemma quiet_all_nil {S A} (m : M S A) :
  quiet (fun _ => true) m -> forall s, calls m s = [].
Proof.
  intros H s. specialize (H s). destruct (calls m s) as [|e l]; [reflexivity|].
  inversion H; discriminate.
Qed.

Lemma quiet_serial_writes {S A} (m : M S A) s :
  quiet (fun e => match e with SerialWrite _ => true | _ => false end) m ->
  serial_writes (calls m s) = [].
Proof.
  intros H. specialize (H s). unfold serial_writes.
  induction H as [|e l He _ IH]; [reflexivity|].
  destruct e; try discriminate; simpl; exact IH.
Qed.

(** * Facts about the Dashboard sketch *)

Module Part000Facts.
Import Part000.

Ltac proj :=
  cbn [waveformBuffer waveformX minSignal maxSignal lastDrawTime lastBeatTime lastLedUpdate
    beatFlashActive fingerPresent ledBrightness currentBPM currentSignal currentIBI
    lastDisplayedBPM lastDisplayedSignal lastDisplayedIBI lastDecay set_waveformBuffer
    set_waveformX set_minSignal set_maxSignal set_lastDrawTime set_lastBeatTime
    set_lastLedUpdate set_beatFlashActive set_fingerPresent set_ledBrightness set_currentBPM
    set_currentSignal set_currentIBI set_lastDisplayedBPM set_lastDisplayedSignal
    set_lastDisplayedIBI set_lastDecay] in *.

Ltac unfold_sketch :=
  unfold loop, renderStage, flashStage, beatStage, renderTick, refreshSignal, onBeat,
    checkFingerTimeout, updateMinMax, widenMinMax, decayMinMax, drawWaveformColumn,
    drawBeatIndicator, drawHeart, drawIBI, drawSignal, drawBPM, updateLED, flashLED, setLED.

Ltac frame := intros; unfold_sketch; repeat frame_step.

Ltac is_field f :=
  lazymatch f with
  | waveformBuffer => idtac | waveformX => idtac | minSignal => idtac
  | maxSignal => idtac | lastDrawTime => idtac | lastBeatTime => idtac
  | lastLedUpdate => idtac | beatFlashActive => idtac | fingerPresent => idtac
  | ledBrightness => idtac | currentBPM => idtac | currentSignal => idtac
  | currentIBI => idtac | lastDisplayedBPM => idtac | lastDisplayedSignal => idtac
  | lastDisplayedIBI => idtac | lastDecay => idtac
  end.

(** Rewrites [f (exec m s)] to [f s] wherever [m] leaves the field [f] alone. *)
Ltac frame_out :=
  repeat match goal with
  | |- context [?f (exec ?m ?s)] =>
      is_field f;
      let H := fresh "Hframe" in
      assert (H : preserves f m) by (solve [frame]);
      rewrite (H s); clear H
  end.

Ltac tidy := repeat first [ progress proj | progress frame_out ].

Lemma exec_loop i st :
  exec (loop i) st =
  exec (renderStage i)
    (exec (checkFingerTimeout (in_now_timeout i))
       (exec (updateLED (in_now_led i))
          (exec (flashStage (in_now i))
             (exec (beatStage i) (set_currentSignal (in_sample i) st))))).
Proof. unfold loop. msimpl. reflexivity. Qed.

Lemma calls_loop i st :
  let s0 := set_currentSignal (in_sample i) st in
  let s1 := exec (beatStage i) s0 in
  let s2 := exec (flashStage (in_now i)) s1 in
  let s3 := exec (updateLED (in_now_led i)) s2 in
  let s4 := exec (checkFingerTimeout (in_now_timeout i)) s3 in
  calls (loop i) st =
  calls (beatStage i) s0 ++ calls (flashStage (in_now i)) s1 ++
  calls (updateLED (in_now_led i)) s2 ++
  calls (checkFingerTimeout (in_now_timeout i)) s3 ++ calls (renderStage i) s4.
Proof. unfold loop. msimpl. reflexivity. Qed.

Lemma beatStage_none i st : in_beat i = None -> exec (beatStage i) st = st.
Proof. unfold beatStage; intros ->; reflexivity. Qed.

(** *** The envelope *)

Lemma widenMinMax_spec s :
  let s1 := exec widenMinMax s in
  minSignal s1 = Arduino.min (minSignal s) (currentSignal s) /\
  maxSignal s1 = Arduino.max (maxSignal s) (currentSignal s).
Proof. unfold widenMinMax; msimpl; split; reflexivity. Qed.

Lemma decayMinMax_spec now s :
  let s1 := exec (decayMinMax now) s in
  if usub now (lastDecay s) >? 100 then
    minSignal s1 = Arduino.min (iadd (minSignal s) 5) 2048 /\
    maxSignal s1 = Arduino.max (isub (maxSignal s) 5) 2048
  else s1 = s.
Proof.
  unfold decayMinMax; msimpl.
  destruct (usub now (lastDecay s) >? 100); msimpl; [split|]; reflexivity.
Qed.

Lemma updateMinMax_spec now s :
  let s1 := exec (updateMinMax now) s in
  minSignal s1 <= currentSignal s <= maxSignal s1.
Proof.
  unfold updateMinMax; msimpl.
  destruct (widenMinMax_spec (exec (decayMinMax now) s)) as [-> ->].
  frame_out.
  unfold Arduino.min, Arduino.max.
  repeat case_match; lia.
Qed.

Lemma range_floor s : 100 <= range s.
Proof. unfold range, Arduino.max. case_match; lia. Qed.

Lemma renderStage_spec i s :
  exec (renderStage i) s =
  if renders i s then exec (renderTick (in_now i) (in_now_decay i)) s else s.
Proof. unfold renderStage, renders; msimpl. reflexivity. Qed.

Lemma renders_loop i st :
  renders i (exec (checkFingerTimeout (in_now_timeout i))
       (exec (updateLED (in_now_led i))
          (exec (flashStage (in_now i))
             (exec (beatStage i) (set_currentSignal (in_sample i) st))))) = renders i st.
Proof. unfold renders. frame_out. reflexivity. Qed.

(** *** The cursor and the buffer *)

Lemma renderTick_cursor now d s :
  0 <= waveformX s < SCREEN_WIDTH ->
  waveformX (exec (renderTick now d) s) = (waveformX s + 1) mod SCREEN_WIDTH.
Proof.
  intros Hx.
  unfold renderTick; msimpl. frame_out. proj.
  unfold SCREEN_WIDTH in *. unfold iadd. rewrite wrap32_id by (unfold INT_MIN, INT_MAX; lia).
  destruct (Z.geb_spec (waveformX s + 1) 320) as [Hge|Hlt]; proj.
  - assert (waveformX s + 1 = 320) as -> by lia. reflexivity.
  - rewrite Z.mod_small by lia. reflexivity.
Qed.

Lemma renderTick_buffer now d s :
  waveformBuffer (exec (renderTick now d) s) =
  buffer_set (waveformX s) (currentSignal s) (waveformBuffer s).
Proof. unfold renderTick; msimpl. case_match; tidy; reflexivity. Qed.

Lemma loop_cursor i st :
  0 <= waveformX st < SCREEN_WIDTH ->
  waveformX (exec (loop i) st) =
  if renders i st then (waveformX st + 1) mod SCREEN_WIDTH else waveformX st.
Proof.
  intros Hx. rewrite exec_loop, renderStage_spec, renders_loop.
  destruct (renders i st).
  - rewrite renderTick_cursor; frame_out; proj; auto.
  - frame_out. reflexivity.
Qed.

Lemma loop_buffer i st :
  waveformBuffer (exec (loop i) st) =
  if renders i st then buffer_set (waveformX st) (in_sample i) (waveformBuffer st)
  else waveformBuffer st.
Proof.
  rewrite exec_loop, renderStage_spec, renders_loop.
  destruct (renders i st).
  - rewrite renderTick_buffer; frame_out; proj. reflexivity.
  - frame_out. reflexivity.
Qed.

Lemma loop_cursor_range i st :
  0 <= waveformX st < SCREEN_WIDTH -> 0 <= waveformX (exec (loop i) st) < SCREEN_WIDTH.
Proof.
  intros Hx. rewrite loop_cursor by assumption.
  destruct (renders i st); [|assumption].
  apply Z.mod_pos_bound. reflexivity.
Qed.

Lemma booted_cursor ok : waveformX (booted ok) = 0.
Proof. destruct ok; vm_compute; reflexivity. Qed.

Lemma run_cursor_range ins st :
  0 <= waveformX st < SCREEN_WIDTH -> 0 <= waveformX (run ins st) < SCREEN_WIDTH.
Proof.
  revert st; induction ins as [|i ins IH]; intros st Hx; [exact Hx|].
  apply IH, loop_cursor_range, Hx.
Qed.

Lemma writes_lookup ins st k a :
  0 <= waveformX st < SCREEN_WIDTH ->
  writes ins st !! k = Some a ->
  a = (waveformX st + Z.of_nat k) mod SCREEN_WIDTH.
Proof.
  revert st k; induction ins as [|i ins IH]; intros st k Hx Hk; [discriminate|].
  simpl in Hk.
  pose proof (loop_cursor i st Hx) as Hc.
  pose proof (loop_cursor_range i st Hx) as Hr.
  destruct (renders i st).
  - destruct k as [|k]; simpl in Hk.
    + injection Hk as <-. rewrite Z.add_0_r, Z.mod_small; auto.
    + apply IH in Hk; [|assumption]. rewrite Hk, Hc.
      rewrite Zplus_mod_idemp_l. f_equal. lia.
  - simpl in Hk. apply IH in Hk; [|assumption]. rewrite Hk, Hc. reflexivity.
Qed.

Lemma mod_shift_distinct x j k :
  (j < k < j + 320)%nat -> (x + Z.of_nat j) mod 320 <> (x + Z.of_nat k) mod 320.
Proof.
  intros Hjk Heq.
  assert (H : ((x + Z.of_nat k) - (x + Z.of_nat j)) mod 320 = 0).
  { rewrite Zminus_mod, Heq, Z.sub_diag. reflexivity. }
  replace (x + Z.of_nat k - (x + Z.of_nat j)) with (Z.of_nat k - Z.of_nat j) in H by lia.
  rewrite Z.mod_small in H by lia. lia.
Qed.

(** *** The LED *)

Lemma flashLED_brightness s : ledBrightness (exec flashLED s) = LED_MAX_BRIGHTNESS.
Proof. unfold flashLED, setLED; msimpl. reflexivity. Qed.

Lemma onBeat_brightness now bpm ibi s :
  ledBrightness (exec (onBeat now bpm ibi) s) = LED_MAX_BRIGHTNESS.
Proof.
  unfold onBeat; msimpl. repeat case_match; msimpl; tidy; apply flashLED_brightness.
Qed.

Lemma flashLED_calls s :
  calls flashLED s =
  [LedcWrite LED_RED_PIN 0; LedcWrite LED_GREEN_PIN 255; LedcWrite LED_BLUE_PIN 255].
Proof. reflexivity. Qed.

Lemma updateLED_brightness now st :
  ledBrightness (exec (updateLED now) st) =
  if (usub now (lastLedUpdate st) >=? 10) && (ledBrightness st >? 0) then
    let b := isub (ledBrightness st) LED_FADE_SPEED in if b <? 0 then 0 else b
  else ledBrightness st.
Proof.
  unfold updateLED, setLED. msimpl.
  destruct (usub now (lastLedUpdate st) >=? 10); cbn [andb]; [|reflexivity].
  proj. destruct (ledBrightness st >? 0); [|reflexivity].
  case_match; reflexivity.
Qed.

Lemma fade_step_le b step :
  0 < b -> 0 <= step <= 255 ->
  (let v := isub b step in if v <? 0 then 0 else v) <= b.
Proof.
  intros Hb Hs; cbn zeta. unfold isub.
  destruct (Z.ltb_spec (wrap32 (b - step)) 0); [lia|].
  destruct (Z_le_gt_dec (b - step) INT_MAX) as [Hle|Hgt].
  - rewrite wrap32_id by (unfold INT_MIN, INT_MAX in *; lia). lia.
  - pose proof (wrap32_range (b - step)). lia.
Qed.

Lemma fade_step_exact b step :
  0 < b <= 255 -> 0 <= step <= 255 ->
  (let v := isub b step in if v <? 0 then 0 else v) = Z.max 0 (b - step).
Proof.
  intros Hb Hs; cbn zeta. unfold isub.
  rewrite wrap32_id by (unfold INT_MIN, INT_MAX; lia).
  destruct (Z.ltb_spec (b - step) 0); lia.
Qed.

Lemma loop_brightness_no_beat i st :
  in_beat i = None ->
  ledBrightness (exec (loop i) st) = ledBrightness (exec (updateLED (in_now_led i)) st).
Proof.
  intros Hb. rewrite exec_loop. frame_out.
  rewrite !updateLED_brightness. frame_out. rewrite beatStage_none by assumption.
  reflexivity.
Qed.

Lemma updateLED_le now st :
  ledBrightness (exec (updateLED now) st) <= ledBrightness st.
Proof.
  rewrite updateLED_brightness.
  destruct (usub now (lastLedUpdate st) >=? 10); cbn [andb]; [|lia].
  destruct (Z.gtb_spec (ledBrightness st) 0); [|lia].
  apply fade_step_le; [lia | unfold LED_FADE_SPEED; lia].
Qed.

Lemma updateLED_range now st :
  0 <= ledBrightness st <= 255 -> 0 <= ledBrightness (exec (updateLED now) st) <= 255.
Proof.
  intros H. pose proof (updateLED_le now st). split; [|lia].
  rewrite updateLED_brightness.
  destruct ((usub now (lastLedUpdate st) >=? 10) && (ledBrightness st >? 0)); [|lia].
  cbn zeta. case_match; [lia|]. apply Z.ltb_ge; assumption.
Qed.

Lemma loop_brightness_beat i st bpm ibi :
  in_beat i = Some (bpm, ibi) ->
  ledBrightness (exec (loop i) st) =
  if usub (in_now_led i) (lastLedUpdate st) >=? 10
  then LED_MAX_BRIGHTNESS - LED_FADE_SPEED else LED_MAX_BRIGHTNESS.
Proof.
  intros Hb. rewrite exec_loop. frame_out.
  rewrite updateLED_brightness. frame_out.
  unfold beatStage; rewrite Hb. rewrite onBeat_brightness. proj.
  destruct (usub (in_now_led i) (lastLedUpdate st) >=? 10); reflexivity.
Qed.

Lemma loop_brightness_range i st :
  0 <= ledBrightness st <= 255 -> 0 <= ledBrightness (exec (loop i) st) <= 255.
Proof.
  intros H. destruct (in_beat i) as [[bpm ibi]|] eqn:Hb.
  - rewrite (loop_brightness_beat _ _ _ _ Hb). case_match; vm_compute; split; congruence.
  - rewrite (loop_brightness_no_beat _ _ Hb). apply updateLED_range, H.
Qed.

(** *** Presence *)

Lemma checkFingerTimeout_spec now s :
  let s1 := exec (checkFingerTimeout now) s in
  if fingerPresent s && (usub now (lastBeatTime s) >? NO_BEAT_TIMEOUT) then
    fingerPresent s1 = false /\ currentBPM s1 = 0 /\ currentIBI s1 = 0 /\
    lastDisplayedBPM s1 = 0 /\ lastDisplayedIBI s1 = 0
  else s1 = s.
Proof.
  unfold checkFingerTimeout; msimpl.
  destruct (fingerPresent s && (usub now (lastBeatTime s) >? NO_BEAT_TIMEOUT)); [|reflexivity].
  msimpl. proj.
  destruct (Z.eqb_spec (lastDisplayedBPM s) 0) as [E1|E1];
  destruct (Z.eqb_spec (lastDisplayedIBI s) 0) as [E2|E2];
    cbn [negb]; msimpl; tidy; repeat split; try reflexivity;
    try (rewrite Z.eqb_refl || rewrite (proj2 (Z.eqb_eq _ _) E2) ||
         rewrite (proj2 (Z.eqb_neq _ _) E2)); cbn [negb]; tidy; auto.
Qed.

Lemma checkFingerTimeout_calls now s :
  calls (checkFingerTimeout now) s =
  if fingerPresent s && (usub now (lastBeatTime s) >? NO_BEAT_TIMEOUT) then
    (if negb (lastDisplayedBPM s =? 0) then calls (drawBPM 0) s else []) ++
    (if negb (lastDisplayedIBI s =? 0) then calls (drawIBI 0) s else []) ++
    [SerialWrite no_finger_line]
  else [].
Proof.
  unfold checkFingerTimeout; msimpl.
  destruct (fingerPresent s && (usub now (lastBeatTime s) >? NO_BEAT_TIMEOUT)); [|reflexivity].
  msimpl. proj.
  destruct (lastDisplayedBPM s =? 0); cbn [negb]; msimpl; tidy;
    destruct (lastDisplayedIBI s =? 0); cbn [negb]; msimpl; reflexivity.
Qed.

Lemma loop_presence_no_beat i st :
  in_beat i = None ->
  let st' := exec (loop i) st in
  lastBeatTime st' = lastBeatTime st /\
  if fingerPresent st && timed_out i st then
    fingerPresent st' = false /\ currentBPM st' = 0 /\ currentIBI st' = 0 /\
    lastDisplayedBPM st' = 0 /\ lastDisplayedIBI st' = 0
  else fingerPresent st' = fingerPresent st.
Proof.
  intros Hb; cbn zeta. rewrite exec_loop, beatStage_none by assumption.
  set (s3 := exec (updateLED _) _).
  assert (Hfp : fingerPresent s3 = fingerPresent st) by (subst s3; tidy; reflexivity).
  assert (Hlb : lastBeatTime s3 = lastBeatTime st) by (subst s3; tidy; reflexivity).
  pose proof (checkFingerTimeout_spec (in_now_timeout i) s3) as H; cbn zeta in H.
  rewrite Hfp, Hlb in H. unfold timed_out.
  set (s4 := exec (checkFingerTimeout _) s3) in *.
  assert (Hr : lastBeatTime (exec (renderStage i) s4) = lastBeatTime s4
               /\ fingerPresent (exec (renderStage i) s4) = fingerPresent s4
               /\ currentBPM (exec (renderStage i) s4) = currentBPM s4
               /\ currentIBI (exec (renderStage i) s4) = currentIBI s4
               /\ lastDisplayedBPM (exec (renderStage i) s4) = lastDisplayedBPM s4
               /\ lastDisplayedIBI (exec (renderStage i) s4) = lastDisplayedIBI s4).
  { clearbody s4. repeat split; frame_out; reflexivity. }
  destruct Hr as (-> & -> & -> & -> & -> & ->).
  destruct (fingerPresent st && (usub (in_now_timeout i) (lastBeatTime st) >? NO_BEAT_TIMEOUT)).
  - split; [|exact H]. subst s4. frame_out. exact Hlb.
  - rewrite H. auto.
Qed.

(** *** The signal readout *)

Lemma drawSignal_calls v s :
  calls (drawSignal v) s =
  [TftFillRect SIGNAL_X (BOTTOM_Y + 18) 120 35 COLOR_BG; TftSetTextSize 4;
   TftSetTextColor COLOR_SIGNAL (Some COLOR_BG); TftSetCursor SIGNAL_X (BOTTOM_Y + 20);
   TftPrintInt v].
Proof. reflexivity. Qed.

Lemma refreshSignal_spec s :
  let s1 := exec refreshSignal s in
  if (irem (waveformX s) 10 =? 0) &&
     (Arduino.abs (isub (currentSignal s) (lastDisplayedSignal s)) >? 30)
  then s1 = set_lastDisplayedSignal (currentSignal s) s /\
       calls refreshSignal s = calls (drawSignal (currentSignal s)) s
  else s1 = s /\ calls refreshSignal s = [].
Proof.
  unfold refreshSignal; msimpl.
  destruct (irem (waveformX s) 10 =? 0); cbn [andb]; [|split; reflexivity].
  destruct (Arduino.abs (isub (currentSignal s) (lastDisplayedSignal s)) >? 30);
    msimpl; split; reflexivity.
Qed.

Lemma renderTick_split now d s :
  exists sA sB,
    exec (renderTick now d) s = exec refreshSignal sA /\
    calls (renderTick now d) s = calls drawWaveformColumn sB ++ calls refreshSignal sA /\
    currentSignal sA = currentSignal s /\
    lastDisplayedSignal sA = lastDisplayedSignal s.
Proof.
  unfold renderTick; msimpl.
  eexists; eexists. split; [reflexivity|]. split.
  - rewrite (quiet_all_nil (updateMinMax d)) by frame.
    rewrite !app_nil_l. f_equal. case_match; reflexivity.
  - split; case_match; tidy; reflexivity.
Qed.

Lemma drawWaveformColumn_no_signal : quiet clears_signal drawWaveformColumn.
Proof. frame. Qed.

Lemma renderTick_signal now d s :
  let s1 := exec (renderTick now d) s in
  if (irem (waveformX s1) 10 =? 0) &&
     (Arduino.abs (isub (currentSignal s) (lastDisplayedSignal s)) >? 30)
  then lastDisplayedSignal s1 = currentSignal s /\
       Exists (fun e => clears_signal e = true) (calls (renderTick now d) s)
  else lastDisplayedSignal s1 = lastDisplayedSignal s /\
       Forall (fun e => clears_signal e = false) (calls (renderTick now d) s).
Proof.
  cbn zeta. destruct (renderTick_split now d s) as (sA & sB & -> & -> & Hcs & Hls).
  pose proof (refreshSignal_spec sA) as H; cbn zeta in H.
  assert (Hx : waveformX (exec refreshSignal sA) = waveformX sA) by (frame_out; reflexivity).
  rewrite Hx, <- Hcs, <- Hls.
  destruct (_ && _).
  - destruct H as [-> ->]. split; [reflexivity|].
    apply Exists_app; right. rewrite drawSignal_calls. left. reflexivity.
  - destruct H as [-> ->]. split; [reflexivity|].
    rewrite app_nil_r. apply drawWaveformColumn_no_signal.
Qed.

Lemma stages_no_signal i :
  quiet clears_signal (beatStage i) /\ quiet clears_signal (flashStage (in_now i)) /\
  quiet clears_signal (updateLED (in_now_led i)) /\
  quiet clears_signal (checkFingerTimeout (in_now_timeout i)).
Proof. repeat split; frame. Qed.

Lemma loop_signal i st :
  let st' := exec (loop i) st in
  if renders i st && (irem (waveformX st') 10 =? 0) &&
     (Arduino.abs (isub (in_sample i) (lastDisplayedSignal st)) >? 30)
  then lastDisplayedSignal st' = in_sample i /\
       Exists (fun e => clears_signal e = true) (calls (loop i) st)
  else lastDisplayedSignal st' = lastDisplayedSignal st /\
       Forall (fun e => clears_signal e = false) (calls (loop i) st).
Proof.
  cbn zeta. pose proof (calls_loop i st) as Hc; cbn zeta in Hc. rewrite Hc; clear Hc.
  rewrite exec_loop.
  destruct (stages_no_signal i) as (Q1 & Q2 & Q3 & Q4).
  set (s4 := exec (checkFingerTimeout _) _).
  assert (Hcs : currentSignal s4 = in_sample i).
  { subst s4. tidy. reflexivity. }
  assert (Hls : lastDisplayedSignal s4 = lastDisplayedSignal st).
  { subst s4. tidy. reflexivity. }
  assert (Hr : renders i s4 = renders i st) by apply renders_loop.
  rewrite renderStage_spec.
  assert (Hcalls : calls (renderStage i) s4 =
            if renders i s4 then calls (renderTick (in_now i) (in_now_decay i)) s4 else []).
  { unfold renderStage, renders; msimpl. reflexivity. }
  rewrite Hcalls, Hr.
  destruct (renders i st); cbn [andb].
  - pose proof (renderTick_signal (in_now i) (in_now_decay i) s4) as H; cbn zeta in H.
    rewrite Hcs, Hls in H.
    destruct (_ && _).
    + destruct H as [H1 H2]. split; [exact H1|].
      repeat (apply Exists_app; right). exact H2.
    + destruct H as [H1 H2]. split; [exact H1|].
      repeat (apply Forall_app; split); auto.
  - split; [exact Hls|].
    repeat (apply Forall_app; split); auto.
Qed.

(** *** The numeric fields and the serial port *)

Lemma drawBPM_calls bpm s :
  calls (drawBPM bpm) s =
  [TftFillRect BPM_X (BPM_Y + 20) 150 55 COLOR_BG; TftSetTextSize 7] ++
  if (bpm >? 30) && (bpm <? 220) then
    [TftSetTextColor COLOR_BPM (Some COLOR_BG); TftSetCursor BPM_X (BPM_Y + 20);
     TftPrintInt bpm]
  else
    [TftSetTextColor COLOR_LABEL (Some COLOR_BG); TftSetCursor BPM_X (BPM_Y + 20);
     TftPrintStr "--"].
Proof. unfold drawBPM; msimpl. destruct (_ && _); reflexivity. Qed.

Lemma drawBPM_exec bpm s : exec (drawBPM bpm) s = s.
Proof. unfold drawBPM; msimpl. destruct (_ && _); reflexivity. Qed.

Lemma drawIBI_calls ibi s :
  calls (drawIBI ibi) s =
  [TftFillRect IBI_X (BOTTOM_Y + 18) 140 35 COLOR_BG; TftSetTextSize 4;
   TftSetTextColor COLOR_IBI (Some COLOR_BG); TftSetCursor IBI_X (BOTTOM_Y + 20)] ++
  if ibi >? 0 then [TftPrintInt ibi; TftSetTextSize 2; TftPrintStr "ms"]
  else [TftPrintStr "--"].
Proof. unfold drawIBI; msimpl. destruct (ibi >? 0); reflexivity. Qed.

Lemma drawIBI_exec ibi s : exec (drawIBI ibi) s = s.
Proof. unfold drawIBI; msimpl. destruct (ibi >? 0); reflexivity. Qed.

Lemma drawBeatIndicator_exec active s : exec (drawBeatIndicator active) s = s.
Proof. destruct active; reflexivity. Qed.

Lemma drawBeatIndicator_calls active s s' :
  calls (drawBeatIndicator active) s = calls (drawBeatIndicator active) s'.
Proof. destruct active; reflexivity. Qed.

Lemma onBeat_spec now bpm ibi s :
  let s1 := exec (onBeat now bpm ibi) s in
  currentBPM s1 = bpm /\ currentIBI s1 = ibi /\ lastBeatTime s1 = now /\
  fingerPresent s1 = true /\ lastDisplayedBPM s1 = bpm /\ lastDisplayedIBI s1 = ibi.
Proof.
  cbn zeta. unfold onBeat; msimpl.
  set (sF := exec flashLED _).
  assert (HF : currentBPM sF = bpm /\ currentIBI sF = ibi /\ lastBeatTime sF = now /\
               fingerPresent sF = true).
  { subst sF. frame_out. proj. repeat split. }
  clearbody sF. destruct HF as (H1 & H2 & H3 & H4).
  rewrite !drawBPM_exec, ?drawIBI_exec, ?drawBeatIndicator_exec. proj.
  rewrite ?drawIBI_exec. proj. rewrite !H1.
  destruct (Z.eqb_spec bpm (lastDisplayedBPM sF)) as [E1|E1]; cbn [negb]; proj;
    rewrite ?H2;
    (destruct (Z.eqb_spec ibi (lastDisplayedIBI sF)) as [E2|E2]; cbn [negb]; proj;
     repeat split; congruence).
Qed.

Lemma onBeat_calls now bpm ibi s :
  calls (onBeat now bpm ibi) s =
  calls flashLED s ++
  (if negb (bpm =? lastDisplayedBPM s) then calls (drawBPM bpm) s else []) ++
  (if negb (ibi =? lastDisplayedIBI s) then calls (drawIBI ibi) s else []) ++
  calls (drawBeatIndicator true) s ++
  [SerialWrite (status_record (currentSignal s) bpm ibi)].
Proof.
  unfold onBeat; msimpl.
  rewrite !flashLED_calls.
  set (sF := exec flashLED _).
  assert (HF : currentBPM sF = bpm /\ currentIBI sF = ibi /\
               currentSignal sF = currentSignal s /\
               lastDisplayedBPM sF = lastDisplayedBPM s /\
               lastDisplayedIBI sF = lastDisplayedIBI s).
  { subst sF. frame_out. proj. repeat split. }
  clearbody sF. destruct HF as (H1 & H2 & H3 & H4 & H5).
  rewrite !drawBPM_exec, ?drawIBI_exec, ?drawBeatIndicator_exec. proj.
  rewrite ?drawIBI_exec, ?drawBeatIndicator_exec. proj.
  rewrite !H1, <- H4, <- H5. rewrite !app_nil_l.
  rewrite (drawBeatIndicator_calls true _ s).
  destruct (bpm =? lastDisplayedBPM sF); cbn [negb]; proj; rewrite ?H1, ?H2, ?H3;
    (destruct (ibi =? lastDisplayedIBI sF); cbn [negb]; proj; rewrite ?H1, ?H2, ?H3;
     rewrite ?drawBPM_calls, ?drawIBI_calls, ?app_nil_l, ?app_nil_r, <- ?app_assoc;
     reflexivity).
Qed.

Lemma onBeat_serial now bpm ibi s :
  serial_writes (calls (onBeat now bpm ibi) s) = [status_record (currentSignal s) bpm ibi].
Proof.
  rewrite onBeat_calls, !serial_writes_app.
  rewrite (quiet_serial_writes flashLED) by frame.
  rewrite (quiet_serial_writes (drawBeatIndicator true)) by frame.
  destruct (negb _); [rewrite (quiet_serial_writes (drawBPM bpm)) by frame|];
    (destruct (negb _); [rewrite (quiet_serial_writes (drawIBI ibi)) by frame|]);
    reflexivity.
Qed.

Lemma checkFingerTimeout_serial now s :
  serial_writes (calls (checkFingerTimeout now) s) =
  if fingerPresent s && (usub now (lastBeatTime s) >? NO_BEAT_TIMEOUT)
  then [no_finger_line] else [].
Proof.
  rewrite checkFingerTimeout_calls.
  destruct (_ && _); [|reflexivity].
  rewrite !serial_writes_app.
  destruct (negb _); [rewrite (quiet_serial_writes (drawBPM 0)) by frame|];
    (destruct (negb _); [rewrite (quiet_serial_writes (drawIBI 0)) by frame|]);
    reflexivity.
Qed.

Lemma loop_serial i st :
  let s3 := exec (updateLED (in_now_led i))
              (exec (flashStage (in_now i))
                 (exec (beatStage i) (set_currentSignal (in_sample i) st))) in
  serial_writes (calls (loop i) st) =
  serial_writes (calls (beatStage i) (set_currentSignal (in_sample i) st)) ++
  serial_writes (calls (checkFingerTimeout (in_now_timeout i)) s3).
Proof.
  cbn zeta. pose proof (calls_loop i st) as Hc; cbn zeta in Hc. rewrite Hc; clear Hc.
  rewrite !serial_writes_app.
  rewrite (quiet_serial_writes (flashStage _)) by frame.
  rewrite (quiet_serial_writes (updateLED _)) by frame.
  rewrite (quiet_serial_writes (renderStage _)) by frame.
  rewrite app_nil_r. reflexivity.
Qed.

Lemma loop_serial_beat i st bpm ibi :
  in_beat i = Some (bpm, ibi) ->
  serial_writes (calls (loop i) st) =
  status_record (in_sample i) bpm ibi ::
  (if usub (in_now_timeout i) (in_now i) >? NO_BEAT_TIMEOUT then [no_finger_line] else []).
Proof.
  intros Hb. pose proof (loop_serial i st) as H; cbn zeta in H. rewrite H; clear H.
  rewrite checkFingerTimeout_serial. frame_out.
  unfold beatStage; rewrite Hb.
  destruct (onBeat_spec (in_now i) bpm ibi (set_currentSignal (in_sample i) st))
    as (_ & _ & -> & -> & _).
  rewrite onBeat_serial. proj. reflexivity.
Qed.

Lemma loop_serial_no_beat i st :
  in_beat i = None ->
  serial_writes (calls (loop i) st) =
  if fingerPresent st && timed_out i st then [no_finger_line] else [].
Proof.
  intros Hb. pose proof (loop_serial i st) as H; cbn zeta in H. rewrite H; clear H.
  rewrite checkFingerTimeout_serial. frame_out.
  rewrite beatStage_none by assumption.
  unfold beatStage; rewrite Hb. proj. reflexivity.
Qed.

Lemma no_finger_line_not_record : ~ is_status_record no_finger_line.
Proof. apply crlf_line_not_record. Qed.

(** *** Runs without beats *)

Lemma run_no_beat_before ins st :
  Forall no_beat ins -> Forall (fun j => timed_out j st = false) ins ->
  fingerPresent (run ins st) = fingerPresent st /\
  lastBeatTime (run ins st) = lastBeatTime st /\
  transitions ins st = 0%nat.
Proof.
  revert st; induction ins as [|i ins IH]; intros st Hnb Hto; [auto|].
  inversion Hnb as [|? ? Hi Hnb']; subst. inversion Hto as [|? ? Hti Hto']; subst.
  destruct (loop_presence_no_beat i st Hi) as [Hlb Hfp].
  rewrite Hti, andb_false_r in Hfp.
  assert (Hto'' : Forall (fun j => timed_out j (exec (loop i) st) = false) ins).
  { eapply Forall_impl; [exact Hto'|]. intros j Hj. unfold timed_out in *.
    rewrite Hlb. exact Hj. }
  destruct (IH (exec (loop i) st) Hnb' Hto'') as (H1 & H2 & H3).
  cbn [run foldl transitions]. fold (run ins (exec (loop i) st)).
  rewrite H1, H2, H3, Hfp, Hlb. repeat split.
  destruct (fingerPresent st); reflexivity.
Qed.

Lemma run_no_beat_absent ins st :
  Forall no_beat ins -> fingerPresent st = false ->
  fingerPresent (run ins st) = false /\ transitions ins st = 0%nat.
Proof.
  revert st; induction ins as [|i ins IH]; intros st Hnb Hfp; [auto|].
  inversion Hnb as [|? ? Hi Hnb']; subst.
  destruct (loop_presence_no_beat i st Hi) as [_ H].
  rewrite Hfp in H; cbn [andb] in H.
  destruct (IH (exec (loop i) st) Hnb' H) as (H1 & H2).
  cbn [run foldl transitions]. fold (run ins (exec (loop i) st)).
  rewrite H1, H2, Hfp. auto.
Qed.

Lemma transitions_app ins1 ins2 st :
  transitions (ins1 ++ ins2) st = (transitions ins1 st + transitions ins2 (run ins1 st))%nat.
Proof.
  revert st; induction ins1 as [|i ins1 IH]; intros st; [reflexivity|].
  cbn [app transitions run foldl]. rewrite IH. unfold run. lia.
Qed.

(** *** Redraws at a beat *)

Lemma onBeat_redraws_bpm now bpm ibi s :
  if bpm =? lastDisplayedBPM s
  then Forall (fun e => clears_bpm e = false) (calls (onBeat now bpm ibi) s)
  else Exists (fun e => clears_bpm e = true) (calls (onBeat now bpm ibi) s).
Proof.
  rewrite onBeat_calls, drawBPM_calls, drawIBI_calls.
  destruct (bpm =? lastDisplayedBPM s); cbn [negb].
  - repeat (apply Forall_app; split); repeat constructor;
      repeat case_match; repeat constructor.
  - apply Exists_app; right. apply Exists_app; left. left. reflexivity.
Qed.

Lemma onBeat_redraws_ibi now bpm ibi s :
  if ibi =? lastDisplayedIBI s
  then Forall (fun e => clears_ibi e = false) (calls (onBeat now bpm ibi) s)
  else Exists (fun e => clears_ibi e = true) (calls (onBeat now bpm ibi) s).
Proof.
  rewrite onBeat_calls, drawBPM_calls, drawIBI_calls.
  destruct (ibi =? lastDisplayedIBI s); cbn [negb].
  - repeat (apply Forall_app; split); repeat constructor;
      repeat case_match; repeat constructor.
  - apply Exists_app; right. apply Exists_app; right. apply Exists_app; left.
    left. reflexivity.
Qed.

(** *** The envelope over an iteration *)

Lemma renderTick_envelope now d s :
  let s1 := exec (renderTick now d) s in
  minSignal s1 <= currentSignal s <= maxSignal s1.
Proof.
  cbn zeta. unfold renderTick; msimpl.
  set (sU := exec (updateMinMax d) _).
  assert (HU : minSignal sU <= currentSignal s <= maxSignal sU).
  { subst sU.
    pose proof (updateMinMax_spec d
      (set_waveformBuffer
         (buffer_set (waveformX (set_lastDrawTime now s))
            (currentSignal (set_lastDrawTime now s))
            (waveformBuffer (set_lastDrawTime now s))) (set_lastDrawTime now s))) as H.
    exact H. }
  clearbody sU. case_match; tidy; exact HU.
Qed.

Lemma loop_envelope i st :
  let st' := exec (loop i) st in
  if renders i st then minSignal st' <= in_sample i <= maxSignal st'
  else minSignal st' = minSignal st /\ maxSignal st' = maxSignal st.
Proof.
  cbn zeta. rewrite exec_loop, renderStage_spec, renders_loop.
  set (s4 := exec (checkFingerTimeout _) _).
  assert (H4 : minSignal s4 = minSignal st /\ maxSignal s4 = maxSignal st /\
               currentSignal s4 = in_sample i).
  { subst s4. tidy. repeat split. }
  clearbody s4. destruct H4 as (Hn & Hx & Hc).
  destruct (renders i st).
  - rewrite <- Hc. apply renderTick_envelope.
  - auto.
Qed.

Lemma booted_state ok :
  waveformX (booted ok) = 0 /\ ledBrightness (booted ok) = 0 /\
  minSignal (booted ok) = 4095 /\ maxSignal (booted ok) = 0.
Proof. destruct ok; vm_compute; repeat split. Qed.

Lemma run_brightness_range ins st :
  0 <= ledBrightness st <= 255 -> 0 <= ledBrightness (run ins st) <= 255.
Proof.
  revert st; induction ins as [|i ins IH]; intros st H; [exact H|].
  apply IH, loop_brightness_range, H.
Qed.

Lemma run_envelope ins st :
  minSignal st <= maxSignal st \/ (minSignal st = 4095 /\ maxSignal st = 0) ->
  minSignal (run ins st) <= maxSignal (run ins st) \/
  (minSignal (run ins st) = 4095 /\ maxSignal (run ins st) = 0).
Proof.
  revert st; induction ins as [|i ins IH]; intros st H; [exact H|].
  apply IH. pose proof (loop_envelope i st) as HL; cbn zeta in HL.
  destruct (renders i st).
  - left. lia.
  - destruct HL as [-> ->]. exact H.
Qed.

Lemma abs_diff_in_range a b :
  is_sample a -> -1 <= b <= 4095 -> Arduino.abs (isub a b) = Z.abs (a - b).
Proof.
  unfold is_sample, Arduino.abs, isub; intros Ha Hb.
  rewrite wrap32_id by (unfold INT_MIN, INT_MAX; lia).
  destruct (Z.gtb_spec (a - b) 0).
  - lia.
  - rewrite wrap32_id by (unfold INT_MIN, INT_MAX; lia). lia.
Qed.

Lemma booted_buffer ok : waveformBuffer (booted ok) = replicate 320 2048.
Proof. destruct ok; vm_compute; reflexivity. Qed.

Lemma run_buffer_length ins st :
  length (waveformBuffer (run ins st)) = length (waveformBuffer st).
Proof.
  revert st; induction ins as [|i ins IH]; intros st; [reflexivity|].
  cbn [run foldl]. fold (run ins (exec (loop i) st)). rewrite IH, loop_buffer.
  destruct (renders i st); [apply length_insert | reflexivity].
Qed.

(** *** What is drawn when the finger times out *)

Lemma loop_timeout_redraws i st :
  in_beat i = None ->
  fingerPresent st = true -> timed_out i st = true ->
  ((lastDisplayedBPM st =? 0) = false ->
   Exists (fun e => clears_bpm e = true) (calls (loop i) st)) /\
  ((lastDisplayedIBI st =? 0) = false ->
   Exists (fun e => clears_ibi e = true) (calls (loop i) st)).
Proof.
  intros Hb Hfp Hto.
  pose proof (calls_loop i st) as Hc; cbn zeta in Hc. rewrite Hc; clear Hc.
  rewrite beatStage_none by assumption.
  set (s3 := exec (updateLED _) _).
  assert (H3 : fingerPresent s3 = fingerPresent st /\ lastBeatTime s3 = lastBeatTime st /\
               lastDisplayedBPM s3 = lastDisplayedBPM st /\
               lastDisplayedIBI s3 = lastDisplayedIBI st).
  { subst s3. tidy. repeat split. }
  destruct H3 as (E1 & E2 & E3 & E4).
  rewrite checkFingerTimeout_calls, E1, E2, E3, E4, Hfp.
  unfold timed_out in Hto. rewrite Hto. cbn [andb].
  rewrite drawBPM_calls, drawIBI_calls.
  split; intros ->; cbn [negb];
    do 3 (apply Exists_app; right); apply Exists_app; left.
  - apply Exists_app; left. left. reflexivity.
  - apply Exists_app; right. apply Exists_app; left. left. reflexivity.
Qed.

End Part000Facts.

(** * Facts about [PulseSensor_CYD.ino] *)

Module CYDFacts.
Import CYD.

Ltac proj :=
  cbn [waveformBuffer waveformIndex minSignal maxSignal lastDrawTime lastBeatTime
    beatFlashActive fingerPresent ledFadeValue lastLedUpdate currentBPM currentSignal
    currentIBI lastDisplayedBPM lastDisplayedSignal lastDisplayedIBI set_waveformBuffer
    set_waveformIndex set_minSignal set_maxSignal set_lastDrawTime set_lastBeatTime
    set_beatFlashActive set_fingerPresent set_ledFadeValue set_lastLedUpdate set_currentBPM
    set_currentSignal set_currentIBI set_lastDisplayedBPM set_lastDisplayedSignal
    set_lastDisplayedIBI] in *.

Ltac unfold_sketch :=
  unfold loop, renderStage, flashStage, beatStage, renderTick, storeSample, onBeat,
    checkFingerTimeout, resetDisplay, updateMinMax, widenMinMax, driftMinMax,
    drawWaveformColumn, drawHeart, drawIBI, drawSignal, drawBPM, updateRgbLed.

Ltac frame := intros; unfold_sketch; repeat frame_step.

Ltac is_field f :=
  lazymatch f with
  | waveformBuffer => idtac | waveformIndex => idtac | minSignal => idtac
  | maxSignal => idtac | lastDrawTime => idtac | lastBeatTime => idtac
  | beatFlashActive => idtac | fingerPresent => idtac | ledFadeValue => idtac
  | lastLedUpdate => idtac | currentBPM => idtac | currentSignal => idtac
  | currentIBI => idtac | lastDisplayedBPM => idtac | lastDisplayedSignal => idtac
  | lastDisplayedIBI => idtac
  end.

Ltac frame_out :=
  repeat match goal with
  | |- context [?f (exec ?m ?s)] =>
      is_field f;
      let H := fresh "Hframe" in
      assert (H : preserves f m) by (solve [frame]);
      rewrite (H s); clear H
  end.

Ltac tidy := repeat first [ progress proj | progress frame_out ].

Lemma cyd_exec_loop i st :
  exec (loop i) st =
  exec (checkFingerTimeout (in_now_timeout i))
    (exec (updateRgbLed (in_now_led i) (in_now_led_set i))
       (exec (flashStage (in_now_flash i))
          (exec (renderStage i)
             (exec (beatStage i) (set_currentSignal (in_sample i) st))))).
Proof. unfold loop. msimpl. reflexivity. Qed.

Lemma cyd_calls_loop i st :
  let s0 := set_currentSignal (in_sample i) st in
  let s1 := exec (beatStage i) s0 in
  let s2 := exec (renderStage i) s1 in
  let s3 := exec (flashStage (in_now_flash i)) s2 in
  let s4 := exec (updateRgbLed (in_now_led i) (in_now_led_set i)) s3 in
  calls (loop i) st =
  calls (beatStage i) s0 ++ calls (renderStage i) s1 ++
  calls (flashStage (in_now_flash i)) s2 ++
  calls (updateRgbLed (in_now_led i) (in_now_led_set i)) s3 ++
  calls (checkFingerTimeout (in_now_timeout i)) s4.
Proof. unfold loop. msimpl. reflexivity. Qed.

Lemma cyd_beatStage_none i st : in_beat i = None -> exec (beatStage i) st = st.
Proof. unfold beatStage; intros ->; reflexivity. Qed.

(** *** The envelope *)

Lemma cyd_widenMinMax_spec s :
  let s1 := exec widenMinMax s in
  minSignal s1 = Z.min (minSignal s) (currentSignal s) /\
  maxSignal s1 = Z.max (maxSignal s) (currentSignal s) /\
  currentSignal s1 = currentSignal s.
Proof.
  cbn zeta. unfold widenMinMax; msimpl.
  destruct (Z.ltb_spec (currentSignal s) (minSignal s)); msimpl; proj;
    destruct (Z.gtb_spec (currentSignal s) (maxSignal s)); msimpl; proj;
    repeat split; lia.
Qed.

Lemma cyd_driftMinMax_spec s :
  let s1 := exec driftMinMax s in
  minSignal s1 = Z.min (iadd (minSignal s) 1) 1800 /\
  maxSignal s1 = Z.max (isub (maxSignal s) 1) 2200.
Proof.
  cbn zeta. unfold driftMinMax; msimpl. proj.
  destruct (Z.gtb_spec (iadd (minSignal s) 1) 1800); msimpl; proj;
    destruct (Z.ltb_spec (isub (maxSignal s) 1) 2200); msimpl; proj;
    split; lia.
Qed.

Lemma cyd_updateMinMax_spec s :
  let s1 := exec updateMinMax s in
  minSignal s1 = Z.min (iadd (Z.min (minSignal s) (currentSignal s)) 1) 1800 /\
  maxSignal s1 = Z.max (isub (Z.max (maxSignal s) (currentSignal s)) 1) 2200.
Proof.
  cbn zeta. unfold updateMinMax; msimpl.
  destruct (cyd_driftMinMax_spec (exec widenMinMax s)) as [-> ->].
  destruct (cyd_widenMinMax_spec s) as (-> & -> & _). split; reflexivity.
Qed.

Lemma cyd_updateMinMax_bounds s :
  let s1 := exec updateMinMax s in
  minSignal s1 <= 1800 /\ 2200 <= maxSignal s1.
Proof. cbn zeta. destruct (cyd_updateMinMax_spec s) as [-> ->]. lia. Qed.

Lemma cyd_resetDisplay_spec s :
  let s1 := exec resetDisplay s in
  minSignal s1 = 1800 /\ maxSignal s1 = 2200 /\
  lastDisplayedBPM s1 = -1 /\ lastDisplayedSignal s1 = -1 /\ lastDisplayedIBI s1 = -1 /\
  fingerPresent s1 = fingerPresent s /\ lastBeatTime s1 = lastBeatTime s.
Proof. cbn zeta. unfold resetDisplay, drawHeart; msimpl. repeat split. Qed.

Lemma cyd_renderStage_spec i s :
  exec (renderStage i) s = if renders i s then exec (renderTick (in_now_drawn i)) s else s.
Proof. unfold renderStage, renders; msimpl. reflexivity. Qed.

Lemma cyd_renderStage_calls i s :
  calls (renderStage i) s = if renders i s then calls (renderTick (in_now_drawn i)) s else [].
Proof. unfold renderStage, renders; msimpl. reflexivity. Qed.

Lemma cyd_renders_loop i st :
  renders i (exec (beatStage i) (set_currentSignal (in_sample i) st)) = renders i st.
Proof. unfold renders. frame_out. reflexivity. Qed.

Lemma cyd_renderTick_envelope now s :
  let s1 := exec (renderTick now) s in
  minSignal s1 = minSignal (exec updateMinMax (exec (storeSample now) s)) /\
  maxSignal s1 = maxSignal (exec updateMinMax (exec (storeSample now) s)).
Proof.
  cbn zeta. unfold renderTick; msimpl.
  set (sU := exec updateMinMax _). clearbody sU.
  split; frame_out; reflexivity.
Qed.

(** *** The cursor and the buffer *)

Lemma cyd_renderTick_cursor now s :
  0 <= waveformIndex s < SCREEN_WIDTH ->
  waveformIndex (exec (renderTick now) s) = (waveformIndex s + 1) mod SCREEN_WIDTH.
Proof.
  intros Hx. unfold renderTick; msimpl. frame_out. proj.
  unfold SCREEN_WIDTH in *. unfold iadd, irem.
  rewrite wrap32_id by (unfold INT_MIN, INT_MAX; lia).
  apply Z.rem_mod_nonneg; lia.
Qed.

Lemma cyd_renderTick_buffer now s :
  waveformBuffer (exec (renderTick now) s) =
  buffer_set (waveformIndex s) (currentSignal s) (waveformBuffer s).
Proof. unfold renderTick, storeSample; msimpl. tidy. reflexivity. Qed.

Lemma cyd_loop_cursor i st :
  0 <= waveformIndex st < SCREEN_WIDTH ->
  waveformIndex (exec (loop i) st) =
  if renders i st then (waveformIndex st + 1) mod SCREEN_WIDTH else waveformIndex st.
Proof.
  intros Hx. rewrite cyd_exec_loop. frame_out. rewrite cyd_renderStage_spec, cyd_renders_loop.
  destruct (renders i st).
  - rewrite cyd_renderTick_cursor; frame_out; proj; auto.
  - frame_out. reflexivity.
Qed.

Lemma cyd_loop_buffer i st :
  waveformBuffer (exec (loop i) st) =
  if renders i st then buffer_set (waveformIndex st) (in_sample i) (waveformBuffer st)
  else waveformBuffer st.
Proof.
  rewrite cyd_exec_loop. frame_out. rewrite cyd_renderStage_spec, cyd_renders_loop.
  destruct (renders i st).
  - rewrite cyd_renderTick_buffer; frame_out; proj. reflexivity.
  - frame_out. reflexivity.
Qed.

Lemma cyd_loop_cursor_range i st :
  0 <= waveformIndex st < SCREEN_WIDTH ->
  0 <= waveformIndex (exec (loop i) st) < SCREEN_WIDTH.
Proof.
  intros Hx. rewrite cyd_loop_cursor by assumption.
  destruct (renders i st); [|assumption].
  apply Z.mod_pos_bound. reflexivity.
Qed.

Lemma cyd_booted_cursor ok now : waveformIndex (booted ok now) = 0.
Proof. destruct ok; reflexivity. Qed.

Lemma cyd_run_cursor_range ins st :
  0 <= waveformIndex st < SCREEN_WIDTH -> 0 <= waveformIndex (run ins st) < SCREEN_WIDTH.
Proof.
  revert st; induction ins as [|i ins IH]; intros st Hx; [exact Hx|].
  apply IH, cyd_loop_cursor_range, Hx.
Qed.

Lemma cyd_writes_lookup ins st k a :
  0 <= waveformIndex st < SCREEN_WIDTH ->
  writes ins st !! k = Some a ->
  a = (waveformIndex st + Z.of_nat k) mod SCREEN_WIDTH.
Proof.
  revert st k; induction ins as [|i ins IH]; intros st k Hx Hk; [discriminate|].
  simpl in Hk.
  pose proof (cyd_loop_cursor i st Hx) as Hc.
  pose proof (cyd_loop_cursor_range i st Hx) as Hr.
  destruct (renders i st).
  - destruct k as [|k]; simpl in Hk.
    + injection Hk as <-. rewrite Z.add_0_r, Z.mod_small; auto.
    + apply IH in Hk; [|assumption]. rewrite Hk, Hc.
      rewrite Zplus_mod_idemp_l. f_equal. lia.
  - simpl in Hk. apply IH in Hk; [|assumption]. rewrite Hk, Hc. reflexivity.
Qed.

(** *** The LED *)

Lemma cyd_updateRgbLed_fade now now_set st :
  ledFadeValue (exec (updateRgbLed now now_set) st) =
  if (ledFadeValue st >? 0) && (usub now (lastLedUpdate st) >? 10) then
    let v := isub (ledFadeValue st) 8 in if v <? 0 then 0 else v
  else ledFadeValue st.
Proof.
  unfold updateRgbLed. msimpl.
  destruct (ledFadeValue st >? 0); cbn [andb]; [|reflexivity].
  destruct (usub now (lastLedUpdate st) >? 10); [|reflexivity].
  proj. case_match; reflexivity.
Qed.

Lemma cyd_updateRgbLed_le now now_set st :
  ledFadeValue (exec (updateRgbLed now now_set) st) <= ledFadeValue st.
Proof.
  rewrite cyd_updateRgbLed_fade.
  destruct (Z.gtb_spec (ledFadeValue st) 0); cbn [andb]; [|lia].
  destruct (usub now (lastLedUpdate st) >? 10); [|lia].
  apply Part000Facts.fade_step_le; lia.
Qed.

Lemma cyd_updateRgbLed_range now now_set st :
  0 <= ledFadeValue st <= 255 ->
  0 <= ledFadeValue (exec (updateRgbLed now now_set) st) <= 255.
Proof.
  intros H. pose proof (cyd_updateRgbLed_le now now_set st). split; [|lia].
  rewrite cyd_updateRgbLed_fade.
  destruct (_ && _); [|lia].
  cbn zeta. case_match; [lia|]. apply Z.ltb_ge; assumption.
Qed.

(** *** The numeric fields *)

Lemma cyd_drawBPM_spec bpm s :
  if bpm =? lastDisplayedBPM s then
    exec (drawBPM bpm) s = s /\ calls (drawBPM bpm) s = []
  else
    exec (drawBPM bpm) s = set_lastDisplayedBPM bpm s /\
    calls (drawBPM bpm) s =
    [TftFillRect BPM_X BPM_Y 150 50 COLOR_BG; TftSetTextColor COLOR_BPM None;
     TftSetTextSize 1; TftDrawNumber bpm BPM_X BPM_Y 7].
Proof. unfold drawBPM; msimpl. case_match; msimpl; split; reflexivity. Qed.

Lemma cyd_drawSignal_spec signal s :
  if signal =? lastDisplayedSignal s then
    exec (drawSignal signal) s = s /\ calls (drawSignal signal) s = []
  else
    exec (drawSignal signal) s = set_lastDisplayedSignal signal s /\
    calls (drawSignal signal) s =
    [TftFillRect SIGNAL_X (BOTTOM_Y + 16) 80 24 COLOR_BG; TftSetTextColor COLOR_SIGNAL None;
     TftDrawNumber signal SIGNAL_X (BOTTOM_Y + 16) 4].
Proof. unfold drawSignal; msimpl. case_match; msimpl; split; reflexivity. Qed.

Lemma cyd_drawIBI_spec ibi s :
  if ibi =? lastDisplayedIBI s then
    exec (drawIBI ibi) s = s /\ calls (drawIBI ibi) s = []
  else
    exec (drawIBI ibi) s = set_lastDisplayedIBI ibi s /\
    calls (drawIBI ibi) s =
    [TftFillRect IBI_X (BOTTOM_Y + 16) 100 24 COLOR_BG; TftSetTextColor COLOR_IBI None;
     TftDrawString (dec ibi +:+ "ms") IBI_X (BOTTOM_Y + 16) 4].
Proof. unfold drawIBI; msimpl. case_match; msimpl; split; reflexivity. Qed.

Lemma cyd_drawBPM_shown bpm s : lastDisplayedBPM (exec (drawBPM bpm) s) = bpm.
Proof.
  pose proof (cyd_drawBPM_spec bpm s) as H.
  destruct (Z.eqb_spec bpm (lastDisplayedBPM s)); destruct H as [-> _]; auto.
Qed.

Lemma cyd_drawIBI_shown ibi s : lastDisplayedIBI (exec (drawIBI ibi) s) = ibi.
Proof.
  pose proof (cyd_drawIBI_spec ibi s) as H.
  destruct (Z.eqb_spec ibi (lastDisplayedIBI s)); destruct H as [-> _]; auto.
Qed.

Lemma cyd_drawSignal_shown v s : lastDisplayedSignal (exec (drawSignal v) s) = v.
Proof.
  pose proof (cyd_drawSignal_spec v s) as H.
  destruct (Z.eqb_spec v (lastDisplayedSignal s)); destruct H as [-> _]; auto.
Qed.

(** *** The beat *)

Lemma cyd_onBeat_spec now bpm ibi s :
  let s1 := exec (onBeat now bpm ibi) s in
  currentBPM s1 = bpm /\ currentIBI s1 = ibi /\ lastBeatTime s1 = now /\
  fingerPresent s1 = true /\ ledFadeValue s1 = 255 /\
  lastDisplayedBPM s1 = bpm /\ lastDisplayedIBI s1 = ibi.
Proof.
  cbn zeta. unfold onBeat; msimpl. proj.
  set (sB := exec (drawBPM bpm) _).
  assert (HB : currentBPM sB = bpm /\ currentIBI sB = ibi /\ lastBeatTime sB = now /\
               fingerPresent sB = true /\ ledFadeValue sB = 255 /\
               lastDisplayedBPM sB = bpm).
  { subst sB. rewrite cyd_drawBPM_shown. frame_out. proj. repeat split. }
  clearbody sB. destruct HB as (H1 & H2 & H3 & H4 & H5 & H6).
  rewrite H2. set (sI := exec (drawIBI ibi) sB).
  assert (HI : currentBPM sI = bpm /\ currentIBI sI = ibi /\ lastBeatTime sI = now /\
               fingerPresent sI = true /\ ledFadeValue sI = 255 /\
               lastDisplayedBPM sI = bpm /\ lastDisplayedIBI sI = ibi).
  { subst sI. rewrite cyd_drawIBI_shown. frame_out. repeat split; assumption. }
  clearbody sI. frame_out. exact HI.
Qed.

Lemma cyd_onBeat_serial now bpm ibi s :
  serial_writes (calls (onBeat now bpm ibi) s) =
  ["BPM: "; dec bpm; " | IBI: "; dec ibi +:+ CRLF].
Proof.
  unfold onBeat; msimpl. proj.
  set (sB := exec (drawBPM bpm) _).
  assert (HB : currentBPM sB = bpm /\ currentIBI sB = ibi).
  { subst sB. frame_out. proj. split; reflexivity. }
  destruct HB as [H1 H2]. clearbody sB. frame_out. rewrite ?H1, ?H2.
  rewrite !serial_writes_app.
  rewrite (quiet_serial_writes (drawBPM bpm)) by frame.
  rewrite (quiet_serial_writes (drawIBI ibi)) by frame.
  rewrite (quiet_serial_writes (drawHeart COLOR_HEART)) by frame.
  reflexivity.
Qed.

(** *** Presence *)

Lemma cyd_checkFingerTimeout_spec now s :
  let s1 := exec (checkFingerTimeout now) s in
  if fingerPresent s && (usub now (lastBeatTime s) >? NO_BEAT_TIMEOUT) then
    fingerPresent s1 = false /\
    lastDisplayedBPM s1 = -1 /\ lastDisplayedIBI s1 = -1 /\ lastDisplayedSignal s1 = -1 /\
    minSignal s1 = 1800 /\ maxSignal s1 = 2200
  else s1 = s.
Proof.
  unfold checkFingerTimeout, resetDisplay, drawHeart; msimpl.
  destruct (_ && _); [|reflexivity]. repeat split.
Qed.

Lemma cyd_checkFingerTimeout_calls now s :
  calls (checkFingerTimeout now) s =
  if fingerPresent s && (usub now (lastBeatTime s) >? NO_BEAT_TIMEOUT) then
    [TftFillRect BPM_X BPM_Y 150 50 COLOR_BG;
     TftFillRect IBI_X (BOTTOM_Y + 16) 100 24 COLOR_BG;
     TftSetTextColor COLOR_LABEL None;
     TftDrawString "Place finger" BPM_X (BPM_Y + 10) 2;
     TftDrawString "on sensor" BPM_X (BPM_Y + 28) 2] ++
    calls (drawHeart COLOR_HEART_DIM) s ++
    [SerialWrite waiting_line]
  else [].
Proof.
  unfold checkFingerTimeout, resetDisplay, drawHeart; msimpl.
  destruct (_ && _); reflexivity.
Qed.

Lemma cyd_checkFingerTimeout_serial now s :
  serial_writes (calls (checkFingerTimeout now) s) =
  if fingerPresent s && (usub now (lastBeatTime s) >? NO_BEAT_TIMEOUT)
  then [waiting_line] else [].
Proof. rewrite cyd_checkFingerTimeout_calls. destruct (_ && _); reflexivity. Qed.

Lemma cyd_before_timeout_no_beat i st :
  in_beat i = None ->
  let s4 := exec (updateRgbLed (in_now_led i) (in_now_led_set i))
              (exec (flashStage (in_now_flash i))
                 (exec (renderStage i)
                    (exec (beatStage i) (set_currentSignal (in_sample i) st)))) in
  fingerPresent s4 = fingerPresent st /\ lastBeatTime s4 = lastBeatTime st /\
  ledFadeValue s4 =
    ledFadeValue (exec (updateRgbLed (in_now_led i) (in_now_led_set i)) st).
Proof.
  intros Hb; cbn zeta. rewrite cyd_beatStage_none by assumption.
  rewrite !cyd_updateRgbLed_fade. frame_out. proj. repeat split.
Qed.

Lemma cyd_loop_presence_no_beat i st :
  in_beat i = None ->
  let st' := exec (loop i) st in
  lastBeatTime st' = lastBeatTime st /\
  if fingerPresent st && timed_out i st then
    fingerPresent st' = false /\
    lastDisplayedBPM st' = -1 /\ lastDisplayedIBI st' = -1 /\ lastDisplayedSignal st' = -1 /\
    minSignal st' = 1800 /\ maxSignal st' = 2200
  else fingerPresent st' = fingerPresent st.
Proof.
  intros Hb; cbn zeta. rewrite cyd_exec_loop.
  destruct (cyd_before_timeout_no_beat i st Hb) as (Hfp & Hlb & _).
  set (s4 := exec (updateRgbLed _ _) _) in *. clearbody s4.
  pose proof (cyd_checkFingerTimeout_spec (in_now_timeout i) s4) as H; cbn zeta in H.
  rewrite Hfp, Hlb in H. unfold timed_out. frame_out.
  destruct (_ && _).
  - split; [exact Hlb | exact H].
  - rewrite H. auto.
Qed.

Lemma cyd_loop_fade_no_beat i st :
  in_beat i = None ->
  ledFadeValue (exec (loop i) st) =
  ledFadeValue (exec (updateRgbLed (in_now_led i) (in_now_led_set i)) st).
Proof.
  intros Hb. rewrite cyd_exec_loop. frame_out.
  apply (cyd_before_timeout_no_beat i st Hb).
Qed.

Lemma cyd_loop_fade_beat i st bpm ibi :
  in_beat i = Some (bpm, ibi) ->
  ledFadeValue (exec (loop i) st) =
  if usub (in_now_led i) (lastLedUpdate st) >? 10 then 247 else 255.
Proof.
  intros Hb. rewrite cyd_exec_loop. frame_out.
  rewrite cyd_updateRgbLed_fade. frame_out.
  unfold beatStage; rewrite Hb.
  destruct (cyd_onBeat_spec (in_now_beat i) bpm ibi (set_currentSignal (in_sample i) st))
    as (_ & _ & _ & _ & -> & _).
  proj. cbn [andb Z.gtb Z.compare].
  destruct (usub (in_now_led i) (lastLedUpdate st) >? 10); reflexivity.
Qed.

Lemma cyd_loop_fade_range i st :
  0 <= ledFadeValue st <= 255 -> 0 <= ledFadeValue (exec (loop i) st) <= 255.
Proof.
  intros H. destruct (in_beat i) as [[bpm ibi]|] eqn:Hb.
  - rewrite (cyd_loop_fade_beat _ _ _ _ Hb). case_match; lia.
  - rewrite (cyd_loop_fade_no_beat _ _ Hb). apply cyd_updateRgbLed_range, H.
Qed.

(** *** The serial port *)

Lemma cyd_loop_serial i st :
  let s4 := exec (updateRgbLed (in_now_led i) (in_now_led_set i))
              (exec (flashStage (in_now_flash i))
                 (exec (renderStage i)
                    (exec (beatStage i) (set_currentSignal (in_sample i) st)))) in
  serial_writes (calls (loop i) st) =
  serial_writes (calls (beatStage i) (set_currentSignal (in_sample i) st)) ++
  serial_writes (calls (checkFingerTimeout (in_now_timeout i)) s4).
Proof.
  cbn zeta. pose proof (cyd_calls_loop i st) as Hc; cbn zeta in Hc. rewrite Hc; clear Hc.
  rewrite !serial_writes_app.
  rewrite (quiet_serial_writes (flashStage _)) by frame.
  rewrite (quiet_serial_writes (updateRgbLed _ _)) by frame.
  rewrite (quiet_serial_writes (renderStage _)) by frame.
  reflexivity.
Qed.

Lemma cyd_loop_serial_beat i st bpm ibi :
  in_beat i = Some (bpm, ibi) ->
  serial_writes (calls (loop i) st) =
  ["BPM: "; dec bpm; " | IBI: "; dec ibi +:+ CRLF] ++
  (if usub (in_now_timeout i) (in_now_beat i) >? NO_BEAT_TIMEOUT
   then [waiting_line] else []).
Proof.
  intros Hb. pose proof (cyd_loop_serial i st) as H; cbn zeta in H. rewrite H; clear H.
  rewrite cyd_checkFingerTimeout_serial. frame_out.
  unfold beatStage; rewrite Hb.
  destruct (cyd_onBeat_spec (in_now_beat i) bpm ibi (set_currentSignal (in_sample i) st))
    as (_ & _ & -> & -> & _).
  rewrite cyd_onBeat_serial. reflexivity.
Qed.

Lemma cyd_loop_serial_no_beat i st :
  in_beat i = None ->
  serial_writes (calls (loop i) st) =
  if fingerPresent st && timed_out i st then [waiting_line] else [].
Proof.
  intros Hb. pose proof (cyd_loop_serial i st) as H; cbn zeta in H. rewrite H; clear H.
  rewrite cyd_checkFingerTimeout_serial.
  destruct (cyd_before_timeout_no_beat i st Hb) as (-> & -> & _).
  unfold beatStage; rewrite Hb. reflexivity.
Qed.

(** *** Runs without beats *)

Lemma cyd_run_no_beat_before ins st :
  Forall no_beat ins -> Forall (fun j => timed_out j st = false) ins ->
  fingerPresent (run ins st) = fingerPresent st /\
  lastBeatTime (run ins st) = lastBeatTime st /\
  transitions ins st = 0%nat.
Proof.
  revert st; induction ins as [|i ins IH]; intros st Hnb Hto; [auto|].
  inversion Hnb as [|? ? Hi Hnb']; subst. inversion Hto as [|? ? Hti Hto']; subst.
  destruct (cyd_loop_presence_no_beat i st Hi) as [Hlb Hfp].
  rewrite Hti, andb_false_r in Hfp.
  assert (Hto'' : Forall (fun j => timed_out j (exec (loop i) st) = false) ins).
  { eapply Forall_impl; [exact Hto'|]. intros j Hj. unfold timed_out in *.
    rewrite Hlb. exact Hj. }
  destruct (IH (exec (loop i) st) Hnb' Hto'') as (H1 & H2 & H3).
  cbn [run foldl transitions]. fold (run ins (exec (loop i) st)).
  rewrite H1, H2, H3, Hfp, Hlb. repeat split.
  destruct (fingerPresent st); reflexivity.
Qed.

Lemma cyd_run_no_beat_absent ins st :
  Forall no_beat ins -> fingerPresent st = false ->
  fingerPresent (run ins st) = false /\ transitions ins st = 0%nat.
Proof.
  revert st; induction ins as [|i ins IH]; intros st Hnb Hfp; [auto|].
  inversion Hnb as [|? ? Hi Hnb']; subst.
  destruct (cyd_loop_presence_no_beat i st Hi) as [_ H].
  rewrite Hfp in H; cbn [andb] in H.
  destruct (IH (exec (loop i) st) Hnb' H) as (H1 & H2).
  cbn [run foldl transitions]. fold (run ins (exec (loop i) st)).
  rewrite H1, H2, Hfp. auto.
Qed.

Lemma cyd_transitions_app ins1 ins2 st :
  transitions (ins1 ++ ins2) st = (transitions ins1 st + transitions ins2 (run ins1 st))%nat.
Proof.
  revert st; induction ins1 as [|i ins1 IH]; intros st; [reflexivity|].
  cbn [app transitions run foldl]. rewrite IH. unfold run. lia.
Qed.

(** *** The state in which the column is drawn *)

Lemma cyd_drawWaveformColumn_calls s :
  let x := waveformIndex s in
  let row v :=
    Arduino.constrain
      (Arduino.map v (minSignal s) (maxSignal s) (WAVEFORM_BOTTOM - 5) (WAVEFORM_TOP + 5))
      WAVEFORM_TOP WAVEFORM_BOTTOM in
  let y1 :=
    row (buffer_get (waveformBuffer s)
           (irem (iadd (isub x 1) WAVEFORM_SAMPLES) WAVEFORM_SAMPLES)) in
  let y2 := row (buffer_get (waveformBuffer s) x) in
  calls drawWaveformColumn s =
  [TftDrawFastVLine x WAVEFORM_TOP WAVEFORM_HEIGHT COLOR_BG;
   TftDrawLine (isub x 1) (y1 + 0) x (y2 + 0) COLOR_WAVEFORM;
   TftDrawLine (isub x 1) (y1 + 1) x (y2 + 1) COLOR_WAVEFORM;
   TftDrawLine (isub x 1) (y1 + 2) x (y2 + 2) COLOR_WAVEFORM;
   TftDrawFastVLine (irem (iadd x 10) SCREEN_WIDTH) WAVEFORM_TOP WAVEFORM_HEIGHT COLOR_BG].
Proof. reflexivity. Qed.

Lemma cyd_map_run x in_min in_max out_min out_max :
  isub in_max in_min <> 0 ->
  Arduino.map x in_min in_max out_min out_max =
  iadd (idiv (imul (isub x in_min) (isub out_max out_min)) (isub in_max in_min)) out_min.
Proof.
  intros H. unfold Arduino.map. destruct (Z.eqb_spec (isub in_max in_min) 0); [lia|].
  reflexivity.
Qed.

Lemma cyd_at_draw_spec i st :
  minSignal (at_draw i st) = Z.min (iadd (Z.min (minSignal st) (in_sample i)) 1) 1800 /\
  maxSignal (at_draw i st) = Z.max (isub (Z.max (maxSignal st) (in_sample i)) 1) 2200.
Proof.
  unfold at_draw.
  destruct (cyd_updateMinMax_spec
              (exec (storeSample (in_now_drawn i))
                 (exec (beatStage i) (set_currentSignal (in_sample i) st)))) as [-> ->].
  frame_out. proj. split; reflexivity.
Qed.

Lemma cyd_renderTick_calls now s :
  exists sC,
    calls (renderTick now) s =
    calls drawWaveformColumn (exec updateMinMax (exec (storeSample now) s)) ++
    calls (drawSignal (currentSignal s)) sC /\
    lastDisplayedSignal sC = lastDisplayedSignal s.
Proof.
  unfold renderTick; msimpl.
  rewrite (quiet_all_nil (storeSample now)) by frame.
  rewrite (quiet_all_nil updateMinMax) by frame.
  tidy. rewrite !app_nil_l.
  eexists; split; [reflexivity|].
  tidy. reflexivity.
Qed.

Lemma cyd_loop_draws i st :
  renders i st = true ->
  exists before after,
    calls (loop i) st = before ++ calls drawWaveformColumn (at_draw i st) ++ after.
Proof.
  intros Hr. pose proof (cyd_calls_loop i st) as Hc; cbn zeta in Hc. rewrite Hc; clear Hc.
  rewrite cyd_renderStage_calls, cyd_renders_loop, Hr.
  destruct (cyd_renderTick_calls (in_now_drawn i)
              (exec (beatStage i) (set_currentSignal (in_sample i) st))) as (sC & -> & _).
  fold (at_draw i st).
  exists (calls (beatStage i) (set_currentSignal (in_sample i) st)).
  eexists. rewrite <- (app_assoc (calls drawWaveformColumn (at_draw i st))). reflexivity.
Qed.

Lemma cyd_loop_envelope i st :
  let st' := exec (loop i) st in
  (minSignal st' = 1800 /\ maxSignal st' = 2200) \/
  (if renders i st
   then minSignal st' = minSignal (at_draw i st) /\ maxSignal st' = maxSignal (at_draw i st)
   else minSignal st' = minSignal st /\ maxSignal st' = maxSignal st).
Proof.
  cbn zeta. rewrite cyd_exec_loop.
  set (s4 := exec (updateRgbLed _ _) _).
  assert (H4 : if renders i st
               then minSignal s4 = minSignal (at_draw i st) /\
                    maxSignal s4 = maxSignal (at_draw i st)
               else minSignal s4 = minSignal st /\ maxSignal s4 = maxSignal st).
  { subst s4. frame_out. rewrite cyd_renderStage_spec, cyd_renders_loop.
    destruct (renders i st).
    - apply cyd_renderTick_envelope.
    - frame_out. proj. split; reflexivity. }
  clearbody s4.
  pose proof (cyd_checkFingerTimeout_spec (in_now_timeout i) s4) as H; cbn zeta in H.
  destruct (_ && _).
  - left. tauto.
  - right. rewrite H. exact H4.
Qed.

Lemma cyd_loop_envelope_range i st :
  is_sample (in_sample i) ->
  0 <= minSignal st <= 4095 /\ 0 <= maxSignal st <= 4095 ->
  0 <= minSignal (exec (loop i) st) <= 4095 /\ 0 <= maxSignal (exec (loop i) st) <= 4095.
Proof.
  unfold is_sample; intros Hs [Hmn Hmx].
  destruct (cyd_at_draw_spec i st) as [Hdn Hdx].
  unfold iadd, isub in Hdn, Hdx.
  rewrite !wrap32_id in Hdn, Hdx by (unfold INT_MIN, INT_MAX; lia).
  destruct (cyd_loop_envelope i st) as [[-> ->]|H]; [lia|].
  destruct (renders i st); destruct H as [-> ->]; lia.
Qed.

Lemma cyd_booted_envelope ok now :
  minSignal (booted ok now) = 4095 /\ maxSignal (booted ok now) = 0.
Proof. destruct ok; split; reflexivity. Qed.

Lemma cyd_run_envelope_range ins st :
  Forall (fun j => is_sample (in_sample j)) ins ->
  0 <= minSignal st <= 4095 /\ 0 <= maxSignal st <= 4095 ->
  0 <= minSignal (run ins st) <= 4095 /\ 0 <= maxSignal (run ins st) <= 4095.
Proof.
  revert st; induction ins as [|i ins IH]; intros st Hs Hst; [exact Hst|].
  inversion Hs; subst. apply IH; [assumption|]. apply cyd_loop_envelope_range; assumption.
Qed.

Lemma cyd_beat_line_not_record bpm ibi : ~ is_status_record (beat_line bpm ibi).
Proof.
  unfold beat_line. rewrite <- !str_app_assoc. apply crlf_line_not_record.
Qed.

Lemma cyd_waiting_line_not_record : ~ is_status_record waiting_line.
Proof. apply crlf_line_not_record. Qed.

Lemma cyd_booted_buffer ok now : waveformBuffer (booted ok now) = replicate 320 2048.
Proof. destruct ok; vm_compute; reflexivity. Qed.

Lemma cyd_run_buffer_length ins st :
  length (waveformBuffer (run ins st)) = length (waveformBuffer st).
Proof.
  revert st; induction ins as [|i ins IH]; intros st; [reflexivity|].
  cbn [run foldl]. fold (run ins (exec (loop i) st)). rewrite IH, cyd_loop_buffer.
  destruct (renders i st); [apply length_insert | reflexivity].
Qed.

Lemma cyd_booted_fade ok now : ledFadeValue (booted ok now) = 0.
Proof. destruct ok; reflexivity. Qed.

Lemma cyd_run_fade_range ins st :
  0 <= ledFadeValue st <= 255 -> 0 <= ledFadeValue (run ins st) <= 255.
Proof.
  revert st; induction ins as [|i ins IH]; intros st H; [exact H|].
  apply IH, cyd_loop_fade_range, H.
Qed.

(** *** What is drawn when the finger times out *)

Lemma cyd_loop_timeout_clears i st :
  in_beat i = None ->
  fingerPresent st = true -> timed_out i st = true ->
  In (TftFillRect BPM_X BPM_Y 150 50 COLOR_BG) (calls (loop i) st) /\
  In (TftFillRect IBI_X (BOTTOM_Y + 16) 100 24 COLOR_BG) (calls (loop i) st) /\
  In (TftDrawString "Place finger" BPM_X (BPM_Y + 10) 2) (calls (loop i) st).
Proof.
  intros Hb Hfp Hto.
  pose proof (cyd_calls_loop i st) as Hc; cbn zeta in Hc. rewrite Hc; clear Hc.
  destruct (cyd_before_timeout_no_beat i st Hb) as (E1 & E2 & _).
  rewrite cyd_checkFingerTimeout_calls, E1, E2, Hfp.
  unfold timed_out in Hto. rewrite Hto. cbn [andb].
  repeat split; do 4 (apply in_or_app; right); apply in_or_app; left; simpl; tauto.
Qed.

End CYDFacts.

(** * The properties of the specification *)

(** C1, as stated, fails on the Dashboard sketch: the first render tick
    after [setup], at clock reading 1000 with sample 2000, leaves the
    envelope at [2000, 2048], a span of 48. *)
Lemma dashboard_span_below_floor :
  let i := Part000.quiet_at 1000 2000 in
  let st := exec (Part000.loop i) (Part000.booted true) in
  Part000.renders i (Part000.booted true) = true /\
  Part000.minSignal st = 2000 /\ Part000.maxSignal st = 2048 /\
  ~ (minimumSpan <= Part000.maxSignal st - Part000.minSignal st).
Proof. vm_compute. repeat split; try reflexivity. intros H; apply H; reflexivity. Qed.

(** C1, amended.  After every update of the auto-scaler: in
    [PulseSensor_CYD.ino] the envelope has max - min >= 400, above the
    floor; in the Dashboard sketch the envelope encloses the sample
    (min <= sample <= max, so max - min >= 0) and the floor of 100 is on
    the span the renderer scales by, [range = max(max - min, 100)].  The
    same after every iteration of [loop] in which the render tick is due. *)
Theorem envelope_span :
  (forall s : CYD.State,
     let s1 := exec CYD.updateMinMax s in
     minimumSpan <= 400 <= CYD.maxSignal s1 - CYD.minSignal s1) /\
  (forall i (st : CYD.State),
     let st' := exec (CYD.loop i) st in
     if CYD.renders i st then minimumSpan <= 400 <= CYD.maxSignal st' - CYD.minSignal st'
     else (CYD.minSignal st' = CYD.minSignal st /\ CYD.maxSignal st' = CYD.maxSignal st) \/
          (CYD.minSignal st' = 1800 /\ CYD.maxSignal st' = 2200)) /\
  (forall now (s : Part000.State),
     let s1 := exec (Part000.updateMinMax now) s in
     Part000.minSignal s1 <= Part000.currentSignal s <= Part000.maxSignal s1 /\
     minimumSpan <= Part000.range s1) /\
  (forall i (st : Part000.State),
     let st' := exec (Part000.loop i) st in
     (if Part000.renders i st
      then Part000.minSignal st' <= Part000.in_sample i <= Part000.maxSignal st'
      else Part000.minSignal st' = Part000.minSignal st /\
           Part000.maxSignal st' = Part000.maxSignal st) /\
     minimumSpan <= Part000.range st').
Proof.
  unfold minimumSpan. repeat split.
  - lia.
  - pose proof (CYDFacts.cyd_updateMinMax_bounds s). cbn zeta in *. lia.
  - intros i st. pose proof (CYDFacts.cyd_loop_envelope i st) as H; cbn zeta in *.
    pose proof (CYDFacts.cyd_updateMinMax_bounds
      (exec (CYD.storeSample (CYD.in_now_drawn i))
         (exec (CYD.beatStage i) (CYD.set_currentSignal (CYD.in_sample i) st)))) as B.
    cbn zeta in B. fold (CYD.at_draw i st) in B.
    destruct (CYD.renders i st).
    + destruct H as [[-> ->]|[-> ->]]; lia.
    + tauto.
  - apply Part000Facts.updateMinMax_spec.
  - apply Part000Facts.updateMinMax_spec.
  - apply Part000Facts.range_floor.
  - apply (Part000Facts.loop_envelope i st).
  - apply Part000Facts.range_floor.
Qed.

(** C5.  The envelope has min <= max after every operation that mutates
    it: in the Dashboard sketch after the widening, after a decay that is
    due, and after [updateMinMax]; in [PulseSensor_CYD.ino] after the
    widening, after the drift, after both, and after the reset of
    [resetDisplay].  An iteration of [loop] leaves the envelope ordered or
    as it was, and along every run from [setup] the envelope is ordered or
    still holds its initial values (4095, 0), no sample having been seen. *)
Theorem envelope_ordered :
  (forall s : Part000.State,
     Part000.minSignal (exec Part000.widenMinMax s)
     <= Part000.maxSignal (exec Part000.widenMinMax s)) /\
  (forall now (s : Part000.State),
     if usub now (Part000.lastDecay s) >? 100
     then Part000.minSignal (exec (Part000.decayMinMax now) s)
          <= Part000.maxSignal (exec (Part000.decayMinMax now) s)
     else exec (Part000.decayMinMax now) s = s) /\
  (forall now (s : Part000.State),
     Part000.minSignal (exec (Part000.updateMinMax now) s)
     <= Part000.maxSignal (exec (Part000.updateMinMax now) s)) /\
  (forall i (st : Part000.State),
     let st' := exec (Part000.loop i) st in
     Part000.minSignal st' <= Part000.maxSignal st' \/
     (Part000.minSignal st' = Part000.minSignal st /\
      Part000.maxSignal st' = Part000.maxSignal st)) /\
  (forall ok ins,
     let st := Part000.run ins (Part000.booted ok) in
     Part000.minSignal st <= Part000.maxSignal st \/
     (Part000.minSignal st = 4095 /\ Part000.maxSignal st = 0)) /\
  (forall s : CYD.State,
     CYD.minSignal (exec CYD.widenMinMax s) <= CYD.maxSignal (exec CYD.widenMinMax s)) /\
  (forall s : CYD.State,
     CYD.minSignal (exec CYD.driftMinMax s) <= CYD.maxSignal (exec CYD.driftMinMax s)) /\
  (forall s : CYD.State,
     CYD.minSignal (exec CYD.updateMinMax s) <= CYD.maxSignal (exec CYD.updateMinMax s)) /\
  (forall s : CYD.State,
     CYD.minSignal (exec CYD.resetDisplay s) <= CYD.maxSignal (exec CYD.resetDisplay s)) /\
  (forall i (st : CYD.State),
     let st' := exec (CYD.loop i) st in
     CYD.minSignal st' <= CYD.maxSignal st' \/
     (CYD.minSignal st' = CYD.minSignal st /\ CYD.maxSignal st' = CYD.maxSignal st)) /\
  (forall ok now ins,
     let st := CYD.run ins (CYD.booted ok now) in
     CYD.minSignal st <= CYD.maxSignal st \/
     (CYD.minSignal st = 4095 /\ CYD.maxSignal st = 0)).
Proof.
  repeat apply conj.
  - intros s. destruct (Part000Facts.widenMinMax_spec s) as [-> ->].
    unfold Arduino.min, Arduino.max. repeat case_match; lia.
  - intros now s. pose proof (Part000Facts.decayMinMax_spec now s) as H; cbn zeta in H.
    destruct (usub now (Part000.lastDecay s) >? 100); [|exact H].
    destruct H as [-> ->]. unfold Arduino.min, Arduino.max. repeat case_match; lia.
  - intros now s. pose proof (Part000Facts.updateMinMax_spec now s). cbn zeta in *. lia.
  - intros i st. pose proof (Part000Facts.loop_envelope i st) as H; cbn zeta in *.
    destruct (Part000.renders i st); [left; lia | right; exact H].
  - intros ok ins. apply Part000Facts.run_envelope.
    right. destruct (Part000Facts.booted_state ok) as (_ & _ & -> & ->). auto.
  - intros s. destruct (CYDFacts.cyd_widenMinMax_spec s) as (-> & -> & _). lia.
  - intros s. destruct (CYDFacts.cyd_driftMinMax_spec s) as [-> ->]. lia.
  - intros s. pose proof (CYDFacts.cyd_updateMinMax_bounds s). cbn zeta in *. lia.
  - intros s. destruct (CYDFacts.cyd_resetDisplay_spec s) as (-> & -> & _). lia.
  - intros i st. pose proof (CYDFacts.cyd_loop_envelope i st) as H; cbn zeta in *.
    pose proof (CYDFacts.cyd_updateMinMax_bounds
      (exec (CYD.storeSample (CYD.in_now_drawn i))
         (exec (CYD.beatStage i) (CYD.set_currentSignal (CYD.in_sample i) st)))) as B.
    cbn zeta in B. fold (CYD.at_draw i st) in B.
    destruct H as [[-> ->]|H]; [left; lia|].
    destruct (CYD.renders i st); [left; destruct H as [-> ->]; lia | right; exact H].
  - intros ok now ins. cbn zeta.
    assert (G : forall st,
      CYD.minSignal st <= CYD.maxSignal st \/
        (CYD.minSignal st = 4095 /\ CYD.maxSignal st = 0) ->
      CYD.minSignal (CYD.run ins st) <= CYD.maxSignal (CYD.run ins st) \/
        (CYD.minSignal (CYD.run ins st) = 4095 /\ CYD.maxSignal (CYD.run ins st) = 0)).
    { induction ins as [|i ins IH]; intros st H; [exact H|].
      apply IH. pose proof (CYDFacts.cyd_loop_envelope i st) as HL; cbn zeta in HL.
      pose proof (CYDFacts.cyd_updateMinMax_bounds
        (exec (CYD.storeSample (CYD.in_now_drawn i))
           (exec (CYD.beatStage i) (CYD.set_currentSignal (CYD.in_sample i) st)))) as B.
      cbn zeta in B. fold (CYD.at_draw i st) in B.
      destruct HL as [[-> ->]|HL]; [left; lia|].
      destruct (CYD.renders i st); destruct HL as [-> ->]; [left; lia | exact H]. }
    apply G. right. apply CYDFacts.cyd_booted_envelope.
Qed.

(** C9.  In [drawWaveformColumn] of [PulseSensor_CYD.ino] the floored
    [range] is not used: the rows are [map(sample, minSignal, maxSignal, ...)],
    which divides by [maxSignal - minSignal].  The column is drawn in the
    state that [updateMinMax] has just left, where minSignal <= 1800 and
    maxSignal >= 2200; with the samples in the range of the converter the
    divisor is max - min, at least 400, and [map] never takes its zero-run
    exit. *)
Theorem map_divisor_at_least_400 :
  forall ok now ins i,
    Forall (fun j => is_sample (CYD.in_sample j)) (ins ++ [i]) ->
    let st := CYD.run ins (CYD.booted ok now) in
    let sD := CYD.at_draw i st in
    let divisor := isub (CYD.maxSignal sD) (CYD.minSignal sD) in
    let row v :=
      Arduino.constrain
        (iadd (idiv (imul (isub v (CYD.minSignal sD))
                          (isub (CYD.WAVEFORM_TOP + 5) (CYD.WAVEFORM_BOTTOM - 5)))
                    divisor)
              (CYD.WAVEFORM_BOTTOM - 5))
        CYD.WAVEFORM_TOP CYD.WAVEFORM_BOTTOM in
    let x := CYD.waveformIndex sD in
    let y1 := row (CYD.buffer_get (CYD.waveformBuffer sD)
                     (irem (iadd (isub x 1) CYD.WAVEFORM_SAMPLES) CYD.WAVEFORM_SAMPLES)) in
    let y2 := row (CYD.buffer_get (CYD.waveformBuffer sD) x) in
    CYD.minSignal sD <= 1800 /\ 2200 <= CYD.maxSignal sD /\
    divisor = CYD.maxSignal sD - CYD.minSignal sD /\ 400 <= divisor /\
    calls CYD.drawWaveformColumn sD =
      [TftDrawFastVLine x CYD.WAVEFORM_TOP CYD.WAVEFORM_HEIGHT CYD.COLOR_BG;
       TftDrawLine (isub x 1) (y1 + 0) x (y2 + 0) CYD.COLOR_WAVEFORM;
       TftDrawLine (isub x 1) (y1 + 1) x (y2 + 1) CYD.COLOR_WAVEFORM;
       TftDrawLine (isub x 1) (y1 + 2) x (y2 + 2) CYD.COLOR_WAVEFORM;
       TftDrawFastVLine (irem (iadd x 10) CYD.SCREEN_WIDTH) CYD.WAVEFORM_TOP
         CYD.WAVEFORM_HEIGHT CYD.COLOR_BG] /\
    (if CYD.renders i st
     then exists before after,
            calls (CYD.loop i) st = before ++ calls CYD.drawWaveformColumn sD ++ after
     else True).
Proof.
  intros ok now ins i Hs; cbn zeta.
  apply Forall_app in Hs as [Hins Hi]. inversion Hi as [|? ? Hsi _]; subst.
  set (st := CYD.run ins (CYD.booted ok now)).
  assert (Hst : 0 <= CYD.minSignal st <= 4095 /\ 0 <= CYD.maxSignal st <= 4095).
  { apply CYDFacts.cyd_run_envelope_range; [exact Hins|].
    destruct (CYDFacts.cyd_booted_envelope ok now) as [-> ->]. lia. }
  destruct (CYDFacts.cyd_at_draw_spec i st) as [Hn Hx].
  unfold is_sample in Hsi. unfold iadd, isub in Hn, Hx.
  rewrite !wrap32_id in Hn, Hx by (unfold INT_MIN, INT_MAX; lia).
  assert (Hd : isub (CYD.maxSignal (CYD.at_draw i st)) (CYD.minSignal (CYD.at_draw i st))
               = CYD.maxSignal (CYD.at_draw i st) - CYD.minSignal (CYD.at_draw i st)).
  { unfold isub. apply wrap32_id. unfold INT_MIN, INT_MAX. lia. }
  split; [lia|]. split; [lia|]. split; [exact Hd|]. split; [rewrite Hd; lia|]. split.
  - pose proof (CYDFacts.cyd_drawWaveformColumn_calls (CYD.at_draw i st)) as Hc.
    cbn zeta in Hc. rewrite Hc.
    rewrite !CYDFacts.cyd_map_run by (rewrite Hd; lia). reflexivity.
  - destruct (CYD.renders i st) eqn:Hr; [|exact I].
    apply CYDFacts.cyd_loop_draws, Hr.
Qed.

(** The divisor at the second render tick of a run with samples 2000, 2100. *)
Lemma map_divisor_at_least_400_witness :
  Forall (fun j => is_sample (CYD.in_sample j))
    ([CYD.quiet_at 1000 2000] ++ [CYD.quiet_at 1020 2100]) /\
  400 <= isub
    (CYD.maxSignal (CYD.at_draw (CYD.quiet_at 1020 2100)
       (CYD.run [CYD.quiet_at 1000 2000] (CYD.booted true 500))))
    (CYD.minSignal (CYD.at_draw (CYD.quiet_at 1020 2100)
       (CYD.run [CYD.quiet_at 1000 2000] (CYD.booted true 500)))).
Proof.
  assert (H : Forall (fun j => is_sample (CYD.in_sample j))
                ([CYD.quiet_at 1000 2000] ++ [CYD.quiet_at 1020 2100])).
  { repeat constructor; vm_compute; discriminate. }
  split; [exact H|].
  exact (proj1 (proj2 (proj2 (proj2
    (map_divisor_at_least_400 true 500 [CYD.quiet_at 1000 2000] (CYD.quiet_at 1020 2100) H))))).
Defined.

(** C6.  On every render tick the write cursor advances by one and wraps
    to zero at the width of the screen, 320.  In every state reached from
    [setup] the cursor is inside the buffer, [0 <= cursor < 320]; an
    iteration in which the render tick is due stores the sample at the
    cursor and moves the cursor to [(cursor + 1) mod 320], any other
    iteration leaves cursor and buffer alone; and of the indices written
    during a run, two that are fewer than 320 writes apart differ.  In both
    sketches. *)
Theorem cursor_advances_and_wraps :
  (forall ok ins,
     let st := Part000.run ins (Part000.booted ok) in
     0 <= Part000.waveformX st < 320 /\
     length (Part000.waveformBuffer st) = 320%nat /\
     (forall i,
        let st' := exec (Part000.loop i) st in
        if Part000.renders i st then
          Part000.waveformX st' = (Part000.waveformX st + 1) mod 320 /\
          Part000.waveformBuffer st' =
            <[Z.to_nat (Part000.waveformX st) := Part000.in_sample i]>
              (Part000.waveformBuffer st)
        else
          Part000.waveformX st' = Part000.waveformX st /\
          Part000.waveformBuffer st' = Part000.waveformBuffer st) /\
     (forall j k a b,
        (j < k < j + 320)%nat ->
        Part000.writes ins (Part000.booted ok) !! j = Some a ->
        Part000.writes ins (Part000.booted ok) !! k = Some b ->
        a <> b)) /\
  (forall ok now ins,
     let st := CYD.run ins (CYD.booted ok now) in
     0 <= CYD.waveformIndex st < 320 /\
     length (CYD.waveformBuffer st) = 320%nat /\
     (forall i,
        let st' := exec (CYD.loop i) st in
        if CYD.renders i st then
          CYD.waveformIndex st' = (CYD.waveformIndex st + 1) mod 320 /\
          CYD.waveformBuffer st' =
            <[Z.to_nat (CYD.waveformIndex st) := CYD.in_sample i]> (CYD.waveformBuffer st)
        else
          CYD.waveformIndex st' = CYD.waveformIndex st /\
          CYD.waveformBuffer st' = CYD.waveformBuffer st) /\
     (forall j k a b,
        (j < k < j + 320)%nat ->
        CYD.writes ins (CYD.booted ok now) !! j = Some a ->
        CYD.writes ins (CYD.booted ok now) !! k = Some b ->
        a <> b)).
Proof.
  split.
  - intros ok ins; cbn zeta.
    assert (Hb : 0 <= Part000.waveformX (Part000.booted ok) < Part000.SCREEN_WIDTH).
    { rewrite Part000Facts.booted_cursor. unfold Part000.SCREEN_WIDTH. lia. }
    pose proof (Part000Facts.run_cursor_range ins _ Hb) as Hx.
    split; [exact Hx|]. split.
    { rewrite Part000Facts.run_buffer_length, Part000Facts.booted_buffer.
      apply length_replicate. }
    split.
    + intros i. rewrite Part000Facts.loop_cursor by exact Hx.
      rewrite Part000Facts.loop_buffer.
      destruct (Part000.renders i _); split; reflexivity.
    + intros j k a b Hjk Hj Hk.
      apply Part000Facts.writes_lookup in Hj; [|exact Hb].
      apply Part000Facts.writes_lookup in Hk; [|exact Hb].
      subst a b. apply Part000Facts.mod_shift_distinct, Hjk.
  - intros ok now ins; cbn zeta.
    assert (Hb : 0 <= CYD.waveformIndex (CYD.booted ok now) < CYD.SCREEN_WIDTH).
    { rewrite CYDFacts.cyd_booted_cursor. unfold CYD.SCREEN_WIDTH. lia. }
    pose proof (CYDFacts.cyd_run_cursor_range ins _ Hb) as Hx.
    split; [exact Hx|]. split.
    { rewrite CYDFacts.cyd_run_buffer_length, CYDFacts.cyd_booted_buffer.
      apply length_replicate. }
    split.
    + intros i. rewrite CYDFacts.cyd_loop_cursor by exact Hx.
      rewrite CYDFacts.cyd_loop_buffer.
      destruct (CYD.renders i _); split; reflexivity.
    + intros j k a b Hjk Hj Hk.
      apply CYDFacts.cyd_writes_lookup in Hj; [|exact Hb].
      apply CYDFacts.cyd_writes_lookup in Hk; [|exact Hb].
      subst a b. apply Part000Facts.mod_shift_distinct, Hjk.
Qed.

(** The first two writes of a run of the Dashboard sketch go to columns 0 and 1. *)
Lemma cursor_advances_and_wraps_witness :
  let ins := [Part000.quiet_at 1000 2000; Part000.quiet_at 1010 2100] in
  (0 < 1 < 0 + 320)%nat /\
  Part000.writes ins (Part000.booted true) !! 0%nat = Some 0 /\
  Part000.writes ins (Part000.booted true) !! 1%nat = Some 1 /\
  (0 : Z) <> 1.
Proof.
  cbn zeta.
  assert (H0 : (0 < 1 < 0 + 320)%nat) by lia.
  assert (H1 : Part000.writes [Part000.quiet_at 1000 2000; Part000.quiet_at 1010 2100]
                 (Part000.booted true) !! 0%nat = Some 0) by (vm_compute; reflexivity).
  assert (H2 : Part000.writes [Part000.quiet_at 1000 2000; Part000.quiet_at 1010 2100]
                 (Part000.booted true) !! 1%nat = Some 1) by (vm_compute; reflexivity).
  split; [exact H0|]. split; [exact H1|]. split; [exact H2|].
  exact (proj2 (proj2 (proj2 (proj1 cursor_advances_and_wraps true
           [Part000.quiet_at 1000 2000; Part000.quiet_at 1010 2100])))
         0%nat 1%nat 0 1 H0 H1 H2).
Defined.

(** C3.  When, after the last beat, more than the timeout of 3000 ms
    passes without another beat, the presence goes from present to absent
    exactly once: over a run of iterations without beat, started with the
    finger present, the presence stays until the first iteration whose
    clock reading is more than 3000 ms after the last beat; in that
    iteration it is cleared and the BPM and IBI readouts are reset (to 0,
    redrawn as dashes unless 0 was cached already, in the Dashboard sketch;
    to -1, with both fields cleared, in [PulseSensor_CYD.ino]) and the
    notice is written to the serial port; it stays cleared afterwards, so
    the run counts one transition. *)
Theorem presence_times_out_once :
  (forall (st : Part000.State) pre i post,
     Part000.fingerPresent st = true ->
     Forall Part000.no_beat (pre ++ i :: post) ->
     Forall (fun j => Part000.timed_out j st = false) pre ->
     Part000.timed_out i st = true ->
     let st1 := Part000.run pre st in
     let st2 := exec (Part000.loop i) st1 in
     Part000.fingerPresent st1 = true /\ Part000.transitions pre st = 0%nat /\
     Part000.fingerPresent st2 = false /\
     Part000.currentBPM st2 = 0 /\ Part000.currentIBI st2 = 0 /\
     Part000.lastDisplayedBPM st2 = 0 /\ Part000.lastDisplayedIBI st2 = 0 /\
     serial_writes (calls (Part000.loop i) st1) = [Part000.no_finger_line] /\
     ((Part000.lastDisplayedBPM st1 =? 0) = false ->
      Exists (fun e => Part000.clears_bpm e = true) (calls (Part000.loop i) st1)) /\
     ((Part000.lastDisplayedIBI st1 =? 0) = false ->
      Exists (fun e => Part000.clears_ibi e = true) (calls (Part000.loop i) st1)) /\
     Part000.fingerPresent (Part000.run post st2) = false /\
     Part000.transitions (pre ++ i :: post) st = 1%nat) /\
  (forall (st : CYD.State) pre i post,
     CYD.fingerPresent st = true ->
     Forall CYD.no_beat (pre ++ i :: post) ->
     Forall (fun j => CYD.timed_out j st = false) pre ->
     CYD.timed_out i st = true ->
     let st1 := CYD.run pre st in
     let st2 := exec (CYD.loop i) st1 in
     CYD.fingerPresent st1 = true /\ CYD.transitions pre st = 0%nat /\
     CYD.fingerPresent st2 = false /\
     CYD.lastDisplayedBPM st2 = -1 /\ CYD.lastDisplayedIBI st2 = -1 /\
     serial_writes (calls (CYD.loop i) st1) = [CYD.waiting_line] /\
     In (TftFillRect CYD.BPM_X CYD.BPM_Y 150 50 CYD.COLOR_BG) (calls (CYD.loop i) st1) /\
     In (TftFillRect CYD.IBI_X (CYD.BOTTOM_Y + 16) 100 24 CYD.COLOR_BG)
        (calls (CYD.loop i) st1) /\
     CYD.fingerPresent (CYD.run post st2) = false /\
     CYD.transitions (pre ++ i :: post) st = 1%nat).
Proof.
  split.
  - intros st pre i post Hfp Hnb Hpre Hi; cbn zeta.
    apply Forall_app in Hnb as [Hnb1 Hnb2]. inversion Hnb2 as [|? ? Hnbi Hnb3]; subst.
    destruct (Part000Facts.run_no_beat_before pre st Hnb1 Hpre) as (H1 & H2 & H3).
    rewrite Hfp in H1.
    pose proof (Part000Facts.loop_presence_no_beat i (Part000.run pre st) Hnbi) as [_ H4].
    assert (Hto : Part000.timed_out i (Part000.run pre st) = true).
    { unfold Part000.timed_out in *. rewrite H2. exact Hi. }
    rewrite H1, Hto in H4. cbn [andb] in H4.
    destruct H4 as (F1 & F2 & F3 & F4 & F5).
    destruct (Part000Facts.run_no_beat_absent post _ Hnb3 F1) as (G1 & G2).
    destruct (Part000Facts.loop_timeout_redraws i _ Hnbi H1 Hto) as (D1 & D2).
    repeat split; try assumption.
    + rewrite (Part000Facts.loop_serial_no_beat _ _ Hnbi), H1, Hto. reflexivity.
    + rewrite Part000Facts.transitions_app, H3.
      cbn [Part000.transitions]. rewrite H1, F1, G2. reflexivity.
  - intros st pre i post Hfp Hnb Hpre Hi; cbn zeta.
    apply Forall_app in Hnb as [Hnb1 Hnb2]. inversion Hnb2 as [|? ? Hnbi Hnb3]; subst.
    destruct (CYDFacts.cyd_run_no_beat_before pre st Hnb1 Hpre) as (H1 & H2 & H3).
    rewrite Hfp in H1.
    pose proof (CYDFacts.cyd_loop_presence_no_beat i (CYD.run pre st) Hnbi) as [_ H4].
    assert (Hto : CYD.timed_out i (CYD.run pre st) = true).
    { unfold CYD.timed_out in *. rewrite H2. exact Hi. }
    rewrite H1, Hto in H4. cbn [andb] in H4.
    destruct H4 as (F1 & F2 & F3 & F4 & F5).
    destruct (CYDFacts.cyd_run_no_beat_absent post _ Hnb3 F1) as (G1 & G2).
    destruct (CYDFacts.cyd_loop_timeout_clears i _ Hnbi H1 Hto) as (D1 & D2 & _).
    repeat split; try assumption.
    + rewrite (CYDFacts.cyd_loop_serial_no_beat _ _ Hnbi), H1, Hto. reflexivity.
    + rewrite CYDFacts.cyd_transitions_app, H3.
      cbn [CYD.transitions]. rewrite H1, F1, G2. reflexivity.
Qed.

(** A beat at 1000 ms, then quiet iterations at 2000, 4000, 4001, 4010 and
    9000 ms: the finger is present up to 4000 and gone from 4001 on. *)
Lemma presence_times_out_once_witness :
  let st := exec (Part000.loop (Part000.beat_at 1000 2000 72 833)) (Part000.booted true) in
  let pre := [Part000.quiet_at 2000 2010; Part000.quiet_at 4000 2020] in
  let i := Part000.quiet_at 4001 2030 in
  let post := [Part000.quiet_at 4010 2040; Part000.quiet_at 9000 2050] in
  Part000.fingerPresent st = true /\
  Forall Part000.no_beat (pre ++ i :: post) /\
  Forall (fun j => Part000.timed_out j st = false) pre /\
  Part000.timed_out i st = true /\
  Part000.fingerPresent (Part000.run pre st) = true /\
  Part000.fingerPresent (exec (Part000.loop i) (Part000.run pre st)) = false /\
  Part000.transitions (pre ++ i :: post) st = 1%nat.
Proof.
  cbn zeta.
  set (st := exec (Part000.loop (Part000.beat_at 1000 2000 72 833)) (Part000.booted true)).
  set (pre := [Part000.quiet_at 2000 2010; Part000.quiet_at 4000 2020]).
  set (i := Part000.quiet_at 4001 2030).
  set (post := [Part000.quiet_at 4010 2040; Part000.quiet_at 9000 2050]).
  assert (H1 : Part000.fingerPresent st = true) by (vm_compute; reflexivity).
  assert (H2 : Forall Part000.no_beat (pre ++ i :: post)) by (repeat constructor).
  assert (H3 : Forall (fun j => Part000.timed_out j st = false) pre)
    by (repeat constructor; vm_compute; reflexivity).
  assert (H4 : Part000.timed_out i st = true) by (vm_compute; reflexivity).
  pose proof (proj1 presence_times_out_once st pre i post H1 H2 H3 H4) as H.
  cbn zeta in H.
  split; [exact H1|]. split; [exact H2|]. split; [exact H3|]. split; [exact H4|].
  split; [apply H|]. split; apply H.
Defined.

(** C4.  Between two consecutive iterations of [loop] without a beat the
    LED brightness does not increase: a decay that is due subtracts the
    fade step (4 in the Dashboard sketch, 8 in [PulseSensor_CYD.ino]),
    floored at zero, and otherwise the brightness stays.  On a beat the
    brightness is set to the maximum, 255 (in the Dashboard sketch the red
    channel is driven fully on, duty 0 of the active-low LED; the decay of
    the same iteration may already take one step off the value).  Along every run from [setup] the
    brightness stays in [0, 255]. *)
Theorem led_fades_between_beats :
  (forall ok ins i,
     let st := Part000.run ins (Part000.booted ok) in
     let st' := exec (Part000.loop i) st in
     let due := usub (Part000.in_now_led i) (Part000.lastLedUpdate st) >=? 10 in
     0 <= Part000.ledBrightness st <= Part000.LED_MAX_BRIGHTNESS /\
     match Part000.in_beat i with
     | None =>
         Part000.ledBrightness st' <= Part000.ledBrightness st /\
         Part000.ledBrightness st' =
           (if due then Z.max 0 (Part000.ledBrightness st - Part000.LED_FADE_SPEED)
            else Part000.ledBrightness st)
     | Some (bpm, ibi) =>
         Part000.ledBrightness
           (exec (Part000.onBeat (Part000.in_now i) bpm ibi)
              (Part000.set_currentSignal (Part000.in_sample i) st))
           = Part000.LED_MAX_BRIGHTNESS /\
         In (LedcWrite Part000.LED_RED_PIN (255 - Part000.LED_MAX_BRIGHTNESS))
            (calls (Part000.onBeat (Part000.in_now i) bpm ibi)
               (Part000.set_currentSignal (Part000.in_sample i) st)) /\
         Part000.ledBrightness st' =
           (if due then Part000.LED_MAX_BRIGHTNESS - Part000.LED_FADE_SPEED
            else Part000.LED_MAX_BRIGHTNESS)
     end) /\
  (forall ok now ins i,
     let st := CYD.run ins (CYD.booted ok now) in
     let st' := exec (CYD.loop i) st in
     let due := usub (CYD.in_now_led i) (CYD.lastLedUpdate st) >? 10 in
     0 <= CYD.ledFadeValue st <= 255 /\
     match CYD.in_beat i with
     | None =>
         CYD.ledFadeValue st' <= CYD.ledFadeValue st /\
         CYD.ledFadeValue st' =
           (if due then Z.max 0 (CYD.ledFadeValue st - 8) else CYD.ledFadeValue st)
     | Some (bpm, ibi) =>
         CYD.ledFadeValue
           (exec (CYD.onBeat (CYD.in_now_beat i) bpm ibi)
              (CYD.set_currentSignal (CYD.in_sample i) st)) = 255 /\
         CYD.ledFadeValue st' = (if due then 255 - 8 else 255)
     end).
Proof.
  split.
  - intros ok ins i; cbn zeta.
    assert (Hr : 0 <= Part000.ledBrightness (Part000.run ins (Part000.booted ok)) <= 255).
    { apply Part000Facts.run_brightness_range.
      destruct (Part000Facts.booted_state ok) as (_ & -> & _). lia. }
    set (st := Part000.run ins (Part000.booted ok)) in *.
    split; [exact Hr|].
    destruct (Part000.in_beat i) as [[bpm ibi]|] eqn:Hb.
    + split; [apply Part000Facts.onBeat_brightness|]. split.
      * rewrite Part000Facts.onBeat_calls, Part000Facts.flashLED_calls.
        apply in_or_app; left. left. reflexivity.
      * apply (Part000Facts.loop_brightness_beat _ _ _ _ Hb).
    + rewrite (Part000Facts.loop_brightness_no_beat _ _ Hb).
      split; [apply Part000Facts.updateLED_le|].
      rewrite Part000Facts.updateLED_brightness.
      destruct (usub _ _ >=? 10); cbn [andb]; [|reflexivity].
      destruct (Z.gtb_spec (Part000.ledBrightness st) 0).
      * apply Part000Facts.fade_step_exact; unfold Part000.LED_FADE_SPEED; lia.
      * unfold Part000.LED_FADE_SPEED. lia.
  - intros ok now ins i; cbn zeta.
    assert (Hr : 0 <= CYD.ledFadeValue (CYD.run ins (CYD.booted ok now)) <= 255).
    { apply CYDFacts.cyd_run_fade_range. rewrite CYDFacts.cyd_booted_fade. lia. }
    set (st := CYD.run ins (CYD.booted ok now)) in *.
    split; [exact Hr|].
    destruct (CYD.in_beat i) as [[bpm ibi]|] eqn:Hb.
    + split; [apply CYDFacts.cyd_onBeat_spec|].
      apply (CYDFacts.cyd_loop_fade_beat _ _ _ _ Hb).
    + rewrite (CYDFacts.cyd_loop_fade_no_beat _ _ Hb).
      split; [apply CYDFacts.cyd_updateRgbLed_le|].
      rewrite CYDFacts.cyd_updateRgbLed_fade.
      destruct (Z.gtb_spec (CYD.ledFadeValue st) 0); cbn [andb].
      * destruct (usub _ _ >? 10); [|reflexivity].
        cbn zeta. unfold isub. rewrite wrap32_id by (unfold INT_MIN, INT_MAX; lia).
        destruct (Z.ltb_spec (CYD.ledFadeValue st - 8) 0); lia.
      * destruct (usub _ _ >? 10); lia.
Qed.

(** C10.  In the Dashboard sketch the signal readout can be redrawn only
    in an iteration in which the render tick is due and the advanced cursor
    is a multiple of 10, and there it is redrawn when the sample differs
    from the value shown by more than 30.  In every other iteration the
    value shown stays and the readout is not cleared, whatever the sample. *)
Theorem signal_readout_every_tenth_column :
  forall i (st : Part000.State),
    let st' := exec (Part000.loop i) st in
    if Part000.renders i st && (irem (Part000.waveformX st') 10 =? 0) then
      if Arduino.abs (isub (Part000.in_sample i) (Part000.lastDisplayedSignal st)) >? 30
      then Part000.lastDisplayedSignal st' = Part000.in_sample i /\
           Exists (fun e => Part000.clears_signal e = true) (calls (Part000.loop i) st)
      else Part000.lastDisplayedSignal st' = Part000.lastDisplayedSignal st /\
           Forall (fun e => Part000.clears_signal e = false) (calls (Part000.loop i) st)
    else
      Part000.lastDisplayedSignal st' = Part000.lastDisplayedSignal st /\
      Forall (fun e => Part000.clears_signal e = false) (calls (Part000.loop i) st).
Proof.
  intros i st; cbn zeta.
  pose proof (Part000Facts.loop_signal i st) as H; cbn zeta in H.
  destruct (Part000.renders i st && (irem _ 10 =? 0)); cbn [andb] in *.
  - destruct (_ >? 30); exact H.
  - exact H.
Qed.

(** A render tick on which the sample is 1000 away from the value shown and
    the readout still is not redrawn: the cursor advances to 1. *)
Example signal_readout_skipped :
  let i := Part000.quiet_at 1000 1000 in
  let st := Part000.booted true in
  Part000.renders i st = true /\
  Part000.waveformX (exec (Part000.loop i) st) = 1 /\
  Part000.lastDisplayedSignal (exec (Part000.loop i) st) = -1.
Proof. vm_compute. repeat split. Qed.

(** C2, as stated, fails on [PulseSensor_CYD.ino]: with 2000 on the signal
    readout, the next render tick with sample 2001, one unit away, redraws
    the readout. *)
Lemma signal_redrawn_on_small_change :
  let st := CYD.run [CYD.quiet_at 1000 2000] (CYD.booted true 500) in
  let i := CYD.quiet_at 1020 2001 in
  CYD.lastDisplayedSignal st = 2000 /\
  Z.abs (CYD.in_sample i - CYD.lastDisplayedSignal st) <= 30 /\
  In (TftDrawNumber 2001 CYD.SIGNAL_X (CYD.BOTTOM_Y + 16) 4) (calls (CYD.loop i) st) /\
  CYD.lastDisplayedSignal (exec (CYD.loop i) st) = 2001.
Proof.
  vm_compute. split; [reflexivity|]. split; [discriminate|]. split; [|reflexivity].
  repeat (first [left; reflexivity | right]).
Qed.

(** C2, amended.  A numeric field is redrawn, and its cached value
    updated, only when the new value differs from the value last drawn;
    the same value twice in a row redraws nothing the second time.  For
    BPM and IBI the test is equality, in both sketches.  For the raw signal
    the Dashboard sketch redraws when the sample differs from the value
    shown by more than 30 (on the render ticks that advance the cursor to a
    multiple of 10), while [PulseSensor_CYD.ino] redraws whenever the
    sample differs from the value shown at all. *)
Theorem fields_redrawn_on_change :
  (forall v (s : CYD.State),
     (if v =? CYD.lastDisplayedBPM s
      then exec (CYD.drawBPM v) s = s /\ calls (CYD.drawBPM v) s = []
      else CYD.lastDisplayedBPM (exec (CYD.drawBPM v) s) = v /\
           In (TftDrawNumber v CYD.BPM_X CYD.BPM_Y 7) (calls (CYD.drawBPM v) s)) /\
     calls (CYD.drawBPM v) (exec (CYD.drawBPM v) s) = []) /\
  (forall v (s : CYD.State),
     (if v =? CYD.lastDisplayedIBI s
      then exec (CYD.drawIBI v) s = s /\ calls (CYD.drawIBI v) s = []
      else CYD.lastDisplayedIBI (exec (CYD.drawIBI v) s) = v /\
           In (TftDrawString (dec v +:+ "ms") CYD.IBI_X (CYD.BOTTOM_Y + 16) 4)
              (calls (CYD.drawIBI v) s)) /\
     calls (CYD.drawIBI v) (exec (CYD.drawIBI v) s) = []) /\
  (forall v (s : CYD.State),
     (if v =? CYD.lastDisplayedSignal s
      then exec (CYD.drawSignal v) s = s /\ calls (CYD.drawSignal v) s = []
      else CYD.lastDisplayedSignal (exec (CYD.drawSignal v) s) = v /\
           In (TftDrawNumber v CYD.SIGNAL_X (CYD.BOTTOM_Y + 16) 4)
              (calls (CYD.drawSignal v) s)) /\
     calls (CYD.drawSignal v) (exec (CYD.drawSignal v) s) = []) /\
  (forall now now' bpm ibi (s : Part000.State),
     let s1 := exec (Part000.onBeat now bpm ibi) s in
     Part000.lastDisplayedBPM s1 = bpm /\ Part000.lastDisplayedIBI s1 = ibi /\
     (if bpm =? Part000.lastDisplayedBPM s
      then Forall (fun e => Part000.clears_bpm e = false)
             (calls (Part000.onBeat now bpm ibi) s)
      else Exists (fun e => Part000.clears_bpm e = true)
             (calls (Part000.onBeat now bpm ibi) s)) /\
     (if ibi =? Part000.lastDisplayedIBI s
      then Forall (fun e => Part000.clears_ibi e = false)
             (calls (Part000.onBeat now bpm ibi) s)
      else Exists (fun e => Part000.clears_ibi e = true)
             (calls (Part000.onBeat now bpm ibi) s)) /\
     Forall (fun e => Part000.clears_bpm e = false)
       (calls (Part000.onBeat now' bpm ibi) s1) /\
     Forall (fun e => Part000.clears_ibi e = false)
       (calls (Part000.onBeat now' bpm ibi) s1)) /\
  (forall i (st : Part000.State),
     let st' := exec (Part000.loop i) st in
     if Part000.renders i st && (irem (Part000.waveformX st') 10 =? 0) &&
        (Arduino.abs (isub (Part000.in_sample i) (Part000.lastDisplayedSignal st)) >? 30)
     then Part000.lastDisplayedSignal st' = Part000.in_sample i /\
          Exists (fun e => Part000.clears_signal e = true) (calls (Part000.loop i) st)
     else Part000.lastDisplayedSignal st' = Part000.lastDisplayedSignal st /\
          Forall (fun e => Part000.clears_signal e = false) (calls (Part000.loop i) st)) /\
  (forall a b,
     is_sample a -> -1 <= b <= 4095 -> Arduino.abs (isub a b) = Z.abs (a - b)).
Proof.
  repeat apply conj.
  - intros v s. pose proof (CYDFacts.cyd_drawBPM_spec v s) as H.
    pose proof (CYDFacts.cyd_drawBPM_spec v (exec (CYD.drawBPM v) s)) as H'.
    rewrite CYDFacts.cyd_drawBPM_shown, Z.eqb_refl in H'. split; [|apply H'].
    destruct (v =? CYD.lastDisplayedBPM s); [exact H|].
    destruct H as [-> ->]. split; [reflexivity|]. simpl. tauto.
  - intros v s. pose proof (CYDFacts.cyd_drawIBI_spec v s) as H.
    pose proof (CYDFacts.cyd_drawIBI_spec v (exec (CYD.drawIBI v) s)) as H'.
    rewrite CYDFacts.cyd_drawIBI_shown, Z.eqb_refl in H'. split; [|apply H'].
    destruct (v =? CYD.lastDisplayedIBI s); [exact H|].
    destruct H as [-> ->]. split; [reflexivity|]. simpl. tauto.
  - intros v s. pose proof (CYDFacts.cyd_drawSignal_spec v s) as H.
    pose proof (CYDFacts.cyd_drawSignal_spec v (exec (CYD.drawSignal v) s)) as H'.
    rewrite CYDFacts.cyd_drawSignal_shown, Z.eqb_refl in H'. split; [|apply H'].
    destruct (v =? CYD.lastDisplayedSignal s); [exact H|].
    destruct H as [-> ->]. split; [reflexivity|]. simpl. tauto.
  - intros now now' bpm ibi s; cbn zeta.
    destruct (Part000Facts.onBeat_spec now bpm ibi s) as (_ & _ & _ & _ & HB & HI).
    pose proof (Part000Facts.onBeat_redraws_bpm now' bpm ibi
                  (exec (Part000.onBeat now bpm ibi) s)) as R1.
    pose proof (Part000Facts.onBeat_redraws_ibi now' bpm ibi
                  (exec (Part000.onBeat now bpm ibi) s)) as R2.
    rewrite HB, Z.eqb_refl in R1. rewrite HI, Z.eqb_refl in R2.
    repeat split; try assumption.
    + apply Part000Facts.onBeat_redraws_bpm.
    + apply Part000Facts.onBeat_redraws_ibi.
  - intros i st. apply Part000Facts.loop_signal.
  - apply Part000Facts.abs_diff_in_range.
Qed.

(** The threshold test on sample 2100 against 2000 on the readout. *)
Lemma fields_redrawn_on_change_witness :
  is_sample 2100 /\ -1 <= 2000 <= 4095 /\
  Arduino.abs (isub 2100 2000) = Z.abs (2100 - 2000).
Proof.
  assert (H1 : is_sample 2100) by (unfold is_sample; lia).
  assert (H2 : -1 <= 2000 <= 4095) by lia.
  split; [exact H1|]. split; [exact H2|].
  exact (proj2 (proj2 (proj2 (proj2 (proj2 fields_redrawn_on_change)))) 2100 2000 H1 H2).
Defined.

(** C7, as stated, fails on [PulseSensor_CYD.ino]: a beat with BPM 25,
    below the band, draws the number 25 and no dashes. *)
Lemma implausible_bpm_drawn_as_number :
  let i := CYD.beat_at 1000 2000 25 2400 in
  let evs := calls (CYD.loop i) (CYD.booted true 500) in
  25 <= 30 /\
  In (TftDrawNumber 25 CYD.BPM_X CYD.BPM_Y 7) evs /\
  ~ In (TftPrintStr "--") evs /\
  (forall x y font, ~ In (TftDrawString "--" x y font) evs).
Proof.
  vm_compute. split; [discriminate|]. split.
  - repeat (first [left; reflexivity | right]).
  - split; [|intros x y font]; intros H;
      repeat (destruct H as [H|H]; [discriminate H|]); exact H.
Qed.

(** C7, amended.  In the Dashboard sketch [drawBPM] shows dashes for every
    value outside the band (bpm <= 30 or bpm >= 220) and the number for
    every value inside, and touches no state; nothing is raised.
    [PulseSensor_CYD.ino] has no band: its [drawBPM] draws the number
    whenever it differs from the number last drawn. *)
Theorem bpm_readout :
  (forall bpm (s : Part000.State),
     exec (Part000.drawBPM bpm) s = s /\
     calls (Part000.drawBPM bpm) s =
       [TftFillRect Part000.BPM_X (Part000.BPM_Y + 20) 150 55 Part000.COLOR_BG;
        TftSetTextSize 7] ++
       (if (bpm <=? 30) || (bpm >=? 220) then
          [TftSetTextColor Part000.COLOR_LABEL (Some Part000.COLOR_BG);
           TftSetCursor Part000.BPM_X (Part000.BPM_Y + 20); TftPrintStr "--"]
        else
          [TftSetTextColor Part000.COLOR_BPM (Some Part000.COLOR_BG);
           TftSetCursor Part000.BPM_X (Part000.BPM_Y + 20); TftPrintInt bpm])) /\
  (forall bpm (s : CYD.State),
     calls (CYD.drawBPM bpm) s =
       if bpm =? CYD.lastDisplayedBPM s then []
       else [TftFillRect CYD.BPM_X CYD.BPM_Y 150 50 CYD.COLOR_BG;
             TftSetTextColor CYD.COLOR_BPM None; TftSetTextSize 1;
             TftDrawNumber bpm CYD.BPM_X CYD.BPM_Y 7]).
Proof.
  split.
  - intros bpm s. split; [apply Part000Facts.drawBPM_exec|].
    rewrite Part000Facts.drawBPM_calls. f_equal.
    destruct (Z.gtb_spec bpm 30), (Z.ltb_spec bpm 220), (Z.leb_spec bpm 30),
      (Z.geb_spec bpm 220); cbn [andb orb]; try reflexivity; lia.
  - intros bpm s. pose proof (CYDFacts.cyd_drawBPM_spec bpm s) as H.
    destruct (bpm =? CYD.lastDisplayedBPM s); apply H.
Qed.

(** C8, as stated, fails on [PulseSensor_CYD.ino]: for a beat with signal
    2000, BPM 72 and IBI 833 the line written is "BPM: 72 | IBI: 833", not
    the record "2000,72,833,1". *)
Lemma beat_line_is_not_a_record :
  let i := CYD.beat_at 1000 2000 72 833 in
  let evs := calls (CYD.loop i) (CYD.booted true 500) in
  serial_output evs = "BPM: 72 | IBI: 833" +:+ CRLF /\
  serial_output evs <> status_record 2000 72 833 /\
  ~ is_status_record (serial_output evs).
Proof.
  cbn zeta.
  assert (H : serial_output (calls (CYD.loop (CYD.beat_at 1000 2000 72 833))
                               (CYD.booted true 500))
              = "BPM: 72 | IBI: 833" +:+ CRLF) by (vm_compute; reflexivity).
  rewrite H. split; [reflexivity|]. split.
  - vm_compute. discriminate.
  - apply crlf_line_not_record.
Qed.

(** C8, amended.  One line is written to the serial port for every beat
    and none of that form in an iteration without beat.  In the Dashboard
    sketch the line is the record [signal,bpm,ibi,1] with the sample, BPM
    and IBI of the beat; in [PulseSensor_CYD.ino] it is
    [BPM: <bpm> | IBI: <ibi>], which carries neither the sample nor a beat
    flag.  The only other line of [loop] is the notice written when the
    finger times out, which is no record. *)
Theorem one_line_per_beat :
  (forall i (st : Part000.State),
     match Part000.in_beat i with
     | Some (bpm, ibi) =>
         serial_writes (calls (Part000.loop i) st) =
         status_record (Part000.in_sample i) bpm ibi ::
         (if usub (Part000.in_now_timeout i) (Part000.in_now i) >? Part000.NO_BEAT_TIMEOUT
          then [Part000.no_finger_line] else [])
     | None =>
         serial_writes (calls (Part000.loop i) st) =
         if Part000.fingerPresent st && Part000.timed_out i st
         then [Part000.no_finger_line] else []
     end) /\
  ~ is_status_record Part000.no_finger_line /\
  (forall i (st : CYD.State),
     match CYD.in_beat i with
     | Some (bpm, ibi) =>
         serial_output (calls (CYD.loop i) st) =
         CYD.beat_line bpm ibi +:+
         (if usub (CYD.in_now_timeout i) (CYD.in_now_beat i) >? CYD.NO_BEAT_TIMEOUT
          then CYD.waiting_line else "")
     | None =>
         serial_writes (calls (CYD.loop i) st) =
         if CYD.fingerPresent st && CYD.timed_out i st then [CYD.waiting_line] else []
     end) /\
  (forall bpm ibi, ~ is_status_record (CYD.beat_line bpm ibi)) /\
  ~ is_status_record CYD.waiting_line.
Proof.
  repeat apply conj.
  - intros i st. destruct (Part000.in_beat i) as [[bpm ibi]|] eqn:Hb.
    + apply (Part000Facts.loop_serial_beat _ _ _ _ Hb).
    + apply (Part000Facts.loop_serial_no_beat _ _ Hb).
  - apply Part000Facts.no_finger_line_not_record.
  - intros i st. destruct (CYD.in_beat i) as [[bpm ibi]|] eqn:Hb.
    + unfold serial_output. rewrite (CYDFacts.cyd_loop_serial_beat _ _ _ _ Hb).
      unfold CYD.beat_line. destruct (usub _ _ >? CYD.NO_BEAT_TIMEOUT);
        cbn [app foldr]; rewrite ?str_app_nil_r, ?str_app_assoc; reflexivity.
    + apply (CYDFacts.cyd_loop_serial_no_beat _ _ Hb).
  - apply CYDFacts.cyd_beat_line_not_record.
  - apply CYDFacts.cyd_waiting_line_not_record.
Qed.

(** * Further properties of the sketches *)

Lemma quiet_ledc_writes {S A} (m : M S A) s :
  quiet (fun e => match e with LedcWrite _ _ => true | _ => false end) m ->
  ledc_writes (calls m s) = [].
Proof.
  intros H. specialize (H s). unfold ledc_writes.
  induction H as [|e l He _ IH]; [reflexivity|].
  destruct e; try discriminate; simpl; exact IH.
Qed.

Lemma quiet_analog_writes {S A} (m : M S A) s :
  quiet (fun e => match e with AnalogWrite _ _ => true | _ => false end) m ->
  analog_writes (calls m s) = [].
Proof.
  intros H. specialize (H s). unfold analog_writes.
  induction H as [|e l He _ IH]; [reflexivity|].
  destruct e; try discriminate; simpl; exact IH.
Qed.

Lemma usub_diag t : usub t t = 0.
Proof. unfold usub. rewrite Z.sub_diag. reflexivity. Qed.

Lemma usub_elapsed last d :
  0 <= last < 2 ^ 32 -> 0 <= d < 2 ^ 32 -> usub ((last + d) mod 2 ^ 32) last = d.
Proof.
  intros Hl Hd. unfold usub.
  rewrite Zminus_mod_idemp_l.
  replace (last + d - last) with d by lia.
  apply Z.mod_small. lia.
Qed.

Lemma quiet_heart_colors {S A} (m : M S A) s :
  quiet (fun e => match e with
                  | TftFillCircle _ _ _ _ | TftFillTriangle _ _ _ _ _ _ _ => true
                  | _ => false
                  end) m ->
  heart_colors (calls m s) = [].
Proof.
  intros H. specialize (H s). induction H as [|e evs He _ IH]; [reflexivity|].
  destruct e; try discriminate; simpl; exact IH.
Qed.

Lemma heart_colors_app a b : heart_colors (a ++ b) = heart_colors a ++ heart_colors b.
Proof. apply omap_app. Qed.

(** The calls that paint the trace of the waveform and its columns. *)
Lemma quiet_within {S A} (m : M S A) s x0 x1 y0 y1 :
  quiet (fun e => match e with
                  | TftDrawPixel _ _ _ | TftDrawLine _ _ _ _ _ | TftDrawFastVLine _ _ _ _ => true
                  | _ => false
                  end) m ->
  Forall (within x0 x1 y0 y1) (calls m s).
Proof.
  intros H. specialize (H s). induction H as [|e evs He _ IH]; constructor; [|exact IH].
  destruct e; try discriminate; exact I.
Qed.

Lemma quiet_trace_calls {S A} (m : M S A) s :
  quiet (fun e => match e with
                  | TftDrawFastVLine _ _ _ _ | TftDrawPixel _ _ _ | TftDrawLine _ _ _ _ _ =>
                      true
                  | _ => false
                  end) m ->
  trace_calls (calls m s) = [].
Proof.
  intros H. specialize (H s). induction H as [|e evs He _ IH]; [reflexivity|].
  destruct e; try discriminate; simpl; exact IH.
Qed.

Lemma trace_calls_app a b : trace_calls (a ++ b) = trace_calls a ++ trace_calls b.
Proof. apply omap_app. Qed.

Lemma ledc_writes_app a b : ledc_writes (a ++ b) = ledc_writes a ++ ledc_writes b.
Proof. apply omap_app. Qed.

Lemma analog_writes_app a b : analog_writes (a ++ b) = analog_writes a ++ analog_writes b.
Proof. apply omap_app. Qed.

Module Part000More.
Import Part000 Part000Facts.

(** *** The LED driver *)

Lemma updateLED_calls now s :
  calls (updateLED now) s =
  if (usub now (lastLedUpdate s) >=? 10) && (ledBrightness s >? 0) then
    [LedcWrite LED_RED_PIN (isub 255 (ledBrightness (exec (updateLED now) s)));
     LedcWrite LED_GREEN_PIN 255; LedcWrite LED_BLUE_PIN 255]
  else [].
Proof.
  rewrite updateLED_brightness.
  unfold updateLED, setLED. msimpl.
  destruct (usub now (lastLedUpdate s) >=? 10); cbn [andb]; [|reflexivity].
  proj. destruct (ledBrightness s >? 0); [|reflexivity].
  cbn zeta. msimpl. proj. case_match; msimpl; proj; reflexivity.
Qed.

Lemma loop_ledc_writes i st :
  ledc_writes (calls (loop i) st) =
  ledc_writes (calls (beatStage i) (set_currentSignal (in_sample i) st)) ++
  ledc_writes (calls (updateLED (in_now_led i))
                 (exec (flashStage (in_now i))
                    (exec (beatStage i) (set_currentSignal (in_sample i) st)))).
Proof.
  pose proof (calls_loop i st) as Hc; cbn zeta in Hc. rewrite Hc; clear Hc.
  unfold ledc_writes. rewrite !omap_app. fold ledc_writes.
  rewrite (quiet_ledc_writes (flashStage _)) by frame.
  rewrite (quiet_ledc_writes (checkFingerTimeout _)) by frame.
  rewrite (quiet_ledc_writes (renderStage _)) by frame.
  rewrite !app_nil_r. reflexivity.
Qed.

Lemma onBeat_ledc_writes now bpm ibi s :
  ledc_writes (calls (onBeat now bpm ibi) s) =
  [(LED_RED_PIN, 0); (LED_GREEN_PIN, 255); (LED_BLUE_PIN, 255)].
Proof.
  rewrite onBeat_calls, flashLED_calls.
  unfold ledc_writes. rewrite !omap_app. fold ledc_writes.
  rewrite (quiet_ledc_writes (drawBeatIndicator true)) by frame.
  destruct (negb _); [rewrite (quiet_ledc_writes (drawBPM bpm)) by frame|];
    (destruct (negb _); [rewrite (quiet_ledc_writes (drawIBI ibi)) by frame|]);
    reflexivity.
Qed.

(** *** The fade over a run *)

Lemma dashboard_fade_ticks_nonneg ins st : 0 <= dashboard_fade_ticks ins st.
Proof.
  revert st; induction ins as [|i ins IH]; intros st; cbn [dashboard_fade_ticks]; [lia|].
  specialize (IH (exec (loop i) st)). case_match; lia.
Qed.

Lemma run_fade ins st :
  Forall no_beat ins -> 0 <= ledBrightness st <= 255 ->
  ledBrightness (run ins st) =
  Z.max 0 (ledBrightness st - LED_FADE_SPEED * dashboard_fade_ticks ins st).
Proof.
  unfold LED_FADE_SPEED.
  revert st; induction ins as [|i ins IH]; intros st Hnb Hb.
  - cbn [run foldl dashboard_fade_ticks]. lia.
  - inversion Hnb as [|? ? Hi Hnb']; subst.
    cbn [run foldl dashboard_fade_ticks]. fold (run ins (exec (loop i) st)).
    pose proof (dashboard_fade_ticks_nonneg ins (exec (loop i) st)) as Ht.
    rewrite IH by (auto using loop_brightness_range).
    rewrite (loop_brightness_no_beat _ _ Hi), updateLED_brightness.
    destruct (usub (in_now_led i) (lastLedUpdate st) >=? 10); cbn [andb]; [|f_equal; lia].
    destruct (Z.gtb_spec (ledBrightness st) 0); [|lia].
    rewrite fade_step_exact by (unfold LED_FADE_SPEED; lia).
    unfold LED_FADE_SPEED. lia.
Qed.

Lemma dashboard_quiet_run_no_beat t step s n :
  Forall no_beat (dashboard_quiet_run t step s n).
Proof. unfold dashboard_quiet_run. apply Forall_fmap, Forall_forall. reflexivity. Qed.

(** *** The buffer between two visits of the cursor *)

Lemma run_buffer_other rest st a :
  0 <= waveformX st < SCREEN_WIDTH -> 0 <= a ->
  (forall k w, writes rest st !! k = Some w -> w <> a) ->
  waveformBuffer (run rest st) !! Z.to_nat a = waveformBuffer st !! Z.to_nat a.
Proof.
  revert st; induction rest as [|i rest IH]; intros st Hx Ha Hw; [reflexivity|].
  cbn [run foldl]. fold (run rest (exec (loop i) st)).
  pose proof (loop_cursor_range i st Hx) as Hx'.
  cbn [writes] in Hw.
  rewrite IH; [|exact Hx'|exact Ha|].
  - rewrite loop_buffer. destruct (renders i st); [|reflexivity].
    unfold buffer_set. apply list_lookup_insert_ne.
    specialize (Hw 0%nat (waveformX st) eq_refl). lia.
  - intros k w Hk. destruct (renders i st).
    + apply (Hw (S k) w). exact Hk.
    + apply (Hw k w). exact Hk.
Qed.

Lemma sample_stays i rest st :
  0 <= waveformX st < SCREEN_WIDTH ->
  length (waveformBuffer st) = 320%nat ->
  renders i st = true ->
  (length (writes rest (exec (loop i) st)) < 320)%nat ->
  waveformBuffer (run rest (exec (loop i) st)) !! Z.to_nat (waveformX st)
  = Some (in_sample i).
Proof.
  intros Hx Hl Hr Hn.
  pose proof (loop_cursor_range i st Hx) as Hx'.
  rewrite run_buffer_other; [|exact Hx'|lia|].
  - rewrite loop_buffer, Hr. unfold buffer_set.
    apply list_lookup_insert_eq. unfold SCREEN_WIDTH in Hx. lia.
  - intros k w Hk Hw.
    pose proof (lookup_lt_Some _ _ _ Hk) as Hlt.
    apply writes_lookup in Hk; [|exact Hx'].
    rewrite loop_cursor, Hr in Hk by exact Hx.
    unfold SCREEN_WIDTH in *.
    rewrite Zplus_mod_idemp_l in Hk.
    assert (E : (waveformX st + 1 + Z.of_nat k) mod 320 = (waveformX st + Z.of_nat 0) mod 320).
    { rewrite <- Hk, Hw. cbn [Z.of_nat]. rewrite Z.add_0_r. symmetry. apply Z.mod_small. lia. }
    replace (waveformX st + 1 + Z.of_nat k) with (waveformX st + Z.of_nat (S k)) in E by lia.
    symmetry in E. revert E. apply mod_shift_distinct. lia.
Qed.

(** *** What the LED channels are written *)

Lemma loop_ledc_writes_spec i st :
  0 <= ledBrightness st <= 255 ->
  ledc_writes (calls (loop i) st) =
  (match in_beat i with
   | Some _ => [(LED_RED_PIN, 0); (LED_GREEN_PIN, 255); (LED_BLUE_PIN, 255)]
   | None => []
   end) ++
  (if (usub (in_now_led i) (lastLedUpdate st) >=? 10) &&
      match in_beat i with
      | Some _ => true
      | None => ledBrightness st >? 0
      end
   then [(LED_RED_PIN, 255 - ledBrightness (exec (loop i) st));
         (LED_GREEN_PIN, 255); (LED_BLUE_PIN, 255)]
   else []).
Proof.
  intros Hr. pose proof (loop_brightness_range i st Hr) as Hr'.
  rewrite loop_ledc_writes, updateLED_calls.
  assert (Hb' : ledBrightness (exec (loop i) st) =
                ledBrightness
                  (exec (updateLED (in_now_led i))
                     (exec (flashStage (in_now i))
                        (exec (beatStage i) (set_currentSignal (in_sample i) st))))).
  { rewrite exec_loop.
    assert (F1 : forall m, preserves ledBrightness (renderStage m)) by (intros; frame).
    assert (F2 : forall t, preserves ledBrightness (checkFingerTimeout t)) by (intros; frame).
    rewrite F1, F2. reflexivity. }
  rewrite <- Hb'.
  assert (F3 : forall t, preserves ledBrightness (flashStage t)) by (intros; frame).
  assert (F4 : forall t, preserves lastLedUpdate (flashStage t)) by (intros; frame).
  assert (F5 : preserves lastLedUpdate (beatStage i)) by frame.
  rewrite F3, F4, F5. cbn [lastLedUpdate set_currentSignal].
  unfold isub. rewrite wrap32_id by (unfold INT_MIN, INT_MAX; lia).
  unfold beatStage.
  destruct (in_beat i) as [[bpm ibi]|].
  - rewrite onBeat_ledc_writes, onBeat_brightness.
    f_equal. destruct (usub _ _ >=? 10); reflexivity.
  - cbn [app]. cbn [ledBrightness set_currentSignal].
    destruct (_ && _); reflexivity.
Qed.

Lemma red_duty_app a b :
  red_duty (a ++ b) = match red_duty b with Some d => Some d | None => red_duty a end.
Proof. unfold red_duty. rewrite ledc_writes_app, omap_app. apply last_app. Qed.

Lemma loop_red_duty i st :
  0 <= ledBrightness st <= 255 ->
  match red_duty (calls (loop i) st) with
  | Some d => d = 255 - ledBrightness (exec (loop i) st)
  | None => ledBrightness (exec (loop i) st) = ledBrightness st
  end.
Proof.
  intros Hr. unfold red_duty. rewrite (loop_ledc_writes_spec i st Hr).
  destruct (in_beat i) as [[bpm ibi]|] eqn:Hb.
  - rewrite (loop_brightness_beat i st bpm ibi Hb).
    destruct (usub _ _ >=? 10); reflexivity.
  - rewrite (loop_brightness_no_beat i st Hb), updateLED_brightness.
    destruct (_ && _); reflexivity.
Qed.

Lemma run_red_duty ins st pre :
  0 <= ledBrightness st <= 255 ->
  red_duty pre = Some (255 - ledBrightness st) ->
  red_duty (pre ++ dashboard_run_calls ins st) = Some (255 - ledBrightness (run ins st)).
Proof.
  revert st pre; induction ins as [|i ins IH]; intros st pre Hr Hp.
  - cbn [dashboard_run_calls run foldl]. rewrite app_nil_r. exact Hp.
  - cbn [dashboard_run_calls run foldl]. fold (run ins (exec (loop i) st)).
    rewrite app_assoc. apply IH; [apply loop_brightness_range, Hr|].
    rewrite red_duty_app. pose proof (loop_red_duty i st Hr) as H.
    destruct (red_duty (calls (loop i) st)) as [d|]; [rewrite H|rewrite H, Hp]; reflexivity.
Qed.

(** *** An iteration in which nothing is due *)

Lemma flashStage_spec now s :
  if beatFlashActive s && (usub now (lastBeatTime s) >? 150) then
    exec (flashStage now) s = set_beatFlashActive false s /\
    calls (flashStage now) s = calls (drawBeatIndicator false) s
  else exec (flashStage now) s = s /\ calls (flashStage now) s = [].
Proof.
  unfold flashStage; msimpl.
  destruct (_ && _); msimpl; [|split; reflexivity].
  split; [apply drawBeatIndicator_exec|].
  rewrite app_nil_l. apply drawBeatIndicator_calls.
Qed.

Lemma drawBeatIndicator_calls_cons active s :
  exists e evs, calls (drawBeatIndicator active) s = e :: evs.
Proof. unfold drawBeatIndicator; msimpl. eexists; eexists; reflexivity. Qed.

Lemma updateLED_exec_off now s :
  (usub now (lastLedUpdate s) >=? 10) && (ledBrightness s >? 0) = false ->
  exec (updateLED now) s =
  if usub now (lastLedUpdate s) >=? 10 then set_lastLedUpdate now s else s.
Proof.
  unfold updateLED; msimpl.
  destruct (usub now (lastLedUpdate s) >=? 10); cbn [andb]; [|reflexivity].
  msimpl. proj. intros ->. reflexivity.
Qed.

Lemma renderStage_calls i s :
  calls (renderStage i) s =
  if renders i s then calls (renderTick (in_now i) (in_now_decay i)) s else [].
Proof. unfold renderStage, renders; msimpl. destruct (_ >=? _); reflexivity. Qed.

Lemma drawWaveformColumn_calls_cons s :
  exists evs,
    calls drawWaveformColumn s =
    TftDrawFastVLine (waveformX s) (WAVEFORM_TOP + 1) (WAVEFORM_HEIGHT - 2) COLOR_BG :: evs.
Proof. unfold drawWaveformColumn; msimpl. eexists; reflexivity. Qed.

Lemma renderTick_calls_cons now d s : exists e evs, calls (renderTick now d) s = e :: evs.
Proof.
  destruct (renderTick_split now d s) as (sA & sB & _ & -> & _).
  destruct (drawWaveformColumn_calls_cons sB) as (evs & ->).
  eexists; eexists; reflexivity.
Qed.

Lemma loop_idle i st :
  if dashboard_idle i st then
    calls (loop i) st = [] /\
    exec (loop i) st =
    (if usub (in_now_led i) (lastLedUpdate st) >=? 10
     then set_lastLedUpdate (in_now_led i) (set_currentSignal (in_sample i) st)
     else set_currentSignal (in_sample i) st)
  else calls (loop i) st <> [].
Proof.
  pose proof (calls_loop i st) as Hc; cbn zeta in Hc. rewrite Hc, exec_loop; clear Hc.
  unfold dashboard_idle, beatStage.
  destruct (in_beat i) as [[bpm ibi]|]; cbn [andb].
  { rewrite onBeat_calls, flashLED_calls. discriminate. }
  msimpl. rewrite app_nil_l.
  set (s0 := set_currentSignal (in_sample i) st).
  pose proof (flashStage_spec (in_now i) s0) as Hf.
  replace (beatFlashActive s0) with (beatFlashActive st) in Hf by reflexivity.
  replace (lastBeatTime s0) with (lastBeatTime st) in Hf by reflexivity.
  destruct (beatFlashActive st && _); cbn [negb andb].
  { destruct Hf as [_ ->].
    destruct (drawBeatIndicator_calls_cons false s0) as (e & evs & ->). discriminate. }
  destruct Hf as [-> ->]. rewrite app_nil_l.
  pose proof (updateLED_calls (in_now_led i) s0) as Hl.
  pose proof (updateLED_exec_off (in_now_led i) s0) as Hx.
  replace (lastLedUpdate s0) with (lastLedUpdate st) in * by reflexivity.
  replace (ledBrightness s0) with (ledBrightness st) in * by reflexivity.
  destruct ((usub (in_now_led i) (lastLedUpdate st) >=? 10) && (ledBrightness st >? 0));
    cbn [negb andb].
  { rewrite Hl. discriminate. }
  rewrite Hl, (Hx eq_refl), app_nil_l. clear Hl Hx.
  set (s3 := if usub (in_now_led i) (lastLedUpdate st) >=? 10
             then set_lastLedUpdate (in_now_led i) s0 else s0).
  assert (Hfp : fingerPresent s3 = fingerPresent st) by (subst s3; case_match; reflexivity).
  assert (Hlb : lastBeatTime s3 = lastBeatTime st) by (subst s3; case_match; reflexivity).
  assert (Hld : lastDrawTime s3 = lastDrawTime st) by (subst s3; case_match; reflexivity).
  pose proof (checkFingerTimeout_spec (in_now_timeout i) s3) as Ht; cbn zeta in Ht.
  pose proof (checkFingerTimeout_calls (in_now_timeout i) s3) as Htc.
  rewrite Hfp, Hlb in Ht, Htc. unfold timed_out.
  destruct (fingerPresent st && _); cbn [negb andb].
  { rewrite Htc. intros E. apply app_eq_nil in E as [E _].
    apply app_eq_nil in E as [_ E]. apply app_eq_nil in E as [_ E]. discriminate. }
  rewrite Ht, Htc, app_nil_l, renderStage_calls, renderStage_spec.
  unfold renders. rewrite Hld.
  destruct (usub (in_now i) (lastDrawTime st) >=? WAVEFORM_SPEED); cbn [negb].
  - destruct (renderTick_calls_cons (in_now i) (in_now_decay i) s3) as (e & evs & ->).
    discriminate.
  - split; reflexivity.
Qed.

(** *** A beat, and the heart *)

Lemma onBeat_flash now bpm ibi s : beatFlashActive (exec (onBeat now bpm ibi) s) = true.
Proof.
  unfold onBeat; msimpl.
  set (sF := exec flashLED _).
  assert (HF : beatFlashActive sF = true) by (subst sF; frame_out; proj; reflexivity).
  clearbody sF.
  rewrite !drawBPM_exec, ?drawIBI_exec, ?drawBeatIndicator_exec. proj.
  rewrite ?drawIBI_exec. proj.
  repeat case_match; proj; assumption.
Qed.

Lemma loop_beat i st bpm ibi :
  in_beat i = Some (bpm, ibi) ->
  let st' := exec (loop i) st in
  lastBeatTime st' = in_now i /\ beatFlashActive st' = true /\
  if usub (in_now_timeout i) (in_now i) >? NO_BEAT_TIMEOUT then
    fingerPresent st' = false /\ currentBPM st' = 0 /\ currentIBI st' = 0 /\
    lastDisplayedBPM st' = 0 /\ lastDisplayedIBI st' = 0
  else
    fingerPresent st' = true /\ currentBPM st' = bpm /\ currentIBI st' = ibi /\
    lastDisplayedBPM st' = bpm /\ lastDisplayedIBI st' = ibi.
Proof.
  intros Hb; cbn zeta. rewrite exec_loop. unfold beatStage; rewrite Hb.
  set (s0 := set_currentSignal (in_sample i) st).
  pose proof (onBeat_spec (in_now i) bpm ibi s0) as H; cbn zeta in H.
  pose proof (onBeat_flash (in_now i) bpm ibi s0) as Hfl.
  set (s1 := exec (onBeat (in_now i) bpm ibi) s0) in *. clearbody s1.
  destruct H as (Hbpm & Hibi & Hlb & Hfp & Hsb & Hsi).
  pose proof (flashStage_spec (in_now i) s1) as Hf.
  rewrite Hfl, Hlb, usub_diag in Hf. cbn in Hf. destruct Hf as [-> _].
  set (s3 := exec (updateLED (in_now_led i)) s1).
  assert (H3 : fingerPresent s3 = true /\ lastBeatTime s3 = in_now i /\
               beatFlashActive s3 = true /\ currentBPM s3 = bpm /\ currentIBI s3 = ibi /\
               lastDisplayedBPM s3 = bpm /\ lastDisplayedIBI s3 = ibi).
  { subst s3. repeat split; frame_out; assumption. }
  clearbody s3. destruct H3 as (Hfp3 & Hlb3 & Hfl3 & Hbpm3 & Hibi3 & Hsb3 & Hsi3).
  pose proof (checkFingerTimeout_spec (in_now_timeout i) s3) as Ht; cbn zeta in Ht.
  rewrite Hfp3, Hlb3 in Ht. cbn [andb] in Ht.
  assert (Hfl4 : beatFlashActive (exec (checkFingerTimeout (in_now_timeout i)) s3) = true)
    by (frame_out; assumption).
  assert (Hlb4 : lastBeatTime (exec (checkFingerTimeout (in_now_timeout i)) s3) = in_now i)
    by (frame_out; assumption).
  set (s4 := exec (checkFingerTimeout (in_now_timeout i)) s3) in *. clearbody s4.
  assert (Hr : lastBeatTime (exec (renderStage i) s4) = lastBeatTime s4
               /\ beatFlashActive (exec (renderStage i) s4) = beatFlashActive s4
               /\ fingerPresent (exec (renderStage i) s4) = fingerPresent s4
               /\ currentBPM (exec (renderStage i) s4) = currentBPM s4
               /\ currentIBI (exec (renderStage i) s4) = currentIBI s4
               /\ lastDisplayedBPM (exec (renderStage i) s4) = lastDisplayedBPM s4
               /\ lastDisplayedIBI (exec (renderStage i) s4) = lastDisplayedIBI s4).
  { repeat split; frame_out; reflexivity. }
  destruct Hr as (-> & -> & -> & -> & -> & -> & ->).
  split; [assumption|]. split; [assumption|].
  destruct (usub (in_now_timeout i) (in_now i) >? NO_BEAT_TIMEOUT).
  - exact Ht.
  - subst s4. auto.
Qed.

Lemma loop_flash i st :
  beatFlashActive (exec (loop i) st) =
  match in_beat i with
  | Some _ => true
  | None => beatFlashActive st && negb (usub (in_now i) (lastBeatTime st) >? 150)
  end.
Proof.
  destruct (in_beat i) as [[bpm ibi]|] eqn:Hb.
  { apply (loop_beat i st bpm ibi Hb). }
  rewrite exec_loop, beatStage_none by assumption.
  set (s0 := set_currentSignal (in_sample i) st).
  assert (E : beatFlashActive (exec (flashStage (in_now i)) s0) =
              beatFlashActive st && negb (usub (in_now i) (lastBeatTime st) >? 150)).
  { pose proof (flashStage_spec (in_now i) s0) as Hf.
    replace (beatFlashActive s0) with (beatFlashActive st) in * by reflexivity.
    replace (lastBeatTime s0) with (lastBeatTime st) in * by reflexivity.
    destruct (beatFlashActive st) eqn:Hfl; cbn [andb] in *;
      [destruct (_ >? 150)|]; destruct Hf as [-> _]; cbn [negb]; auto. }
  rewrite <- E. frame_out. reflexivity.
Qed.

Lemma drawBeatIndicator_heart active s :
  heart_colors (calls (drawBeatIndicator active) s) =
  let c := if active then COLOR_HEART else COLOR_HEART_DIM in [c; c; c].
Proof. unfold drawBeatIndicator, drawHeart; msimpl. destruct active; msimpl; reflexivity. Qed.

Lemma loop_heart i st :
  heart_colors (calls (loop i) st) =
  match in_beat i with
  | Some _ => [COLOR_HEART; COLOR_HEART; COLOR_HEART]
  | None =>
      if beatFlashActive st && (usub (in_now i) (lastBeatTime st) >? 150)
      then [COLOR_HEART_DIM; COLOR_HEART_DIM; COLOR_HEART_DIM] else []
  end.
Proof.
  pose proof (calls_loop i st) as Hc; cbn zeta in Hc. rewrite Hc; clear Hc.
  rewrite !heart_colors_app.
  rewrite (quiet_heart_colors (updateLED _)) by frame.
  rewrite (quiet_heart_colors (checkFingerTimeout _)) by frame.
  rewrite (quiet_heart_colors (renderStage _)) by frame.
  rewrite !app_nil_r.
  set (s0 := set_currentSignal (in_sample i) st).
  pose proof (flashStage_spec (in_now i) (exec (beatStage i) s0)) as Hf.
  unfold beatStage in *. destruct (in_beat i) as [[bpm ibi]|] eqn:Hb.
  - pose proof (onBeat_spec (in_now i) bpm ibi s0) as H; cbn zeta in H.
    pose proof (onBeat_flash (in_now i) bpm ibi s0) as Hfl.
    destruct H as (_ & _ & Hlb & _).
    rewrite Hfl, Hlb, usub_diag in Hf. cbn in Hf. destruct Hf as [_ ->].
    rewrite app_nil_r, onBeat_calls, !heart_colors_app.
    rewrite (quiet_heart_colors flashLED) by frame.
    rewrite drawBeatIndicator_heart.
    destruct (negb _); [rewrite (quiet_heart_colors (drawBPM bpm)) by frame|];
      (destruct (negb _); [rewrite (quiet_heart_colors (drawIBI ibi)) by frame|]);
      reflexivity.
  - msimpl. rewrite !exec_skip in Hf.
    replace (beatFlashActive s0) with (beatFlashActive st) in * by reflexivity.
    replace (lastBeatTime s0) with (lastBeatTime st) in * by reflexivity.
    destruct (beatFlashActive st && _); destruct Hf as [_ ->]; [|reflexivity].
    rewrite drawBeatIndicator_heart. reflexivity.
Qed.

(** *** Where the renderer paints *)

Lemma row_range st v : 82 <= row st v <= 178.
Proof.
  unfold row, Arduino.constrain, WAVEFORM_TOP, WAVEFORM_BOTTOM, WAVEFORM_HEIGHT, WAVEFORM_TOP.
  repeat case_match; lia.
Qed.

Lemma drawWaveformColumn_within s :
  0 <= waveformX s < SCREEN_WIDTH ->
  Forall (within 0 319 79 181) (calls drawWaveformColumn s).
Proof.
  intros Hx. unfold SCREEN_WIDTH in Hx.
  unfold drawWaveformColumn.
  change (seqZ 0 WAVEFORM_THICKNESS) with [0; 1; 2; 3]. cbn [for_each]. msimpl.
  unfold id.
  pose proof (row_range s (buffer_get (waveformBuffer s) (waveformX s))) as Hy.
  pose proof (row_range s (buffer_get (waveformBuffer s) (waveformX s - 1))) as Hp.
  set (y := row s _) in *. set (p := row s _) in *. clearbody y p.
  assert (Hc : 0 <= irem (iadd (waveformX s) 4) SCREEN_WIDTH <= 319).
  { unfold irem, iadd, SCREEN_WIDTH. rewrite wrap32_id by (unfold INT_MIN, INT_MAX; lia).
    pose proof (Z.rem_bound_pos (waveformX s + 4) 320). lia. }
  set (c := irem _ _) in *. clearbody c.
  unfold WAVEFORM_TOP, WAVEFORM_HEIGHT.
  destruct (Z.gtb_spec (waveformX s) 0); msimpl;
    repeat first [apply Forall_app; split | apply Forall_cons; split | apply Forall_nil];
    cbn [within]; lia.
Qed.

Lemma renderTick_within now d s :
  0 <= waveformX s < SCREEN_WIDTH ->
  Forall (within 0 319 79 181) (calls (renderTick now d) s).
Proof.
  intros Hx. unfold renderTick; msimpl.
  repeat first [apply Forall_app; split | apply Forall_nil].
  all: try exact I.
  - apply quiet_within; frame.
  - apply drawWaveformColumn_within. tidy. exact Hx.
  - case_match; constructor.
  - apply quiet_within; frame.
Qed.

Lemma loop_within i st :
  0 <= waveformX st < SCREEN_WIDTH ->
  Forall (within 0 319 79 181) (calls (loop i) st).
Proof.
  intros Hx. pose proof (calls_loop i st) as Hc; cbn zeta in Hc. rewrite Hc; clear Hc.
  repeat (apply Forall_app; split); try (apply quiet_within; solve [frame]).
  rewrite renderStage_calls. case_match; [|constructor].
  apply renderTick_within. tidy. exact Hx.
Qed.

(** *** The trace of one render tick *)

Lemma drawWaveformColumn_trace s :
  let x := waveformX s in
  let y := row s (buffer_get (waveformBuffer s) x) in
  let prevY := row s (buffer_get (waveformBuffer s) (x - 1)) in
  trace_calls (calls drawWaveformColumn s) =
  [TftDrawFastVLine x (WAVEFORM_TOP + 1) (WAVEFORM_HEIGHT - 2) COLOR_BG;
   TftDrawFastVLine (irem (iadd x 4) SCREEN_WIDTH) (WAVEFORM_TOP + 1) (WAVEFORM_HEIGHT - 2)
     COLOR_GRID;
   TftDrawPixel x (y + 0) COLOR_WAVEFORM; TftDrawPixel x (y - 0) COLOR_WAVEFORM;
   TftDrawPixel x (y + 1) COLOR_WAVEFORM; TftDrawPixel x (y - 1) COLOR_WAVEFORM;
   TftDrawPixel x (y + 2) COLOR_WAVEFORM; TftDrawPixel x (y - 2) COLOR_WAVEFORM;
   TftDrawPixel x (y + 3) COLOR_WAVEFORM; TftDrawPixel x (y - 3) COLOR_WAVEFORM] ++
  (if x >? 0 then
     [TftDrawLine (x - 1) (prevY + 0) x (y + 0) COLOR_WAVEFORM;
      TftDrawLine (x - 1) (prevY - 0) x (y - 0) COLOR_WAVEFORM;
      TftDrawLine (x - 1) (prevY + 1) x (y + 1) COLOR_WAVEFORM;
      TftDrawLine (x - 1) (prevY - 1) x (y - 1) COLOR_WAVEFORM;
      TftDrawLine (x - 1) (prevY + 2) x (y + 2) COLOR_WAVEFORM;
      TftDrawLine (x - 1) (prevY - 2) x (y - 2) COLOR_WAVEFORM;
      TftDrawLine (x - 1) (prevY + 3) x (y + 3) COLOR_WAVEFORM;
      TftDrawLine (x - 1) (prevY - 3) x (y - 3) COLOR_WAVEFORM]
   else []).
Proof.
  cbn zeta. unfold drawWaveformColumn.
  change (seqZ 0 WAVEFORM_THICKNESS) with [0; 1; 2; 3]. cbn [for_each]. msimpl.
  unfold id. destruct (waveformX s >? 0); msimpl; reflexivity.
Qed.

Lemma renderTick_trace now d s :
  trace_calls (calls (renderTick now d) s) =
  trace_calls
    (calls drawWaveformColumn
       (exec (updateMinMax d)
          (set_waveformBuffer (buffer_set (waveformX s) (currentSignal s) (waveformBuffer s))
             (set_lastDrawTime now s)))).
Proof.
  unfold renderTick; msimpl. rewrite !trace_calls_app.
  rewrite (quiet_trace_calls (updateMinMax d)) by frame.
  rewrite (quiet_trace_calls refreshSignal) by frame.
  proj. rewrite app_nil_l.
  case_match; rewrite ?calls_modify, ?calls_skip; cbn [trace_calls omap];
    rewrite !app_nil_r; reflexivity.
Qed.

Lemma loop_trace i st :
  trace_calls (calls (loop i) st) =
  if renders i st
  then trace_calls (calls drawWaveformColumn (dashboard_at_draw i st)) else [].
Proof.
  pose proof (calls_loop i st) as Hc; cbn zeta in Hc. rewrite Hc; clear Hc.
  rewrite !trace_calls_app.
  rewrite (quiet_trace_calls (beatStage i)) by frame.
  rewrite (quiet_trace_calls (flashStage _)) by frame.
  rewrite (quiet_trace_calls (updateLED _)) by frame.
  rewrite (quiet_trace_calls (checkFingerTimeout _)) by frame.
  rewrite !app_nil_l, renderStage_calls, renders_loop.
  destruct (renders i st); [|reflexivity].
  rewrite renderTick_trace. reflexivity.
Qed.

Lemma dashboard_at_draw_spec i st :
  waveformX (dashboard_at_draw i st) = waveformX st /\
  waveformBuffer (dashboard_at_draw i st) =
  buffer_set (waveformX st) (in_sample i) (waveformBuffer st).
Proof.
  unfold dashboard_at_draw. cbn zeta.
  set (s4 := exec (checkFingerTimeout _) _).
  assert (H4 : waveformX s4 = waveformX st /\ currentSignal s4 = in_sample i /\
               waveformBuffer s4 = waveformBuffer st).
  { subst s4. repeat split; tidy; reflexivity. }
  clearbody s4. destruct H4 as (Hx & Hc & Hb).
  split; frame_out; proj; rewrite ?Hx, ?Hc, ?Hb; reflexivity.
Qed.

Lemma buffer_get_set_eq buf x v :
  0 <= x -> (Z.to_nat x < length buf)%nat -> buffer_get (buffer_set x v buf) x = v.
Proof.
  intros Hx Hl. unfold buffer_get, buffer_set.
  rewrite list_lookup_insert_eq by exact Hl. reflexivity.
Qed.

Lemma buffer_get_set_ne buf x x' v :
  0 <= x -> 0 <= x' -> x <> x' -> buffer_get (buffer_set x v buf) x' = buffer_get buf x'.
Proof.
  intros Hx Hx' Hne. unfold buffer_get, buffer_set.
  rewrite list_lookup_insert_ne by lia. reflexivity.
Qed.

Lemma loop_trace_samples i st :
  0 <= waveformX st < SCREEN_WIDTH ->
  length (waveformBuffer st) = 320%nat ->
  let x := waveformX st in
  let s := dashboard_at_draw i st in
  let y := row s (in_sample i) in
  let prevY := row s (buffer_get (waveformBuffer st) (x - 1)) in
  trace_calls (calls (loop i) st) =
  if renders i st then
    [TftDrawFastVLine x (WAVEFORM_TOP + 1) (WAVEFORM_HEIGHT - 2) COLOR_BG;
     TftDrawFastVLine ((x + 4) mod 320) (WAVEFORM_TOP + 1) (WAVEFORM_HEIGHT - 2) COLOR_GRID;
     TftDrawPixel x (y + 0) COLOR_WAVEFORM; TftDrawPixel x (y - 0) COLOR_WAVEFORM;
     TftDrawPixel x (y + 1) COLOR_WAVEFORM; TftDrawPixel x (y - 1) COLOR_WAVEFORM;
     TftDrawPixel x (y + 2) COLOR_WAVEFORM; TftDrawPixel x (y - 2) COLOR_WAVEFORM;
     TftDrawPixel x (y + 3) COLOR_WAVEFORM; TftDrawPixel x (y - 3) COLOR_WAVEFORM] ++
    (if x >? 0 then
       [TftDrawLine (x - 1) (prevY + 0) x (y + 0) COLOR_WAVEFORM;
        TftDrawLine (x - 1) (prevY - 0) x (y - 0) COLOR_WAVEFORM;
        TftDrawLine (x - 1) (prevY + 1) x (y + 1) COLOR_WAVEFORM;
        TftDrawLine (x - 1) (prevY - 1) x (y - 1) COLOR_WAVEFORM;
        TftDrawLine (x - 1) (prevY + 2) x (y + 2) COLOR_WAVEFORM;
        TftDrawLine (x - 1) (prevY - 2) x (y - 2) COLOR_WAVEFORM;
        TftDrawLine (x - 1) (prevY + 3) x (y + 3) COLOR_WAVEFORM;
        TftDrawLine (x - 1) (prevY - 3) x (y - 3) COLOR_WAVEFORM]
     else [])
  else [].
Proof.
  intros Hx Hl. cbn zeta. unfold SCREEN_WIDTH in Hx.
  rewrite loop_trace. destruct (renders i st); [|reflexivity].
  pose proof (drawWaveformColumn_trace (dashboard_at_draw i st)) as H; cbn zeta in H.
  rewrite H; clear H.
  destruct (dashboard_at_draw_spec i st) as [-> ->].
  rewrite buffer_get_set_eq by lia.
  assert (Hc : irem (iadd (waveformX st) 4) SCREEN_WIDTH = (waveformX st + 4) mod 320).
  { unfold irem, iadd, SCREEN_WIDTH. rewrite wrap32_id by (unfold INT_MIN, INT_MAX; lia).
    apply Z.rem_mod_nonneg; lia. }
  rewrite Hc.
  destruct (Z.gtb_spec (waveformX st) 0); [|reflexivity].
  rewrite buffer_get_set_ne by lia. reflexivity.
Qed.

(** *** How the envelope moves *)

Lemma loop_envelope_at_draw i st :
  let st' := exec (loop i) st in
  if renders i st then
    minSignal st' = minSignal (dashboard_at_draw i st) /\
    maxSignal st' = maxSignal (dashboard_at_draw i st)
  else minSignal st' = minSignal st /\ maxSignal st' = maxSignal st.
Proof.
  cbn zeta. rewrite exec_loop, renderStage_spec, renders_loop.
  set (s4 := exec (checkFingerTimeout _) _).
  destruct (renders i st).
  - unfold dashboard_at_draw. cbn zeta. fold s4. clearbody s4.
    unfold renderTick; msimpl. split; tidy; case_match; tidy; reflexivity.
  - subst s4. tidy. split; reflexivity.
Qed.

Lemma dashboard_at_draw_envelope i st :
  let s := dashboard_at_draw i st in
  let due := usub (in_now_decay i) (lastDecay st) >? 100 in
  minSignal s =
    Arduino.min (if due then Arduino.min (iadd (minSignal st) 5) 2048 else minSignal st)
      (in_sample i) /\
  maxSignal s =
    Arduino.max (if due then Arduino.max (isub (maxSignal st) 5) 2048 else maxSignal st)
      (in_sample i).
Proof.
  cbn zeta. unfold dashboard_at_draw. cbn zeta.
  set (s4 := exec (checkFingerTimeout _) _).
  assert (H4 : minSignal s4 = minSignal st /\ maxSignal s4 = maxSignal st /\
               currentSignal s4 = in_sample i /\ lastDecay s4 = lastDecay st).
  { subst s4. tidy. repeat split. }
  clearbody s4. destruct H4 as (Hn & Hx & Hc & Hd).
  set (s5 := set_waveformBuffer _ _).
  assert (H5 : minSignal s5 = minSignal st /\ maxSignal s5 = maxSignal st /\
               currentSignal s5 = in_sample i /\ lastDecay s5 = lastDecay st).
  { subst s5. proj. auto. }
  clearbody s5. clear Hn Hx Hc Hd. destruct H5 as (Hn & Hx & Hc & Hd).
  unfold updateMinMax. rewrite exec_bind.
  destruct (widenMinMax_spec (exec (decayMinMax (in_now_decay i)) s5)) as [-> ->].
  assert (Hc' : currentSignal (exec (decayMinMax (in_now_decay i)) s5) = in_sample i)
    by (frame_out; exact Hc).
  rewrite Hc'.
  pose proof (decayMinMax_spec (in_now_decay i) s5) as H; cbn zeta in H.
  rewrite Hd, Hn, Hx in H.
  destruct (usub (in_now_decay i) (lastDecay st) >? 100).
  - destruct H as [-> ->]. split; reflexivity.
  - rewrite H, Hn, Hx. split; reflexivity.
Qed.

Lemma loop_centre i st :
  let st' := exec (loop i) st in
  (renders i st = true /\ (usub (in_now_decay i) (lastDecay st) >? 100) = true) \/
  minSignal st <= 2048 <= maxSignal st ->
  minSignal st' <= 2048 <= maxSignal st'.
Proof.
  cbn zeta. intros H.
  pose proof (loop_envelope_at_draw i st) as HL; cbn zeta in HL.
  pose proof (dashboard_at_draw_envelope i st) as HD; cbn zeta in HD.
  destruct (renders i st).
  - destruct HL as [-> ->]. destruct HD as [-> ->].
    unfold Arduino.min, Arduino.max.
    destruct (usub (in_now_decay i) (lastDecay st) >? 100).
    + repeat case_match; lia.
    + destruct H as [[_ H]|H]; [discriminate|]. repeat case_match; lia.
  - destruct HL as [-> ->]. destruct H as [[H _]|H]; [discriminate|exact H].
Qed.

Lemma run_centre ins st :
  minSignal st <= 2048 <= maxSignal st ->
  minSignal (run ins st) <= 2048 <= maxSignal (run ins st).
Proof.
  revert st; induction ins as [|i ins IH]; intros st H; [exact H|].
  apply IH. apply loop_centre. right. exact H.
Qed.

(** *** The timeout leaves the waveform alone *)

Lemma checkFingerTimeout_keeps now s :
  let s1 := exec (checkFingerTimeout now) s in
  minSignal s1 = minSignal s /\ maxSignal s1 = maxSignal s /\
  waveformBuffer s1 = waveformBuffer s /\ waveformX s1 = waveformX s /\
  ledBrightness s1 = ledBrightness s /\ lastDisplayedSignal s1 = lastDisplayedSignal s.
Proof. cbn zeta. repeat split; frame_out; reflexivity. Qed.

(** *** Before the first beat *)

Lemma loop_before_first_beat i st :
  in_beat i = None ->
  fingerPresent st = false -> beatFlashActive st = false -> ledBrightness st = 0 ->
  let st' := exec (loop i) st in
  (fingerPresent st' = false /\ beatFlashActive st' = false /\ ledBrightness st' = 0) /\
  serial_writes (calls (loop i) st) = [] /\
  heart_colors (calls (loop i) st) = [] /\
  ledc_writes (calls (loop i) st) = [].
Proof.
  intros Hb Hfp Hfl Hled. cbn zeta.
  pose proof (loop_presence_no_beat i st Hb) as Hp; cbn zeta in Hp.
  rewrite Hfp in Hp. cbn [andb] in Hp. destruct Hp as [_ Hp].
  pose proof (loop_flash i st) as Hf. rewrite Hb, Hfl in Hf. cbn [andb] in Hf.
  pose proof (loop_brightness_no_beat i st Hb) as Hl.
  rewrite updateLED_brightness, Hled in Hl.
  change (0 >? 0) with false in Hl. rewrite andb_false_r in Hl.
  split; [auto|].
  split; [rewrite loop_serial_no_beat, Hfp by exact Hb; reflexivity|].
  split; [rewrite loop_heart, Hb, Hfl; reflexivity|].
  rewrite loop_ledc_writes. unfold beatStage. rewrite Hb. msimpl.
  set (s0 := set_currentSignal (in_sample i) st).
  pose proof (flashStage_spec (in_now i) s0) as Hs.
  replace (beatFlashActive s0) with false in Hs by (symmetry; exact Hfl).
  cbn [andb] in Hs. destruct Hs as [-> _].
  rewrite updateLED_calls.
  replace (ledBrightness s0) with 0 by (symmetry; exact Hled).
  change (0 >? 0) with false. rewrite andb_false_r. reflexivity.
Qed.

Lemma run_before_first_beat ins st :
  Forall no_beat ins ->
  fingerPresent st = false -> beatFlashActive st = false -> ledBrightness st = 0 ->
  (fingerPresent (run ins st) = false /\ beatFlashActive (run ins st) = false /\
   ledBrightness (run ins st) = 0) /\
  serial_writes (dashboard_run_calls ins st) = [] /\
  heart_colors (dashboard_run_calls ins st) = [] /\
  ledc_writes (dashboard_run_calls ins st) = [].
Proof.
  revert st; induction ins as [|i ins IH]; intros st Hnb Hfp Hfl Hled.
  - cbn. auto.
  - inversion Hnb as [|? ? Hi Hnb']; subst.
    destruct (loop_before_first_beat i st Hi Hfp Hfl Hled) as ((H1 & H2 & H3) & H4 & H5 & H6).
    destruct (IH (exec (loop i) st) Hnb' H1 H2 H3) as (HA & HB & HC & HD).
    cbn [run foldl dashboard_run_calls]. fold (run ins (exec (loop i) st)).
    split; [exact HA|].
    rewrite serial_writes_app, heart_colors_app, ledc_writes_app, H4, H5, H6, HB, HC, HD. auto.
Qed.

(** *** Presence and the numbers on display *)

Lemma loop_readouts_no_beat i st :
  in_beat i = None -> fingerPresent st && timed_out i st = false ->
  let st' := exec (loop i) st in
  fingerPresent st' = fingerPresent st /\
  currentBPM st' = currentBPM st /\ currentIBI st' = currentIBI st /\
  lastDisplayedBPM st' = lastDisplayedBPM st /\ lastDisplayedIBI st' = lastDisplayedIBI st.
Proof.
  intros Hb Hto; cbn zeta. rewrite exec_loop, beatStage_none by assumption.
  set (s3 := exec (updateLED _) _).
  assert (H3 : fingerPresent s3 = fingerPresent st /\ lastBeatTime s3 = lastBeatTime st /\
               currentBPM s3 = currentBPM st /\ currentIBI s3 = currentIBI st /\
               lastDisplayedBPM s3 = lastDisplayedBPM st /\
               lastDisplayedIBI s3 = lastDisplayedIBI st).
  { subst s3. repeat split; tidy; reflexivity. }
  clearbody s3. destruct H3 as (Hfp & Hlb & H1 & H2 & H3 & H4).
  pose proof (checkFingerTimeout_spec (in_now_timeout i) s3) as Ht; cbn zeta in Ht.
  unfold timed_out in Hto. rewrite Hfp, Hlb, Hto in Ht. rewrite Ht.
  repeat split; frame_out; assumption.
Qed.

Lemma loop_readouts i st :
  dashboard_readouts_follow_presence st -> dashboard_readouts_follow_presence (exec (loop i) st).
Proof.
  unfold dashboard_readouts_follow_presence. intros H.
  destruct (in_beat i) as [[bpm ibi]|] eqn:Hb.
  - pose proof (loop_beat i st bpm ibi Hb) as HB; cbn zeta in HB.
    destruct HB as (_ & _ & HB).
    destruct (usub _ _ >? NO_BEAT_TIMEOUT).
    + destruct HB as (-> & -> & -> & -> & ->). auto.
    + destruct HB as (-> & -> & -> & -> & ->). auto.
  - destruct (fingerPresent st && timed_out i st) eqn:Hto.
    + pose proof (loop_presence_no_beat i st Hb) as HP; cbn zeta in HP.
      rewrite Hto in HP. destruct HP as (_ & -> & -> & -> & -> & ->). auto.
    + pose proof (loop_readouts_no_beat i st Hb Hto) as HP; cbn zeta in HP.
      destruct HP as (-> & -> & -> & -> & ->). exact H.
Qed.

Lemma run_readouts ins st :
  dashboard_readouts_follow_presence st -> dashboard_readouts_follow_presence (run ins st).
Proof.
  revert st; induction ins as [|i ins IH]; intros st H; [exact H|].
  apply IH, loop_readouts, H.
Qed.

End Part000More.

Module CYDMore.
Import CYD CYDFacts.

(** *** The LED driver *)

Lemma cyd_updateRgbLed_calls now now_set s :
  calls (updateRgbLed now now_set) s =
  if (ledFadeValue s >? 0) && (usub now (lastLedUpdate s) >? 10) then
    [AnalogWrite RGB_LED_R (ledFadeValue (exec (updateRgbLed now now_set) s))]
  else [].
Proof.
  rewrite cyd_updateRgbLed_fade.
  unfold updateRgbLed. msimpl.
  destruct (ledFadeValue s >? 0); cbn [andb]; [|reflexivity].
  destruct (usub now (lastLedUpdate s) >? 10); [|reflexivity].
  cbn zeta. msimpl. proj. case_match; msimpl; proj; reflexivity.
Qed.

Lemma cyd_loop_analog_writes i st :
  analog_writes (calls (loop i) st) =
  analog_writes (calls (updateRgbLed (in_now_led i) (in_now_led_set i))
                   (exec (flashStage (in_now_flash i))
                      (exec (renderStage i)
                         (exec (beatStage i) (set_currentSignal (in_sample i) st))))).
Proof.
  pose proof (cyd_calls_loop i st) as Hc; cbn zeta in Hc. rewrite Hc; clear Hc.
  unfold analog_writes. rewrite !omap_app. fold analog_writes.
  rewrite (quiet_analog_writes (beatStage _)) by frame.
  rewrite (quiet_analog_writes (renderStage _)) by frame.
  rewrite (quiet_analog_writes (flashStage _)) by frame.
  rewrite (quiet_analog_writes (checkFingerTimeout _)) by frame.
  rewrite app_nil_r. reflexivity.
Qed.

(** *** The fade over a run *)

Lemma cyd_fade_ticks_nonneg ins st : 0 <= cyd_fade_ticks ins st.
Proof.
  revert st; induction ins as [|i ins IH]; intros st; cbn [cyd_fade_ticks]; [lia|].
  specialize (IH (exec (loop i) st)). case_match; lia.
Qed.

Lemma cyd_run_fade ins st :
  Forall no_beat ins -> 0 <= ledFadeValue st <= 255 ->
  ledFadeValue (run ins st) = Z.max 0 (ledFadeValue st - 8 * cyd_fade_ticks ins st).
Proof.
  revert st; induction ins as [|i ins IH]; intros st Hnb Hb.
  - cbn [run foldl cyd_fade_ticks]. lia.
  - inversion Hnb as [|? ? Hi Hnb']; subst.
    cbn [run foldl cyd_fade_ticks]. fold (run ins (exec (loop i) st)).
    pose proof (cyd_fade_ticks_nonneg ins (exec (loop i) st)) as Ht.
    rewrite IH by (auto using cyd_loop_fade_range).
    rewrite (cyd_loop_fade_no_beat _ _ Hi), cyd_updateRgbLed_fade.
    destruct ((ledFadeValue st >? 0) && _); [|f_equal; lia].
    cbn zeta. unfold isub. rewrite wrap32_id by (unfold INT_MIN, INT_MAX; lia).
    case_match; lia.
Qed.

Lemma cyd_quiet_run_no_beat t step s n : Forall no_beat (cyd_quiet_run t step s n).
Proof. unfold cyd_quiet_run. apply Forall_fmap, Forall_forall. reflexivity. Qed.

(** *** The buffer between two visits of the cursor *)

Lemma cyd_run_buffer_other rest st a :
  0 <= waveformIndex st < SCREEN_WIDTH -> 0 <= a ->
  (forall k w, writes rest st !! k = Some w -> w <> a) ->
  waveformBuffer (run rest st) !! Z.to_nat a = waveformBuffer st !! Z.to_nat a.
Proof.
  revert st; induction rest as [|i rest IH]; intros st Hx Ha Hw; [reflexivity|].
  cbn [run foldl]. fold (run rest (exec (loop i) st)).
  pose proof (cyd_loop_cursor_range i st Hx) as Hx'.
  cbn [writes] in Hw.
  rewrite IH; [|exact Hx'|exact Ha|].
  - rewrite cyd_loop_buffer. destruct (renders i st); [|reflexivity].
    unfold buffer_set. apply list_lookup_insert_ne.
    specialize (Hw 0%nat (waveformIndex st) eq_refl). lia.
  - intros k w Hk. destruct (renders i st).
    + apply (Hw (S k) w). exact Hk.
    + apply (Hw k w). exact Hk.
Qed.

Lemma cyd_sample_stays i rest st :
  0 <= waveformIndex st < SCREEN_WIDTH ->
  length (waveformBuffer st) = 320%nat ->
  renders i st = true ->
  (length (writes rest (exec (loop i) st)) < 320)%nat ->
  waveformBuffer (run rest (exec (loop i) st)) !! Z.to_nat (waveformIndex st)
  = Some (in_sample i).
Proof.
  intros Hx Hl Hr Hn.
  pose proof (cyd_loop_cursor_range i st Hx) as Hx'.
  rewrite cyd_run_buffer_other; [|exact Hx'|lia|].
  - rewrite cyd_loop_buffer, Hr. unfold buffer_set.
    apply list_lookup_insert_eq. unfold SCREEN_WIDTH in Hx. lia.
  - intros k w Hk Hw.
    pose proof (lookup_lt_Some _ _ _ Hk) as Hlt.
    apply cyd_writes_lookup in Hk; [|exact Hx'].
    rewrite cyd_loop_cursor, Hr in Hk by exact Hx.
    unfold SCREEN_WIDTH in *.
    rewrite Zplus_mod_idemp_l in Hk.
    assert (E : (waveformIndex st + 1 + Z.of_nat k) mod 320
                = (waveformIndex st + Z.of_nat 0) mod 320).
    { rewrite <- Hk, Hw. cbn [Z.of_nat]. rewrite Z.add_0_r. symmetry. apply Z.mod_small. lia. }
    replace (waveformIndex st + 1 + Z.of_nat k)
      with (waveformIndex st + Z.of_nat (S k)) in E by lia.
    symmetry in E. revert E. apply Part000Facts.mod_shift_distinct. lia.
Qed.

(** *** An iteration in which nothing is due *)

Lemma cyd_drawHeart_exec color s : exec (drawHeart color) s = s.
Proof. unfold drawHeart; msimpl. reflexivity. Qed.

Lemma cyd_drawHeart_calls color s :
  calls (drawHeart color) s =
  [TftFillCircle (BEAT_X - Z.quot BEAT_R 2) BEAT_Y (Z.quot BEAT_R 2) color;
   TftFillCircle (BEAT_X + Z.quot BEAT_R 2) BEAT_Y (Z.quot BEAT_R 2) color;
   TftFillTriangle (BEAT_X - BEAT_R) BEAT_Y (BEAT_X + BEAT_R) BEAT_Y
     BEAT_X (BEAT_Y + BEAT_R) color].
Proof. unfold drawHeart; msimpl. reflexivity. Qed.

Lemma cyd_flashStage_spec now s :
  if beatFlashActive s && (usub now (lastBeatTime s) >? 100) then
    exec (flashStage now) s = set_beatFlashActive false s /\
    calls (flashStage now) s = calls (drawHeart COLOR_HEART_DIM) s
  else exec (flashStage now) s = s /\ calls (flashStage now) s = [].
Proof.
  unfold flashStage; msimpl.
  destruct (_ && _); msimpl; [|split; reflexivity].
  rewrite cyd_drawHeart_exec, !cyd_drawHeart_calls. split; reflexivity.
Qed.

Lemma cyd_updateRgbLed_exec_off now now_set s :
  (ledFadeValue s >? 0) && (usub now (lastLedUpdate s) >? 10) = false ->
  exec (updateRgbLed now now_set) s = s.
Proof.
  unfold updateRgbLed; msimpl.
  destruct (ledFadeValue s >? 0); cbn [andb]; [|reflexivity].
  msimpl. intros ->. reflexivity.
Qed.

Lemma cyd_onBeat_calls now bpm ibi s :
  exists sA sB,
    calls (onBeat now bpm ibi) s =
    calls (drawBPM bpm) sA ++ calls (drawIBI ibi) sB ++
    calls (drawHeart COLOR_HEART) s ++
    [SerialWrite "BPM: "; SerialWrite (dec bpm); SerialWrite " | IBI: ";
     SerialWrite (dec ibi +:+ CRLF)] /\
    lastDisplayedBPM sA = lastDisplayedBPM s /\
    lastDisplayedIBI sB = lastDisplayedIBI s.
Proof.
  unfold onBeat; msimpl.
  rewrite !app_nil_l, !cyd_drawHeart_calls. tidy.
  eexists; eexists. split; [reflexivity|]. tidy. split; reflexivity.
Qed.

Lemma cyd_renderTick_calls_cons now s : exists e evs, calls (renderTick now) s = e :: evs.
Proof.
  destruct (cyd_renderTick_calls now s) as (sC & -> & _).
  set (sD := exec updateMinMax _). clearbody sD.
  pose proof (cyd_drawWaveformColumn_calls sD) as H; cbn zeta in H.
  rewrite H. eexists; eexists; reflexivity.
Qed.

Lemma cyd_loop_idle i st :
  if cyd_idle i st then
    calls (loop i) st = [] /\ exec (loop i) st = set_currentSignal (in_sample i) st
  else calls (loop i) st <> [].
Proof.
  pose proof (cyd_calls_loop i st) as Hc; cbn zeta in Hc. rewrite Hc, cyd_exec_loop; clear Hc.
  unfold cyd_idle, beatStage.
  destruct (in_beat i) as [[bpm ibi]|]; cbn [andb].
  { destruct (cyd_onBeat_calls (in_now_beat i) bpm ibi
                (set_currentSignal (in_sample i) st)) as (sA & sB & -> & _).
    rewrite cyd_drawHeart_calls. intros E.
    apply app_eq_nil in E as [E _]. apply app_eq_nil in E as [_ E].
    apply app_eq_nil in E as [_ E]. discriminate. }
  msimpl. rewrite app_nil_l.
  set (s0 := set_currentSignal (in_sample i) st).
  rewrite cyd_renderStage_calls, cyd_renderStage_spec.
  replace (renders i s0) with (renders i st) by reflexivity.
  destruct (renders i st); cbn [negb andb].
  { destruct (cyd_renderTick_calls_cons (in_now_drawn i) s0) as (e & evs & ->).
    discriminate. }
  rewrite app_nil_l.
  pose proof (cyd_flashStage_spec (in_now_flash i) s0) as Hf.
  replace (beatFlashActive s0) with (beatFlashActive st) in Hf by reflexivity.
  replace (lastBeatTime s0) with (lastBeatTime st) in Hf by reflexivity.
  destruct (beatFlashActive st && _); cbn [negb andb].
  { destruct Hf as [_ ->]. rewrite cyd_drawHeart_calls. discriminate. }
  destruct Hf as [-> ->]. rewrite app_nil_l.
  pose proof (cyd_updateRgbLed_calls (in_now_led i) (in_now_led_set i) s0) as Hl.
  pose proof (cyd_updateRgbLed_exec_off (in_now_led i) (in_now_led_set i) s0) as Hx.
  replace (lastLedUpdate s0) with (lastLedUpdate st) in * by reflexivity.
  replace (ledFadeValue s0) with (ledFadeValue st) in * by reflexivity.
  destruct ((ledFadeValue st >? 0) && _); cbn [negb andb].
  { rewrite Hl. discriminate. }
  rewrite Hl, (Hx eq_refl), app_nil_l. clear Hl Hx.
  pose proof (cyd_checkFingerTimeout_spec (in_now_timeout i) s0) as Ht; cbn zeta in Ht.
  pose proof (cyd_checkFingerTimeout_calls (in_now_timeout i) s0) as Htc.
  replace (fingerPresent s0) with (fingerPresent st) in * by reflexivity.
  replace (lastBeatTime s0) with (lastBeatTime st) in * by reflexivity.
  unfold timed_out.
  destruct (fingerPresent st && _); cbn [negb].
  - rewrite Htc. discriminate.
  - rewrite Ht, Htc. split; reflexivity.
Qed.

(** *** A beat, and the heart *)

Lemma cyd_onBeat_flash now bpm ibi s : beatFlashActive (exec (onBeat now bpm ibi) s) = true.
Proof. unfold onBeat; msimpl. tidy. reflexivity. Qed.

Lemma cyd_loop_beat i st bpm ibi :
  in_beat i = Some (bpm, ibi) ->
  let st' := exec (loop i) st in
  lastBeatTime st' = in_now_beat i /\ currentBPM st' = bpm /\ currentIBI st' = ibi /\
  beatFlashActive st' = negb (usub (in_now_flash i) (in_now_beat i) >? 100) /\
  if usub (in_now_timeout i) (in_now_beat i) >? NO_BEAT_TIMEOUT then
    fingerPresent st' = false /\ lastDisplayedBPM st' = -1 /\ lastDisplayedIBI st' = -1
  else
    fingerPresent st' = true /\ lastDisplayedBPM st' = bpm /\ lastDisplayedIBI st' = ibi.
Proof.
  intros Hb; cbn zeta. rewrite cyd_exec_loop. unfold beatStage; rewrite Hb.
  set (s0 := set_currentSignal (in_sample i) st).
  pose proof (cyd_onBeat_spec (in_now_beat i) bpm ibi s0) as H; cbn zeta in H.
  pose proof (cyd_onBeat_flash (in_now_beat i) bpm ibi s0) as Hfl.
  set (s1 := exec (onBeat (in_now_beat i) bpm ibi) s0) in *. clearbody s1.
  destruct H as (Hbpm & Hibi & Hlb & Hfp & _ & Hsb & Hsi).
  set (s2 := exec (renderStage i) s1).
  assert (H2 : fingerPresent s2 = true /\ lastBeatTime s2 = in_now_beat i /\
               beatFlashActive s2 = true /\ currentBPM s2 = bpm /\ currentIBI s2 = ibi /\
               lastDisplayedBPM s2 = bpm /\ lastDisplayedIBI s2 = ibi).
  { subst s2. repeat split; frame_out; assumption. }
  clearbody s2. clear Hbpm Hibi Hlb Hfp Hsb Hsi Hfl.
  destruct H2 as (Hfp & Hlb & Hfl & Hbpm & Hibi & Hsb & Hsi).
  pose proof (cyd_flashStage_spec (in_now_flash i) s2) as Hf.
  rewrite Hfl, Hlb in Hf. cbn [andb] in Hf.
  set (s3 := exec (flashStage (in_now_flash i)) s2) in *.
  assert (H3 : fingerPresent s3 = true /\ lastBeatTime s3 = in_now_beat i /\
               currentBPM s3 = bpm /\ currentIBI s3 = ibi /\
               lastDisplayedBPM s3 = bpm /\ lastDisplayedIBI s3 = ibi).
  { subst s3. repeat split; frame_out; assumption. }
  assert (Hfl3 : beatFlashActive s3 = negb (usub (in_now_flash i) (in_now_beat i) >? 100)).
  { destruct (_ >? 100); destruct Hf as [-> _]; cbn [negb]; [reflexivity|assumption]. }
  clearbody s3. clear Hbpm Hibi Hlb Hfp Hsb Hsi Hfl Hf.
  destruct H3 as (Hfp & Hlb & Hbpm & Hibi & Hsb & Hsi).
  set (s4 := exec (updateRgbLed (in_now_led i) (in_now_led_set i)) s3).
  assert (H4 : fingerPresent s4 = true /\ lastBeatTime s4 = in_now_beat i /\
               currentBPM s4 = bpm /\ currentIBI s4 = ibi /\
               lastDisplayedBPM s4 = bpm /\ lastDisplayedIBI s4 = ibi /\
               beatFlashActive s4 = negb (usub (in_now_flash i) (in_now_beat i) >? 100)).
  { subst s4. repeat split; frame_out; assumption. }
  clearbody s4. clear Hbpm Hibi Hlb Hfp Hsb Hsi Hfl3.
  destruct H4 as (Hfp & Hlb & Hbpm & Hibi & Hsb & Hsi & Hfl).
  pose proof (cyd_checkFingerTimeout_spec (in_now_timeout i) s4) as Ht; cbn zeta in Ht.
  rewrite Hfp, Hlb in Ht. cbn [andb] in Ht.
  split; [frame_out; assumption|]. split; [frame_out; assumption|].
  split; [frame_out; assumption|]. split; [frame_out; assumption|].
  destruct (usub (in_now_timeout i) (in_now_beat i) >? NO_BEAT_TIMEOUT).
  - destruct Ht as (? & ? & ? & _). auto.
  - rewrite Ht. auto.
Qed.

Lemma cyd_loop_flash_no_beat i st :
  in_beat i = None ->
  beatFlashActive (exec (loop i) st) =
  beatFlashActive st && negb (usub (in_now_flash i) (lastBeatTime st) >? 100).
Proof.
  intros Hb. rewrite cyd_exec_loop, cyd_beatStage_none by assumption.
  set (s0 := set_currentSignal (in_sample i) st).
  set (s2 := exec (renderStage i) s0).
  assert (H2 : beatFlashActive s2 = beatFlashActive st /\ lastBeatTime s2 = lastBeatTime st).
  { subst s2. split; frame_out; reflexivity. }
  clearbody s2. destruct H2 as [Hfl Hlb].
  pose proof (cyd_flashStage_spec (in_now_flash i) s2) as Hf. rewrite Hfl, Hlb in Hf.
  assert (E : beatFlashActive (exec (flashStage (in_now_flash i)) s2) =
              beatFlashActive st && negb (usub (in_now_flash i) (lastBeatTime st) >? 100)).
  { destruct (beatFlashActive st) eqn:E; cbn [andb] in *;
      [destruct (_ >? 100)|]; destruct Hf as [-> _]; cbn [negb]; auto. }
  rewrite <- E. frame_out. reflexivity.
Qed.

Lemma cyd_loop_heart i st :
  let flash := match in_beat i with Some _ => true | None => beatFlashActive st end in
  let present := match in_beat i with Some _ => true | None => fingerPresent st end in
  let last := match in_beat i with Some _ => in_now_beat i | None => lastBeatTime st end in
  heart_colors (calls (loop i) st) =
  (match in_beat i with
   | Some _ => [COLOR_HEART; COLOR_HEART; COLOR_HEART]
   | None => []
   end) ++
  (if flash && (usub (in_now_flash i) last >? 100)
   then [COLOR_HEART_DIM; COLOR_HEART_DIM; COLOR_HEART_DIM] else []) ++
  (if present && (usub (in_now_timeout i) last >? NO_BEAT_TIMEOUT)
   then [COLOR_HEART_DIM; COLOR_HEART_DIM; COLOR_HEART_DIM] else []).
Proof.
  cbn zeta.
  pose proof (cyd_calls_loop i st) as Hc; cbn zeta in Hc. rewrite Hc; clear Hc.
  rewrite !heart_colors_app.
  rewrite (quiet_heart_colors (renderStage _)) by frame.
  rewrite (quiet_heart_colors (updateRgbLed _ _)) by frame.
  rewrite !app_nil_l.
  set (s0 := set_currentSignal (in_sample i) st).
  assert (H1 : heart_colors (calls (beatStage i) s0) =
               match in_beat i with
               | Some _ => [COLOR_HEART; COLOR_HEART; COLOR_HEART]
               | None => []
               end /\
               beatFlashActive (exec (beatStage i) s0) =
               match in_beat i with Some _ => true | None => beatFlashActive st end /\
               fingerPresent (exec (beatStage i) s0) =
               match in_beat i with Some _ => true | None => fingerPresent st end /\
               lastBeatTime (exec (beatStage i) s0) =
               match in_beat i with Some _ => in_now_beat i | None => lastBeatTime st end).
  { unfold beatStage. destruct (in_beat i) as [[bpm ibi]|].
    - pose proof (cyd_onBeat_spec (in_now_beat i) bpm ibi s0) as H; cbn zeta in H.
      destruct H as (_ & _ & Hlb & Hfp & _).
      split; [|split; [apply cyd_onBeat_flash|split; assumption]].
      destruct (cyd_onBeat_calls (in_now_beat i) bpm ibi s0) as (sA & sB & -> & _).
      rewrite !heart_colors_app.
      rewrite (quiet_heart_colors (drawBPM bpm)) by frame.
      rewrite (quiet_heart_colors (drawIBI ibi)) by frame.
      rewrite cyd_drawHeart_calls. reflexivity.
    - msimpl. repeat split. }
  destruct H1 as (-> & Hfl & Hfp & Hlb).
  set (s1 := exec (beatStage i) s0) in *. clearbody s1.
  set (s2 := exec (renderStage i) s1).
  assert (H2 : beatFlashActive s2 = beatFlashActive s1 /\ lastBeatTime s2 = lastBeatTime s1 /\
               fingerPresent s2 = fingerPresent s1).
  { subst s2. repeat split; frame_out; reflexivity. }
  clearbody s2. destruct H2 as (Hfl2 & Hlb2 & Hfp2).
  pose proof (cyd_flashStage_spec (in_now_flash i) s2) as Hf.
  rewrite Hfl2, Hlb2, Hfl, Hlb in Hf.
  assert (E3 : heart_colors (calls (flashStage (in_now_flash i)) s2) =
               if match in_beat i with Some _ => true | None => beatFlashActive st end &&
                  (usub (in_now_flash i)
                     match in_beat i with
                     | Some _ => in_now_beat i
                     | None => lastBeatTime st
                     end >? 100)
               then [COLOR_HEART_DIM; COLOR_HEART_DIM; COLOR_HEART_DIM] else []).
  { destruct (_ && _); destruct Hf as [_ ->]; [|reflexivity].
    rewrite cyd_drawHeart_calls. reflexivity. }
  rewrite E3. clear E3 Hf.
  set (s4 := exec (updateRgbLed _ _) _).
  assert (H4 : fingerPresent s4 = fingerPresent s2 /\ lastBeatTime s4 = lastBeatTime s2).
  { subst s4. split; frame_out; reflexivity. }
  clearbody s4. destruct H4 as (Hfp4 & Hlb4).
  rewrite cyd_checkFingerTimeout_calls, Hfp4, Hlb4, Hfp2, Hlb2, Hfp, Hlb.
  do 2 f_equal.
  destruct (_ && _); [|reflexivity].
  rewrite !heart_colors_app, cyd_drawHeart_calls. reflexivity.
Qed.

(** *** Where the renderer paints *)

Lemma cyd_constrain_range v : 80 <= Arduino.constrain v WAVEFORM_TOP WAVEFORM_BOTTOM <= 180.
Proof.
  unfold Arduino.constrain, WAVEFORM_BOTTOM, WAVEFORM_HEIGHT, WAVEFORM_TOP.
  repeat case_match; lia.
Qed.

Lemma cyd_drawWaveformColumn_within s :
  0 <= waveformIndex s < SCREEN_WIDTH ->
  Forall (within (-1) 319 80 182) (calls drawWaveformColumn s).
Proof.
  intros Hx. unfold SCREEN_WIDTH in Hx.
  pose proof (cyd_drawWaveformColumn_calls s) as H; cbn zeta in H. rewrite H; clear H.
  match goal with
  | |- context [TftDrawLine _ (?a + 0) _ (?b + 0) _] =>
      pose proof (cyd_constrain_range
        (Arduino.map (buffer_get (waveformBuffer s)
           (irem (iadd (isub (waveformIndex s) 1) WAVEFORM_SAMPLES) WAVEFORM_SAMPLES))
           (minSignal s) (maxSignal s) (WAVEFORM_BOTTOM - 5) (WAVEFORM_TOP + 5))) as Hp;
      pose proof (cyd_constrain_range
        (Arduino.map (buffer_get (waveformBuffer s) (waveformIndex s))
           (minSignal s) (maxSignal s) (WAVEFORM_BOTTOM - 5) (WAVEFORM_TOP + 5))) as Hy;
      set (p := a) in *; set (y := b) in *; clearbody p y
  end.
  assert (Hc : 0 <= irem (iadd (waveformIndex s) 10) SCREEN_WIDTH <= 319).
  { unfold irem, iadd, SCREEN_WIDTH. rewrite wrap32_id by (unfold INT_MIN, INT_MAX; lia).
    pose proof (Z.rem_bound_pos (waveformIndex s + 10) 320). lia. }
  set (c := irem _ _) in *. clearbody c.
  assert (Hm : isub (waveformIndex s) 1 = waveformIndex s - 1).
  { unfold isub. apply wrap32_id. unfold INT_MIN, INT_MAX. lia. }
  rewrite Hm. unfold WAVEFORM_TOP, WAVEFORM_HEIGHT.
  repeat (apply Forall_cons; split); [..|constructor]; cbn [within]; lia.
Qed.

Lemma cyd_renderTick_within now s :
  0 <= waveformIndex s < SCREEN_WIDTH ->
  Forall (within (-1) 319 80 182) (calls (renderTick now) s).
Proof.
  intros Hx. destruct (cyd_renderTick_calls now s) as (sC & -> & _).
  apply Forall_app; split.
  - apply cyd_drawWaveformColumn_within. tidy. exact Hx.
  - apply quiet_within; frame.
Qed.

Lemma cyd_loop_within i st :
  0 <= waveformIndex st < SCREEN_WIDTH ->
  Forall (within (-1) 319 80 182) (calls (loop i) st).
Proof.
  intros Hx. pose proof (cyd_calls_loop i st) as Hc; cbn zeta in Hc. rewrite Hc; clear Hc.
  repeat (apply Forall_app; split); try (apply quiet_within; solve [frame]).
  rewrite cyd_renderStage_calls. case_match; [|constructor].
  apply cyd_renderTick_within. tidy. exact Hx.
Qed.

(** *** The trace of one render tick *)

Lemma cyd_loop_trace i st :
  trace_calls (calls (loop i) st) =
  if renders i st then trace_calls (calls drawWaveformColumn (at_draw i st)) else [].
Proof.
  pose proof (cyd_calls_loop i st) as Hc; cbn zeta in Hc. rewrite Hc; clear Hc.
  rewrite !trace_calls_app.
  rewrite (quiet_trace_calls (beatStage i)) by frame.
  rewrite (quiet_trace_calls (flashStage _)) by frame.
  rewrite (quiet_trace_calls (updateRgbLed _ _)) by frame.
  rewrite (quiet_trace_calls (checkFingerTimeout _)) by frame.
  rewrite !app_nil_r, app_nil_l, cyd_renderStage_calls, cyd_renders_loop.
  destruct (renders i st); [|reflexivity].
  destruct (cyd_renderTick_calls (in_now_drawn i)
              (exec (beatStage i) (set_currentSignal (in_sample i) st))) as (sC & -> & _).
  fold (at_draw i st). rewrite trace_calls_app.
  rewrite (quiet_trace_calls (drawSignal _)) by frame.
  apply app_nil_r.
Qed.

Lemma cyd_at_draw_buffer i st :
  waveformIndex (at_draw i st) = waveformIndex st /\
  waveformBuffer (at_draw i st) =
  buffer_set (waveformIndex st) (in_sample i) (waveformBuffer st).
Proof.
  unfold at_draw.
  set (s1 := exec (beatStage i) _).
  assert (H1 : waveformIndex s1 = waveformIndex st /\ currentSignal s1 = in_sample i /\
               waveformBuffer s1 = waveformBuffer st).
  { subst s1. repeat split; tidy; reflexivity. }
  clearbody s1. destruct H1 as (Hx & Hc & Hb).
  split; frame_out; unfold storeSample; msimpl; proj; rewrite ?Hx, ?Hc, ?Hb; reflexivity.
Qed.

Lemma cyd_prev_index x :
  0 <= x < SCREEN_WIDTH ->
  irem (iadd (isub x 1) WAVEFORM_SAMPLES) WAVEFORM_SAMPLES = (x - 1) mod 320.
Proof.
  unfold WAVEFORM_SAMPLES, SCREEN_WIDTH, irem, iadd, isub. intros Hx.
  rewrite (wrap32_id (x - 1)) by (unfold INT_MIN, INT_MAX; lia).
  rewrite wrap32_id by (unfold INT_MIN, INT_MAX; lia).
  rewrite Z.rem_mod_nonneg by lia.
  replace (x - 1 + 320) with (x - 1 + 1 * 320) by lia.
  apply Z_mod_plus_full.
Qed.

Lemma cyd_buffer_get_set_eq buf x v :
  0 <= x -> (Z.to_nat x < length buf)%nat -> buffer_get (buffer_set x v buf) x = v.
Proof.
  intros Hx Hl. unfold buffer_get, buffer_set.
  rewrite list_lookup_insert_eq by exact Hl. reflexivity.
Qed.

Lemma cyd_buffer_get_set_ne buf x x' v :
  0 <= x -> 0 <= x' -> x <> x' -> buffer_get (buffer_set x v buf) x' = buffer_get buf x'.
Proof.
  intros Hx Hx' Hne. unfold buffer_get, buffer_set.
  rewrite list_lookup_insert_ne by lia. reflexivity.
Qed.

Lemma cyd_loop_trace_samples i st :
  0 <= waveformIndex st < SCREEN_WIDTH ->
  length (waveformBuffer st) = 320%nat ->
  let x := waveformIndex st in
  let s := at_draw i st in
  let row v :=
    Arduino.constrain
      (Arduino.map v (minSignal s) (maxSignal s) (WAVEFORM_BOTTOM - 5) (WAVEFORM_TOP + 5))
      WAVEFORM_TOP WAVEFORM_BOTTOM in
  let y1 := row (buffer_get (waveformBuffer st) ((x - 1) mod 320)) in
  let y2 := row (in_sample i) in
  trace_calls (calls (loop i) st) =
  if renders i st then
    [TftDrawFastVLine x WAVEFORM_TOP WAVEFORM_HEIGHT COLOR_BG;
     TftDrawLine (x - 1) (y1 + 0) x (y2 + 0) COLOR_WAVEFORM;
     TftDrawLine (x - 1) (y1 + 1) x (y2 + 1) COLOR_WAVEFORM;
     TftDrawLine (x - 1) (y1 + 2) x (y2 + 2) COLOR_WAVEFORM;
     TftDrawFastVLine ((x + 10) mod 320) WAVEFORM_TOP WAVEFORM_HEIGHT COLOR_BG]
  else [].
Proof.
  intros Hx Hl. cbn zeta.
  rewrite cyd_loop_trace. destruct (renders i st); [|reflexivity].
  pose proof (cyd_drawWaveformColumn_calls (at_draw i st)) as H; cbn zeta in H.
  rewrite H; clear H.
  destruct (cyd_at_draw_buffer i st) as [-> ->].
  rewrite cyd_prev_index by exact Hx. unfold SCREEN_WIDTH in Hx.
  pose proof (Z.mod_pos_bound (waveformIndex st - 1) 320 ltac:(lia)) as Hm.
  assert (Hne : waveformIndex st <> (waveformIndex st - 1) mod 320).
  { intros E. destruct (Z.eq_dec (waveformIndex st) 0) as [E0|E0].
    - rewrite E0 in E. vm_compute in E. discriminate.
    - rewrite Z.mod_small in E by lia. lia. }
  rewrite cyd_buffer_get_set_eq by lia.
  rewrite cyd_buffer_get_set_ne by lia.
  assert (Hs : isub (waveformIndex st) 1 = waveformIndex st - 1).
  { unfold isub. apply wrap32_id. unfold INT_MIN, INT_MAX. lia. }
  assert (Hc : irem (iadd (waveformIndex st) 10) SCREEN_WIDTH =
               (waveformIndex st + 10) mod 320).
  { unfold irem, iadd, SCREEN_WIDTH. rewrite wrap32_id by (unfold INT_MIN, INT_MAX; lia).
    apply Z.rem_mod_nonneg; lia. }
  rewrite Hs, Hc. reflexivity.
Qed.

(** *** The row of the newest sample *)

Lemma cyd_map_newest cs mn mx :
  is_sample cs -> 0 <= mn <= 1800 -> 2200 <= mx <= 4095 ->
  mn <= cs + 1 -> cs - 1 <= mx ->
  85 <= Arduino.map cs mn mx (WAVEFORM_BOTTOM - 5) (WAVEFORM_TOP + 5) <= 175.
Proof.
  unfold is_sample, WAVEFORM_BOTTOM, WAVEFORM_HEIGHT, WAVEFORM_TOP. intros Hc Hmn Hmx Hlo Hhi.
  assert (Hrun : isub mx mn = mx - mn) by (apply wrap32_id; unfold INT_MIN, INT_MAX; lia).
  rewrite cyd_map_run by lia. rewrite Hrun.
  assert (Hd : isub cs mn = cs - mn) by (apply wrap32_id; unfold INT_MIN, INT_MAX; lia).
  assert (Hr : isub (80 + 5) (80 + 100 - 5) = -90) by reflexivity.
  rewrite Hd, Hr. unfold imul.
  rewrite (wrap32_id ((cs - mn) * -90)) by (unfold INT_MIN, INT_MAX; lia).
  assert (Hq : -90 <= Z.quot ((cs - mn) * -90) (mx - mn) <= 0).
  { destruct (Z_lt_le_dec (cs - mn) 0) as [Hneg|Hpos].
    - replace (cs - mn) with (-1) by lia.
      rewrite Z.quot_small by lia. lia.
    - replace ((cs - mn) * -90) with (- (90 * (cs - mn))) by lia.
      rewrite Z.quot_opp_l by lia.
      rewrite Z.quot_div_nonneg by lia.
      assert (0 <= 90 * (cs - mn) / (mx - mn)) by (apply Z.div_pos; lia).
      assert (90 * (cs - mn) / (mx - mn) < 91).
      { apply Z.div_lt_upper_bound; nia. }
      lia. }
  unfold idiv, iadd.
  rewrite (wrap32_id (Z.quot _ _)) by (unfold INT_MIN, INT_MAX; lia).
  rewrite wrap32_id by (unfold INT_MIN, INT_MAX; lia).
  lia.
Qed.

Lemma cyd_at_draw_newest i st :
  is_sample (in_sample i) ->
  0 <= minSignal st <= 4095 /\ 0 <= maxSignal st <= 4095 ->
  let s := at_draw i st in
  let y := Arduino.map (in_sample i) (minSignal s) (maxSignal s)
             (WAVEFORM_BOTTOM - 5) (WAVEFORM_TOP + 5) in
  85 <= y <= 175 /\ Arduino.constrain y WAVEFORM_TOP WAVEFORM_BOTTOM = y.
Proof.
  intros Hs [Hmn Hmx]. cbn zeta.
  destruct (cyd_at_draw_spec i st) as [-> ->].
  pose proof Hs as Hs'. unfold is_sample in Hs'.
  assert (E1 : iadd (Z.min (minSignal st) (in_sample i)) 1 =
               Z.min (minSignal st) (in_sample i) + 1)
    by (apply wrap32_id; unfold INT_MIN, INT_MAX; lia).
  assert (E2 : isub (Z.max (maxSignal st) (in_sample i)) 1 =
               Z.max (maxSignal st) (in_sample i) - 1)
    by (apply wrap32_id; unfold INT_MIN, INT_MAX; lia).
  rewrite E1, E2.
  match goal with |- ?lo <= ?y <= ?hi /\ _ => assert (Hy : lo <= y <= hi) end.
  { apply cyd_map_newest; [exact Hs|lia..]. }
  set (y := Arduino.map _ _ _ _ _) in *. clearbody y.
  split; [exact Hy|].
  unfold Arduino.constrain, WAVEFORM_BOTTOM, WAVEFORM_HEIGHT, WAVEFORM_TOP.
  repeat case_match; lia.
Qed.

(** *** Before the first beat *)

Lemma cyd_loop_before_first_beat i st :
  in_beat i = None ->
  fingerPresent st = false -> beatFlashActive st = false -> ledFadeValue st = 0 ->
  let st' := exec (loop i) st in
  (fingerPresent st' = false /\ beatFlashActive st' = false /\ ledFadeValue st' = 0) /\
  serial_writes (calls (loop i) st) = [] /\
  heart_colors (calls (loop i) st) = [] /\
  analog_writes (calls (loop i) st) = [].
Proof.
  intros Hb Hfp Hfl Hled. cbn zeta.
  pose proof (cyd_loop_presence_no_beat i st Hb) as Hp; cbn zeta in Hp.
  rewrite Hfp in Hp. cbn [andb] in Hp. destruct Hp as [_ Hp].
  pose proof (cyd_loop_flash_no_beat i st Hb) as Hf. rewrite Hfl in Hf. cbn [andb] in Hf.
  pose proof (cyd_loop_fade_no_beat i st Hb) as Hl.
  rewrite cyd_updateRgbLed_fade, Hled in Hl.
  change (0 >? 0) with false in Hl. cbn [andb] in Hl.
  split; [auto|].
  split; [rewrite cyd_loop_serial_no_beat, Hfp by exact Hb; reflexivity|].
  split.
  { pose proof (cyd_loop_heart i st) as Hh; cbn zeta in Hh.
    rewrite Hh, Hb, Hfl, Hfp. reflexivity. }
  rewrite cyd_loop_analog_writes, cyd_updateRgbLed_calls.
  set (s3 := exec (flashStage _) _).
  assert (H3 : ledFadeValue s3 = 0).
  { subst s3. rewrite cyd_beatStage_none by exact Hb. frame_out. exact Hled. }
  rewrite H3. reflexivity.
Qed.

Lemma cyd_run_before_first_beat ins st :
  Forall no_beat ins ->
  fingerPresent st = false -> beatFlashActive st = false -> ledFadeValue st = 0 ->
  (fingerPresent (run ins st) = false /\ beatFlashActive (run ins st) = false /\
   ledFadeValue (run ins st) = 0) /\
  serial_writes (cyd_run_calls ins st) = [] /\
  heart_colors (cyd_run_calls ins st) = [] /\
  analog_writes (cyd_run_calls ins st) = [].
Proof.
  revert st; induction ins as [|i ins IH]; intros st Hnb Hfp Hfl Hled.
  - cbn. auto.
  - inversion Hnb as [|? ? Hi Hnb']; subst.
    destruct (cyd_loop_before_first_beat i st Hi Hfp Hfl Hled)
      as ((H1 & H2 & H3) & H4 & H5 & H6).
    destruct (IH (exec (loop i) st) Hnb' H1 H2 H3) as (HA & HB & HC & HD).
    cbn [run foldl cyd_run_calls]. fold (run ins (exec (loop i) st)).
    split; [exact HA|].
    rewrite serial_writes_app, heart_colors_app, analog_writes_app, H4, H5, H6, HB, HC, HD. auto.
Qed.

(** *** The timeout *)

Lemma cyd_loop_timeout i st :
  in_beat i = None -> fingerPresent st = true -> timed_out i st = true ->
  let st' := exec (loop i) st in
  fingerPresent st' = false /\
  minSignal st' = 1800 /\ maxSignal st' = 2200 /\
  lastDisplayedBPM st' = -1 /\ lastDisplayedSignal st' = -1 /\ lastDisplayedIBI st' = -1 /\
  currentBPM st' = currentBPM st /\ currentIBI st' = currentIBI st.
Proof.
  intros Hb Hfp Hto. cbn zeta.
  pose proof (cyd_loop_presence_no_beat i st Hb) as Hp; cbn zeta in Hp.
  rewrite Hfp, Hto in Hp. cbn [andb] in Hp.
  destruct Hp as (_ & H1 & H2 & H3 & H4 & H5 & H6).
  repeat (split; [assumption|]).
  rewrite cyd_exec_loop, cyd_beatStage_none by exact Hb.
  split; tidy; reflexivity.
Qed.

(** *** Presence and the numbers on display *)

Lemma cyd_loop_readouts_no_beat i st :
  in_beat i = None -> fingerPresent st && timed_out i st = false ->
  let st' := exec (loop i) st in
  fingerPresent st' = fingerPresent st /\
  currentBPM st' = currentBPM st /\ currentIBI st' = currentIBI st /\
  lastDisplayedBPM st' = lastDisplayedBPM st /\ lastDisplayedIBI st' = lastDisplayedIBI st.
Proof.
  intros Hb Hto; cbn zeta. rewrite cyd_exec_loop, cyd_beatStage_none by assumption.
  set (s4 := exec (updateRgbLed _ _) _).
  assert (H4 : fingerPresent s4 = fingerPresent st /\ lastBeatTime s4 = lastBeatTime st /\
               currentBPM s4 = currentBPM st /\ currentIBI s4 = currentIBI st /\
               lastDisplayedBPM s4 = lastDisplayedBPM st /\
               lastDisplayedIBI s4 = lastDisplayedIBI st).
  { subst s4. repeat split; tidy; reflexivity. }
  clearbody s4. destruct H4 as (Hfp & Hlb & H1 & H2 & H3 & H4).
  pose proof (cyd_checkFingerTimeout_spec (in_now_timeout i) s4) as Ht; cbn zeta in Ht.
  unfold timed_out in Hto. rewrite Hfp, Hlb, Hto in Ht. rewrite Ht. auto.
Qed.

Lemma cyd_loop_readouts i st :
  cyd_readouts_follow_presence st -> cyd_readouts_follow_presence (exec (loop i) st).
Proof.
  unfold cyd_readouts_follow_presence. intros H.
  destruct (in_beat i) as [[bpm ibi]|] eqn:Hb.
  - pose proof (cyd_loop_beat i st bpm ibi Hb) as HB; cbn zeta in HB.
    destruct HB as (_ & -> & -> & _ & HB).
    destruct (usub _ _ >? NO_BEAT_TIMEOUT); destruct HB as (-> & -> & ->); auto.
  - destruct (fingerPresent st && timed_out i st) eqn:Hto.
    + pose proof (cyd_loop_presence_no_beat i st Hb) as HP; cbn zeta in HP.
      rewrite Hto in HP. destruct HP as (_ & -> & -> & -> & _). auto.
    + pose proof (cyd_loop_readouts_no_beat i st Hb Hto) as HP; cbn zeta in HP.
      destruct HP as (-> & -> & -> & -> & ->). exact H.
Qed.

Lemma cyd_run_readouts ins st :
  cyd_readouts_follow_presence st -> cyd_readouts_follow_presence (run ins st).
Proof.
  revert st; induction ins as [|i ins IH]; intros st H; [exact H|].
  apply IH, cyd_loop_readouts, H.
Qed.

(** *** The text of the IBI field *)

Lemma pretty_N_go_length k x s :
  (x < 10 ^ N.of_nat k)%N ->
  (String.length (pretty_N_go x s) <= k + String.length s)%nat.
Proof.
  revert x s; induction k as [|k IH]; intros x s Hx.
  - assert (x = 0%N) as -> by (cbn in Hx; lia). rewrite pretty_N_go_0. lia.
  - destruct (N.eq_dec x 0%N) as [->|Hne].
    + rewrite pretty_N_go_0. lia.
    + rewrite pretty_N_go_step by lia.
      etransitivity; [apply IH|cbn [String.length]; lia].
      rewrite Nat2N.inj_succ, N.pow_succ_r' in Hx.
      apply N.Div0.div_lt_upper_bound. lia.
Qed.

Lemma dec_length z :
  -999999 <= z <= 9999999 -> (String.length (dec z) <= 7)%nat.
Proof.
  intros Hz. unfold dec, pretty, pretty_Z.
  destruct z as [|p|p].
  - cbn. lia.
  - unfold pretty, pretty_positive, pretty, pretty_N.
    destruct (decide _); [discriminate|].
    pose proof (pretty_N_go_length 7 (N.pos p) "") as H. cbn [String.length] in H.
    rewrite Nat.add_0_r in H. apply H. cbn. lia.
  - unfold pretty, pretty_positive, pretty, pretty_N.
    destruct (decide _); [discriminate|].
    rewrite str_app_cons. cbn [String.length].
    pose proof (pretty_N_go_length 6 (N.pos p) "") as H. cbn [String.length] in H.
    rewrite Nat.add_0_r in H.
    change ("" +:+ pretty_N_go (N.pos p) "") with (pretty_N_go (N.pos p) "").
    apply le_n_S, H. cbn. lia.
Qed.

Lemma cyd_drawIBI_text ibi s :
  ibi <> lastDisplayedIBI s -> -999999 <= ibi <= 9999999 ->
  let text := dec ibi +:+ "ms" in
  In (TftDrawString text IBI_X (BOTTOM_Y + 16) 4) (calls (drawIBI ibi) s) /\
  (String.length text + 1 <= 10)%nat.
Proof.
  intros Hne Hr. cbn zeta. split.
  - pose proof (cyd_drawIBI_spec ibi s) as H.
    destruct (Z.eqb_spec ibi (lastDisplayedIBI s)) as [E|_]; [contradiction|].
    destruct H as [_ ->]. right; right; left. reflexivity.
  - pose proof (dec_length ibi Hr) as H.
    assert (E : String.length (dec ibi +:+ "ms") = (String.length (dec ibi) + 2)%nat).
    { generalize (dec ibi). intros t. induction t as [|c t IH]; [reflexivity|].
      rewrite str_app_cons. cbn [String.length]. rewrite IH. reflexivity. }
    rewrite E. lia.
Qed.

End CYDMore.

(** X1.  The LED of the Dashboard sketch is active low.  In every iteration
    of [loop] reached from [setup], a beat writes duty 0 to the red channel
    (fully on), a fade step that is due writes 255 minus the brightness the
    iteration ends with, and nothing else is written; green and blue are
    only ever written 255 (off), and every duty is within the 8 bits of the
    channel. *)
Theorem dashboard_led_driver :
  forall ok ins i,
    let st := Part000.run ins (Part000.booted ok) in
    let st' := exec (Part000.loop i) st in
    let due := usub (Part000.in_now_led i) (Part000.lastLedUpdate st) >=? 10 in
    let lit := match Part000.in_beat i with
               | Some _ => true
               | None => Part000.ledBrightness st >? 0
               end in
    ledc_writes (calls (Part000.loop i) st) =
      (match Part000.in_beat i with
       | Some _ => [(Part000.LED_RED_PIN, 0); (Part000.LED_GREEN_PIN, 255);
                    (Part000.LED_BLUE_PIN, 255)]
       | None => []
       end) ++
      (if due && lit
       then [(Part000.LED_RED_PIN, 255 - Part000.ledBrightness st');
             (Part000.LED_GREEN_PIN, 255); (Part000.LED_BLUE_PIN, 255)]
       else []) /\
    Forall (fun w => 0 <= w.2 <= 255 /\ (w.1 = Part000.LED_RED_PIN \/ w.2 = 255))
      (ledc_writes (calls (Part000.loop i) st)).
Proof.
  intros ok ins i; cbn zeta.
  set (st := Part000.run ins (Part000.booted ok)).
  assert (Hr : 0 <= Part000.ledBrightness st <= 255).
  { apply Part000Facts.run_brightness_range.
    destruct (Part000Facts.booted_state ok) as (_ & -> & _). lia. }
  pose proof (Part000Facts.loop_brightness_range i st Hr) as Hr'.
  pose proof (Part000More.loop_ledc_writes_spec i st Hr) as E.
  split; [exact E|]. rewrite E.
  apply Forall_app; split.
  - destruct (Part000.in_beat i); repeat constructor; cbn; auto; lia.
  - destruct (_ && _); repeat constructor; cbn; auto; lia.
Qed.

(** X2.  In [PulseSensor_CYD.ino] the loop drives the LED only through the
    fade: in every iteration reached from [setup] the one possible
    [analogWrite] goes to the red pin, when the LED is lit and more than
    10 ms have passed, with the value the iteration ends with.  The value
    written is at most 247: a beat sets the fade value to 255 without
    writing it, so the LED is never driven at 255, and the green and blue
    pins are never written by the loop. *)
Theorem cyd_led_driver :
  forall ok now ins i,
    let st := CYD.run ins (CYD.booted ok now) in
    let st' := exec (CYD.loop i) st in
    let due := usub (CYD.in_now_led i) (CYD.lastLedUpdate st) >? 10 in
    let lit := match CYD.in_beat i with
               | Some _ => true
               | None => CYD.ledFadeValue st >? 0
               end in
    analog_writes (calls (CYD.loop i) st) =
      (if lit && due then [(CYD.RGB_LED_R, CYD.ledFadeValue st')] else []) /\
    Forall (fun w => w.1 = CYD.RGB_LED_R /\ 0 <= w.2 <= 247)
      (analog_writes (calls (CYD.loop i) st)).
Proof.
  intros ok now ins i; cbn zeta.
  set (st := CYD.run ins (CYD.booted ok now)).
  assert (Hr : 0 <= CYD.ledFadeValue st <= 255).
  { apply CYDFacts.cyd_run_fade_range. rewrite CYDFacts.cyd_booted_fade. lia. }
  assert (E : analog_writes (calls (CYD.loop i) st) =
    (if match CYD.in_beat i with
        | Some _ => true
        | None => CYD.ledFadeValue st >? 0
        end && (usub (CYD.in_now_led i) (CYD.lastLedUpdate st) >? 10)
     then [(CYD.RGB_LED_R, CYD.ledFadeValue (exec (CYD.loop i) st))] else [])).
  { rewrite CYDMore.cyd_loop_analog_writes, CYDMore.cyd_updateRgbLed_calls.
    assert (Hf : CYD.ledFadeValue (exec (CYD.loop i) st) =
                 CYD.ledFadeValue
                   (exec (CYD.updateRgbLed (CYD.in_now_led i) (CYD.in_now_led_set i))
                      (exec (CYD.flashStage (CYD.in_now_flash i))
                         (exec (CYD.renderStage i)
                            (exec (CYD.beatStage i)
                               (CYD.set_currentSignal (CYD.in_sample i) st)))))).
    { rewrite CYDFacts.cyd_exec_loop.
      assert (F : forall t, preserves CYD.ledFadeValue (CYD.checkFingerTimeout t))
        by (intros; CYDFacts.frame).
      rewrite F. reflexivity. }
    rewrite <- Hf.
    assert (F1 : forall t, preserves CYD.ledFadeValue (CYD.flashStage t))
      by (intros; CYDFacts.frame).
    assert (F2 : forall t, preserves CYD.lastLedUpdate (CYD.flashStage t))
      by (intros; CYDFacts.frame).
    assert (F3 : preserves CYD.ledFadeValue (CYD.renderStage i)) by CYDFacts.frame.
    assert (F4 : preserves CYD.lastLedUpdate (CYD.renderStage i)) by CYDFacts.frame.
    assert (F5 : preserves CYD.lastLedUpdate (CYD.beatStage i)) by CYDFacts.frame.
    rewrite F1, F2, F3, F4, F5. cbn [CYD.lastLedUpdate CYD.set_currentSignal].
    unfold CYD.beatStage. destruct (CYD.in_beat i) as [[bpm ibi]|].
    - destruct (CYDFacts.cyd_onBeat_spec (CYD.in_now_beat i) bpm ibi
                  (CYD.set_currentSignal (CYD.in_sample i) st))
        as (_ & _ & _ & _ & -> & _).
      change (255 >? 0) with true. cbn [andb].
      destruct (usub _ _ >? 10); reflexivity.
    - cbn [CYD.ledFadeValue CYD.set_currentSignal].
      destruct (_ && _); reflexivity. }
  split; [exact E|]. rewrite E.
  destruct (CYD.in_beat i) as [[bpm ibi]|] eqn:Hb; cbn [andb].
  - rewrite (CYDFacts.cyd_loop_fade_beat _ _ _ _ Hb).
    destruct (usub _ _ >? 10); repeat constructor; cbn; lia.
  - pose proof (CYDFacts.cyd_loop_fade_no_beat i st Hb) as Hv.
    rewrite CYDFacts.cyd_updateRgbLed_fade in Hv.
    destruct (Z.gtb_spec (CYD.ledFadeValue st) 0); cbn [andb] in *; [|constructor].
    destruct (usub _ _ >? 10); [|constructor].
    cbn zeta in Hv. unfold isub in Hv.
    rewrite wrap32_id in Hv by (unfold INT_MIN, INT_MAX; lia).
    rewrite Hv. repeat constructor; cbn; case_match; lia.
Qed.

(** X3.  Over a run of iterations without beat the LED fades by one step
    per fade tick down to zero: the brightness after the run is
    [max 0 (b - step * ticks)], with step 4 and a tick whenever [updateLED]
    finds 10 ms passed in the Dashboard sketch, step 8 and a tick whenever
    [updateRgbLed] finds the LED lit and more than 10 ms passed in
    [PulseSensor_CYD.ino].  From full brightness the LED is off after 64
    ticks, respectively 32. *)
Theorem led_fade_over_run :
  (forall (st : Part000.State) ins,
     Forall Part000.no_beat ins ->
     0 <= Part000.ledBrightness st <= 255 ->
     Part000.ledBrightness (Part000.run ins st) =
     Z.max 0 (Part000.ledBrightness st
              - Part000.LED_FADE_SPEED * dashboard_fade_ticks ins st)) /\
  (forall (st : CYD.State) ins,
     Forall CYD.no_beat ins ->
     0 <= CYD.ledFadeValue st <= 255 ->
     CYD.ledFadeValue (CYD.run ins st) =
     Z.max 0 (CYD.ledFadeValue st - 8 * cyd_fade_ticks ins st)).
Proof.
  split; intros st ins Hq Hb;
    [apply Part000More.run_fade | apply CYDMore.cyd_run_fade]; assumption.
Qed.

(** After a beat at 1000 ms and its first fade step, three quiet iterations
    10 ms apart take the brightness from 251 to 239. *)
Lemma led_fade_over_run_witness :
  let st := exec (Part000.loop (Part000.beat_at 1000 2000 72 833)) (Part000.booted true) in
  let ins := dashboard_quiet_run 1010 10 2000 3 in
  Forall Part000.no_beat ins /\
  0 <= Part000.ledBrightness st <= 255 /\
  Part000.ledBrightness (Part000.run ins st) = 239.
Proof.
  cbn zeta.
  set (st := exec (Part000.loop (Part000.beat_at 1000 2000 72 833)) (Part000.booted true)).
  set (ins := dashboard_quiet_run 1010 10 2000 3).
  assert (H1 : Forall Part000.no_beat ins) by (repeat constructor).
  assert (H2 : 0 <= Part000.ledBrightness st <= 255) by (vm_compute; split; discriminate).
  split; [exact H1|]. split; [exact H2|].
  rewrite (proj1 led_fade_over_run st ins H1 H2). vm_compute. reflexivity.
Defined.

(** X4.  A sample stored by a render tick stays in its buffer cell until
    the cursor comes round again: in every state reached from [setup], after
    an iteration whose render tick is due, and after any further run with
    fewer than 320 render ticks, the cell the cursor pointed at still holds
    the sample of that iteration.  In both sketches. *)
Theorem stored_sample_stays :
  (forall ok ins i rest,
     let st := Part000.run ins (Part000.booted ok) in
     Part000.renders i st = true ->
     (length (Part000.writes rest (exec (Part000.loop i) st)) < 320)%nat ->
     Part000.waveformBuffer (Part000.run rest (exec (Part000.loop i) st))
       !! Z.to_nat (Part000.waveformX st) = Some (Part000.in_sample i)) /\
  (forall ok now ins i rest,
     let st := CYD.run ins (CYD.booted ok now) in
     CYD.renders i st = true ->
     (length (CYD.writes rest (exec (CYD.loop i) st)) < 320)%nat ->
     CYD.waveformBuffer (CYD.run rest (exec (CYD.loop i) st))
       !! Z.to_nat (CYD.waveformIndex st) = Some (CYD.in_sample i)).
Proof.
  split.
  - intros ok ins i rest st Hr Hn.
    apply Part000More.sample_stays; try assumption.
    + apply Part000Facts.run_cursor_range.
      rewrite Part000Facts.booted_cursor. unfold Part000.SCREEN_WIDTH. lia.
    + subst st. rewrite Part000Facts.run_buffer_length, Part000Facts.booted_buffer.
      apply length_replicate.
  - intros ok now ins i rest st Hr Hn.
    apply CYDMore.cyd_sample_stays; try assumption.
    + apply CYDFacts.cyd_run_cursor_range.
      rewrite CYDFacts.cyd_booted_cursor. unfold CYD.SCREEN_WIDTH. lia.
    + subst st. rewrite CYDFacts.cyd_run_buffer_length, CYDFacts.cyd_booted_buffer.
      apply length_replicate.
Qed.

(** The sample 2000 of the first render tick is still in cell 0 after five
    more render ticks with sample 2100. *)
Lemma stored_sample_stays_witness :
  let i := Part000.quiet_at 1000 2000 in
  let rest := dashboard_quiet_run 1010 10 2100 5 in
  Part000.renders i (Part000.run [] (Part000.booted true)) = true /\
  (length (Part000.writes rest
             (exec (Part000.loop i) (Part000.run [] (Part000.booted true)))) < 320)%nat /\
  Part000.waveformBuffer
    (Part000.run rest (exec (Part000.loop i) (Part000.run [] (Part000.booted true))))
    !! Z.to_nat (Part000.waveformX (Part000.run [] (Part000.booted true))) = Some 2000.
Proof.
  cbn zeta.
  assert (H1 : Part000.renders (Part000.quiet_at 1000 2000)
                 (Part000.run [] (Part000.booted true)) = true) by (vm_compute; reflexivity).
  assert (H2 : (length (Part000.writes (dashboard_quiet_run 1010 10 2100 5)
                  (exec (Part000.loop (Part000.quiet_at 1000 2000))
                     (Part000.run [] (Part000.booted true)))) < 320)%nat)
    by (vm_compute; lia).
  split; [exact H1|]. split; [exact H2|].
  exact (proj1 stored_sample_stays true [] (Part000.quiet_at 1000 2000)
           (dashboard_quiet_run 1010 10 2100 5) H1 H2).
Defined.

(** X5.  An iteration of [loop] in which nothing is due is silent, and only
    then: when there is no beat, no heart flash to end, no fade step, no
    timeout and no render tick, [loop] makes no call to the display, the LED
    or the serial port and changes nothing but [currentSignal] (and, in the
    Dashboard sketch, [lastLedUpdate] when the LED is already dark); in every
    other iteration it makes at least one call.  In both sketches. *)
Theorem idle_iteration_is_silent :
  (forall i st,
     if dashboard_idle i st then
       calls (Part000.loop i) st = [] /\
       exec (Part000.loop i) st =
       (if usub (Part000.in_now_led i) (Part000.lastLedUpdate st) >=? 10
        then Part000.set_lastLedUpdate (Part000.in_now_led i)
               (Part000.set_currentSignal (Part000.in_sample i) st)
        else Part000.set_currentSignal (Part000.in_sample i) st)
     else calls (Part000.loop i) st <> []) /\
  (forall i st,
     if cyd_idle i st then
       calls (CYD.loop i) st = [] /\
       exec (CYD.loop i) st = CYD.set_currentSignal (CYD.in_sample i) st
     else calls (CYD.loop i) st <> []).
Proof. split; [apply Part000More.loop_idle | apply CYDMore.cyd_loop_idle]. Qed.

(** X6.  A beat marks the finger as present: an iteration of [loop] in which
    the sensor saw the start of a beat notes the time of the beat in
    [lastBeatTime] and ends with the finger present, the BPM and IBI of the
    beat current and shown and the heart flash running.  The exceptions are
    those the clock allows: if the clock read by [checkFingerTimeout] is
    already more than 3000 ms past the beat, the same iteration times out
    again (values 0 in the Dashboard sketch, caches -1 in
    [PulseSensor_CYD.ino], where the current BPM and IBI are kept), and in
    [PulseSensor_CYD.ino] the flash ends at once if the clock of the flash
    test is more than 100 ms past the beat. *)
Theorem beat_sets_presence :
  (forall i st bpm ibi,
     Part000.in_beat i = Some (bpm, ibi) ->
     let st' := exec (Part000.loop i) st in
     Part000.lastBeatTime st' = Part000.in_now i /\
     Part000.beatFlashActive st' = true /\
     if usub (Part000.in_now_timeout i) (Part000.in_now i) >? Part000.NO_BEAT_TIMEOUT then
       Part000.fingerPresent st' = false /\
       Part000.currentBPM st' = 0 /\ Part000.currentIBI st' = 0 /\
       Part000.lastDisplayedBPM st' = 0 /\ Part000.lastDisplayedIBI st' = 0
     else
       Part000.fingerPresent st' = true /\
       Part000.currentBPM st' = bpm /\ Part000.currentIBI st' = ibi /\
       Part000.lastDisplayedBPM st' = bpm /\ Part000.lastDisplayedIBI st' = ibi) /\
  (forall i st bpm ibi,
     CYD.in_beat i = Some (bpm, ibi) ->
     let st' := exec (CYD.loop i) st in
     CYD.lastBeatTime st' = CYD.in_now_beat i /\
     CYD.currentBPM st' = bpm /\ CYD.currentIBI st' = ibi /\
     CYD.beatFlashActive st' = negb (usub (CYD.in_now_flash i) (CYD.in_now_beat i) >? 100) /\
     if usub (CYD.in_now_timeout i) (CYD.in_now_beat i) >? CYD.NO_BEAT_TIMEOUT then
       CYD.fingerPresent st' = false /\
       CYD.lastDisplayedBPM st' = -1 /\ CYD.lastDisplayedIBI st' = -1
     else
       CYD.fingerPresent st' = true /\
       CYD.lastDisplayedBPM st' = bpm /\ CYD.lastDisplayedIBI st' = ibi).
Proof.
  split; intros i st bpm ibi Hb.
  - exact (Part000More.loop_beat i st bpm ibi Hb).
  - exact (CYDMore.cyd_loop_beat i st bpm ibi Hb).
Qed.

(** The first beat after [setup], with BPM 72 and IBI 833. *)
Lemma beat_sets_presence_witness :
  let i := Part000.beat_at 1000 2000 72 833 in
  let st' := exec (Part000.loop i) (Part000.booted true) in
  Part000.in_beat i = Some (72, 833) /\
  Part000.lastBeatTime st' = 1000 /\ Part000.beatFlashActive st' = true /\
  Part000.fingerPresent st' = true /\
  Part000.currentBPM st' = 72 /\ Part000.currentIBI st' = 833 /\
  Part000.lastDisplayedBPM st' = 72 /\ Part000.lastDisplayedIBI st' = 833.
Proof.
  cbn zeta. split; [reflexivity|].
  exact (proj1 beat_sets_presence (Part000.beat_at 1000 2000 72 833)
           (Part000.booted true) 72 833 eq_refl).
Defined.

(** X7.  The heart is painted bright on a beat and dimmed when its flash
    ends, and at no other time.  In the Dashboard sketch an iteration paints
    the three parts of the heart bright exactly when it sees a beat, and dim
    exactly when it sees none while a flash is running whose beat is more than
    150 ms back; the flash runs on after the iteration when a beat was seen or
    it was running and is not yet over.  In [PulseSensor_CYD.ino] the limit
    is 100 ms, its test reads the clock anew, so that the beat's own iteration
    may already dim the heart, and the timeout paints the dim heart once
    more. *)
Theorem heart_flash :
  (forall i st,
     heart_colors (calls (Part000.loop i) st) =
     match Part000.in_beat i with
     | Some _ => [Part000.COLOR_HEART; Part000.COLOR_HEART; Part000.COLOR_HEART]
     | None =>
         if Part000.beatFlashActive st &&
            (usub (Part000.in_now i) (Part000.lastBeatTime st) >? 150)
         then [Part000.COLOR_HEART_DIM; Part000.COLOR_HEART_DIM; Part000.COLOR_HEART_DIM]
         else []
     end /\
     Part000.beatFlashActive (exec (Part000.loop i) st) =
     match Part000.in_beat i with
     | Some _ => true
     | None =>
         Part000.beatFlashActive st &&
         negb (usub (Part000.in_now i) (Part000.lastBeatTime st) >? 150)
     end) /\
  (forall i st,
     let flash :=
       match CYD.in_beat i with Some _ => true | None => CYD.beatFlashActive st end in
     let present :=
       match CYD.in_beat i with Some _ => true | None => CYD.fingerPresent st end in
     let last :=
       match CYD.in_beat i with
       | Some _ => CYD.in_now_beat i
       | None => CYD.lastBeatTime st
       end in
     heart_colors (calls (CYD.loop i) st) =
     (match CYD.in_beat i with
      | Some _ => [CYD.COLOR_HEART; CYD.COLOR_HEART; CYD.COLOR_HEART]
      | None => []
      end) ++
     (if flash && (usub (CYD.in_now_flash i) last >? 100)
      then [CYD.COLOR_HEART_DIM; CYD.COLOR_HEART_DIM; CYD.COLOR_HEART_DIM] else []) ++
     (if present && (usub (CYD.in_now_timeout i) last >? CYD.NO_BEAT_TIMEOUT)
      then [CYD.COLOR_HEART_DIM; CYD.COLOR_HEART_DIM; CYD.COLOR_HEART_DIM] else []) /\
     CYD.beatFlashActive (exec (CYD.loop i) st) =
     flash && negb (usub (CYD.in_now_flash i) last >? 100)).
Proof.
  split; intros i st.
  - split; [apply Part000More.loop_heart | apply Part000More.loop_flash].
  - cbn zeta. split; [apply CYDMore.cyd_loop_heart|].
    destruct (CYD.in_beat i) as [[bpm ibi]|] eqn:Hb.
    + apply (CYDMore.cyd_loop_beat i st bpm ibi Hb).
    + apply CYDMore.cyd_loop_flash_no_beat. exact Hb.
Qed.

(** X8.  The interval tests of [loop] compare the time really passed, also
    across the roll-over of the 32-bit millisecond clock: when the stamp is
    [last] and the clock has advanced by [d] (modulo 2^32), the render tick is
    due exactly when [d] has reached [WAVEFORM_SPEED] (5 ms in the Dashboard
    sketch, 20 ms in [PulseSensor_CYD.ino]) and the finger has timed out
    exactly when [d] exceeds 3000 ms. *)
Theorem interval_tests_survive_rollover :
  forall last d, 0 <= last < 2 ^ 32 -> 0 <= d < 2 ^ 32 ->
  (forall i st,
     Part000.lastDrawTime st = last -> Part000.in_now i = (last + d) mod 2 ^ 32 ->
     Part000.renders i st = (d >=? Part000.WAVEFORM_SPEED)) /\
  (forall i st,
     Part000.lastBeatTime st = last -> Part000.in_now_timeout i = (last + d) mod 2 ^ 32 ->
     Part000.timed_out i st = (d >? Part000.NO_BEAT_TIMEOUT)) /\
  (forall i st,
     CYD.lastDrawTime st = last -> CYD.in_now_draw i = (last + d) mod 2 ^ 32 ->
     CYD.renders i st = (d >=? CYD.WAVEFORM_SPEED)) /\
  (forall i st,
     CYD.lastBeatTime st = last -> CYD.in_now_timeout i = (last + d) mod 2 ^ 32 ->
     CYD.timed_out i st = (d >? CYD.NO_BEAT_TIMEOUT)).
Proof.
  intros last d Hl Hd.
  repeat split; intros i st Hs Hn;
    unfold Part000.renders, Part000.timed_out, CYD.renders, CYD.timed_out;
    rewrite Hs, Hn, usub_elapsed by assumption; reflexivity.
Qed.

(** The clock rolls over between the stamp 2^32 - 3 and the reading 2. *)
Lemma interval_tests_survive_rollover_witness :
  0 <= 4294967293 < 2 ^ 32 /\ 0 <= 5 < 2 ^ 32 /\
  Part000.renders (Part000.quiet_at 2 2000)
    (Part000.set_lastDrawTime 4294967293 Part000.init) = true.
Proof.
  assert (H1 : 0 <= 4294967293 < 2 ^ 32) by lia.
  assert (H2 : 0 <= 5 < 2 ^ 32) by lia.
  split; [exact H1|]. split; [exact H2|].
  exact (proj1 (interval_tests_survive_rollover 4294967293 5 H1 H2)
           (Part000.quiet_at 2 2000) (Part000.set_lastDrawTime 4294967293 Part000.init)
           eq_refl eq_refl).
Defined.

(** X9.  The renderer never paints outside a fixed band.  In every state
    reached from [setup], whatever the samples, the columns, pixels and line
    segments an iteration paints lie in the columns 0..319 and the rows
    79..181 in the Dashboard sketch (rows constrained to 82..178, thickness 4
    to both sides), and in the columns -1..319 and the rows 80..182 in
    [PulseSensor_CYD.ino] (rows constrained to 80..180, thickness 3 downward;
    the segment of column 0 starts at column -1). *)
Theorem renderer_stays_in_band :
  (forall ok ins i,
     Forall (within 0 319 79 181)
       (calls (Part000.loop i) (Part000.run ins (Part000.booted ok)))) /\
  (forall ok now ins i,
     Forall (within (-1) 319 80 182)
       (calls (CYD.loop i) (CYD.run ins (CYD.booted ok now)))).
Proof.
  split.
  - intros ok ins i. apply Part000More.loop_within.
    apply Part000Facts.run_cursor_range.
    rewrite Part000Facts.booted_cursor. unfold Part000.SCREEN_WIDTH. lia.
  - intros ok now ins i. apply CYDMore.cyd_loop_within.
    apply CYDFacts.cyd_run_cursor_range.
    rewrite CYDFacts.cyd_booted_cursor. unfold CYD.SCREEN_WIDTH. lia.
Qed.

(** X10.  What one iteration paints in the waveform area, in every state
    reached from [setup]: nothing unless the render tick is due; then the
    column of the cursor is cleared, the column 4 ahead is marked in the grid
    colour (Dashboard) or the column 10 ahead is cleared
    ([PulseSensor_CYD.ino]), both modulo 320, and the trace joins the sample
    stored one column back to the sample of this iteration, both scaled by the
    envelope as just updated.  At column 0 the Dashboard sketch paints the
    pixels of the new sample and no segment; [PulseSensor_CYD.ino] takes the
    sample of column 319 and starts the segment at column -1. *)
Theorem render_tick_paints :
  (forall ok ins i,
     let st := Part000.run ins (Part000.booted ok) in
     let x := Part000.waveformX st in
     let s := dashboard_at_draw i st in
     let y := Part000.row s (Part000.in_sample i) in
     let prevY := Part000.row s (Part000.buffer_get (Part000.waveformBuffer st) (x - 1)) in
     trace_calls (calls (Part000.loop i) st) =
     if Part000.renders i st then
       [TftDrawFastVLine x (Part000.WAVEFORM_TOP + 1) (Part000.WAVEFORM_HEIGHT - 2)
          Part000.COLOR_BG;
        TftDrawFastVLine ((x + 4) mod 320) (Part000.WAVEFORM_TOP + 1)
          (Part000.WAVEFORM_HEIGHT - 2) Part000.COLOR_GRID;
        TftDrawPixel x (y + 0) Part000.COLOR_WAVEFORM;
        TftDrawPixel x (y - 0) Part000.COLOR_WAVEFORM;
        TftDrawPixel x (y + 1) Part000.COLOR_WAVEFORM;
        TftDrawPixel x (y - 1) Part000.COLOR_WAVEFORM;
        TftDrawPixel x (y + 2) Part000.COLOR_WAVEFORM;
        TftDrawPixel x (y - 2) Part000.COLOR_WAVEFORM;
        TftDrawPixel x (y + 3) Part000.COLOR_WAVEFORM;
        TftDrawPixel x (y - 3) Part000.COLOR_WAVEFORM] ++
       (if x >? 0 then
          [TftDrawLine (x - 1) (prevY + 0) x (y + 0) Part000.COLOR_WAVEFORM;
           TftDrawLine (x - 1) (prevY - 0) x (y - 0) Part000.COLOR_WAVEFORM;
           TftDrawLine (x - 1) (prevY + 1) x (y + 1) Part000.COLOR_WAVEFORM;
           TftDrawLine (x - 1) (prevY - 1) x (y - 1) Part000.COLOR_WAVEFORM;
           TftDrawLine (x - 1) (prevY + 2) x (y + 2) Part000.COLOR_WAVEFORM;
           TftDrawLine (x - 1) (prevY - 2) x (y - 2) Part000.COLOR_WAVEFORM;
           TftDrawLine (x - 1) (prevY + 3) x (y + 3) Part000.COLOR_WAVEFORM;
           TftDrawLine (x - 1) (prevY - 3) x (y - 3) Part000.COLOR_WAVEFORM]
        else [])
     else []) /\
  (forall ok now ins i,
     let st := CYD.run ins (CYD.booted ok now) in
     let x := CYD.waveformIndex st in
     let s := CYD.at_draw i st in
     let row v :=
       Arduino.constrain
         (Arduino.map v (CYD.minSignal s) (CYD.maxSignal s)
            (CYD.WAVEFORM_BOTTOM - 5) (CYD.WAVEFORM_TOP + 5))
         CYD.WAVEFORM_TOP CYD.WAVEFORM_BOTTOM in
     let y1 := row (CYD.buffer_get (CYD.waveformBuffer st) ((x - 1) mod 320)) in
     let y2 := row (CYD.in_sample i) in
     trace_calls (calls (CYD.loop i) st) =
     if CYD.renders i st then
       [TftDrawFastVLine x CYD.WAVEFORM_TOP CYD.WAVEFORM_HEIGHT CYD.COLOR_BG;
        TftDrawLine (x - 1) (y1 + 0) x (y2 + 0) CYD.COLOR_WAVEFORM;
        TftDrawLine (x - 1) (y1 + 1) x (y2 + 1) CYD.COLOR_WAVEFORM;
        TftDrawLine (x - 1) (y1 + 2) x (y2 + 2) CYD.COLOR_WAVEFORM;
        TftDrawFastVLine ((x + 10) mod 320) CYD.WAVEFORM_TOP CYD.WAVEFORM_HEIGHT
          CYD.COLOR_BG]
     else []).
Proof.
  split.
  - intros ok ins i. cbn zeta. apply Part000More.loop_trace_samples.
    + apply Part000Facts.run_cursor_range.
      rewrite Part000Facts.booted_cursor. unfold Part000.SCREEN_WIDTH. lia.
    + rewrite Part000Facts.run_buffer_length, Part000Facts.booted_buffer.
      apply length_replicate.
  - intros ok now ins i. cbn zeta. apply CYDMore.cyd_loop_trace_samples.
    + apply CYDFacts.cyd_run_cursor_range.
      rewrite CYDFacts.cyd_booted_cursor. unfold CYD.SCREEN_WIDTH. lia.
    + rewrite CYDFacts.cyd_run_buffer_length, CYDFacts.cyd_booted_buffer.
      apply length_replicate.
Qed.

(** X11.  In [PulseSensor_CYD.ino] the newest sample is never clipped: for
    samples in the converter's range 0..4095, in every state reached from
    [setup], the row [map] gives the sample of the iteration lies in 85..175,
    the band the envelope is mapped to, so that [constrain] leaves it as it
    is.  (The envelope may miss the sample by one unit, because it drifts
    after it was widened; the division by a span of at least 400 absorbs
    that.) *)
Theorem newest_sample_not_clipped :
  forall ok now ins i,
    Forall (fun j => is_sample (CYD.in_sample j)) ins ->
    is_sample (CYD.in_sample i) ->
    let s := CYD.at_draw i (CYD.run ins (CYD.booted ok now)) in
    let y := Arduino.map (CYD.in_sample i) (CYD.minSignal s) (CYD.maxSignal s)
               (CYD.WAVEFORM_BOTTOM - 5) (CYD.WAVEFORM_TOP + 5) in
    85 <= y <= 175 /\ Arduino.constrain y CYD.WAVEFORM_TOP CYD.WAVEFORM_BOTTOM = y.
Proof.
  intros ok now ins i Hins Hi.
  apply CYDMore.cyd_at_draw_newest; [exact Hi|].
  apply CYDFacts.cyd_run_envelope_range; [exact Hins|].
  destruct (CYDFacts.cyd_booted_envelope ok now) as [-> ->]. lia.
Qed.

(** The lowest sample right after [setup]: it lands on row 175. *)
Lemma newest_sample_not_clipped_witness :
  let i := CYD.quiet_at 1000 0 in
  let s := CYD.at_draw i (CYD.run [] (CYD.booted true 0)) in
  let y := Arduino.map (CYD.in_sample i) (CYD.minSignal s) (CYD.maxSignal s)
             (CYD.WAVEFORM_BOTTOM - 5) (CYD.WAVEFORM_TOP + 5) in
  Forall (fun j => is_sample (CYD.in_sample j)) [] /\
  is_sample (CYD.in_sample i) /\
  85 <= y <= 175 /\ Arduino.constrain y CYD.WAVEFORM_TOP CYD.WAVEFORM_BOTTOM = y.
Proof.
  cbn zeta.
  assert (H1 : Forall (fun j => is_sample (CYD.in_sample j)) []) by constructor.
  assert (H2 : is_sample (CYD.in_sample (CYD.quiet_at 1000 0)))
    by (unfold is_sample; simpl; lia).
  split; [exact H1|]. split; [exact H2|].
  exact (newest_sample_not_clipped true 0 [] (CYD.quiet_at 1000 0) H1 H2).
Defined.

(** X12.  How the envelope of the Dashboard sketch moves.  An iteration
    without render tick leaves it alone; a render tick first lets it decay,
    when more than 100 ms have passed since the last decay, by 5 toward 2048
    and not beyond, and then widens it by the sample.  Hence the first due
    decay puts the centre 2048 inside the envelope, and it stays inside for
    the rest of the run, whatever the samples and beats. *)
Theorem dashboard_envelope_decays_to_centre :
  (forall i st,
     let st' := exec (Part000.loop i) st in
     let due := usub (Part000.in_now_decay i) (Part000.lastDecay st) >? 100 in
     if Part000.renders i st then
       Part000.minSignal st' =
         Arduino.min
           (if due then Arduino.min (iadd (Part000.minSignal st) 5) 2048
            else Part000.minSignal st)
           (Part000.in_sample i) /\
       Part000.maxSignal st' =
         Arduino.max
           (if due then Arduino.max (isub (Part000.maxSignal st) 5) 2048
            else Part000.maxSignal st)
           (Part000.in_sample i)
     else
       Part000.minSignal st' = Part000.minSignal st /\
       Part000.maxSignal st' = Part000.maxSignal st) /\
  (forall i st ins,
     (Part000.renders i st = true /\
      (usub (Part000.in_now_decay i) (Part000.lastDecay st) >? 100) = true) \/
     Part000.minSignal st <= 2048 <= Part000.maxSignal st ->
     let st' := Part000.run ins (exec (Part000.loop i) st) in
     Part000.minSignal st' <= 2048 <= Part000.maxSignal st').
Proof.
  split.
  - intros i st. cbn zeta.
    pose proof (Part000More.loop_envelope_at_draw i st) as HL; cbn zeta in HL.
    pose proof (Part000More.dashboard_at_draw_envelope i st) as HD; cbn zeta in HD.
    destruct (Part000.renders i st); [|exact HL].
    destruct HL as [-> ->]. exact HD.
  - intros i st ins H. cbn zeta.
    apply Part000More.run_centre. apply Part000More.loop_centre. exact H.
Qed.

(** The first render tick after [setup], 1000 ms in, is also a decay; three
    more ticks follow. *)
Lemma dashboard_envelope_decays_to_centre_witness :
  let i := Part000.quiet_at 1000 2000 in
  let st := Part000.booted true in
  let st' := Part000.run (dashboard_quiet_run 1010 10 2100 3) (exec (Part000.loop i) st) in
  ((Part000.renders i st = true /\
    (usub (Part000.in_now_decay i) (Part000.lastDecay st) >? 100) = true) \/
   Part000.minSignal st <= 2048 <= Part000.maxSignal st) /\
  Part000.minSignal st' <= 2048 <= Part000.maxSignal st'.
Proof.
  cbn zeta.
  assert (H : (Part000.renders (Part000.quiet_at 1000 2000) (Part000.booted true) = true /\
               (usub (Part000.in_now_decay (Part000.quiet_at 1000 2000))
                  (Part000.lastDecay (Part000.booted true)) >? 100) = true) \/
              Part000.minSignal (Part000.booted true) <= 2048
              <= Part000.maxSignal (Part000.booted true)).
  { left. split; vm_compute; reflexivity. }
  split; [exact H|].
  exact (proj2 dashboard_envelope_decays_to_centre (Part000.quiet_at 1000 2000)
           (Part000.booted true) (dashboard_quiet_run 1010 10 2100 3) H).
Defined.

(** X13.  [setup] goes on when the sensor does not start: the state it
    leaves is the same whether [pulseSensor.begin()] succeeded or not (the
    initial globals with the buffer filled with 2048 and, in
    [PulseSensor_CYD.ino], the clock noted as the time of the last beat), so
    the finger counts as absent; the failure is only reported, on the serial
    port and, in [PulseSensor_CYD.ino], on the screen. *)
Theorem setup_goes_on_without_sensor :
  (forall ok,
     Part000.booted ok =
     Part000.set_waveformBuffer (replicate 320 2048) Part000.init /\
     serial_writes (calls (Part000.setup ok) Part000.init) =
     [LF +:+ LF +:+ "=== PulseSensor CYD Dashboard ===" +:+ CRLF;
      (if ok then "PulseSensor initialized!" else "PulseSensor FAILED!") +:+ CRLF] /\
     screen_texts (calls (Part000.setup ok) Part000.init) =
     ["BPM"; "Signal"; "IBI"; "PulseSensor.com"; "--"; "--"]) /\
  (forall ok now,
     CYD.booted ok now =
     CYD.set_lastBeatTime now (CYD.set_waveformBuffer (replicate 320 2048) CYD.init) /\
     serial_writes (calls (CYD.setup ok now) CYD.init) =
     [LF +:+ "=== PulseSensor CYD ===" +:+ CRLF; "pulsesensor.com/pages/cyd" +:+ CRLF;
      (if ok then "PulseSensor ready" else "PulseSensor FAILED") +:+ CRLF] /\
     screen_texts (calls (CYD.setup ok now) CYD.init) =
     ["BPM"; "Signal"; "IBI"] ++ (if ok then [] else ["Sensor Error!"])).
Proof.
  split.
  - intros ok. destruct ok; vm_compute; repeat split.
  - intros ok now. destruct ok; vm_compute; repeat split.
Qed.

(** X14.  Before the first beat neither sketch reports anything: over every
    run from [setup] in which no beat is seen, whatever the samples and the
    clock, the finger stays absent, the LED dark and no flash starts, nothing
    is written to the serial port, the heart is not repainted and the LED
    driver is not written.  In particular the notice that the finger is gone
    (and, in [PulseSensor_CYD.ino], the prompt drawn with it) cannot appear
    before a beat was seen. *)
Theorem silent_before_first_beat :
  (forall ok ins,
     Forall Part000.no_beat ins ->
     let st := Part000.booted ok in
     (Part000.fingerPresent (Part000.run ins st) = false /\
      Part000.beatFlashActive (Part000.run ins st) = false /\
      Part000.ledBrightness (Part000.run ins st) = 0) /\
     serial_writes (dashboard_run_calls ins st) = [] /\
     heart_colors (dashboard_run_calls ins st) = [] /\
     ledc_writes (dashboard_run_calls ins st) = []) /\
  (forall ok now ins,
     Forall CYD.no_beat ins ->
     let st := CYD.booted ok now in
     (CYD.fingerPresent (CYD.run ins st) = false /\
      CYD.beatFlashActive (CYD.run ins st) = false /\
      CYD.ledFadeValue (CYD.run ins st) = 0) /\
     serial_writes (cyd_run_calls ins st) = [] /\
     heart_colors (cyd_run_calls ins st) = [] /\
     analog_writes (cyd_run_calls ins st) = []).
Proof.
  split.
  - intros ok ins Hnb. cbn zeta.
    apply Part000More.run_before_first_beat; [exact Hnb|..];
      destruct ok; vm_compute; reflexivity.
  - intros ok now ins Hnb. cbn zeta.
    apply CYDMore.cyd_run_before_first_beat; [exact Hnb|..];
      destruct ok; vm_compute; reflexivity.
Qed.

(** Five seconds without a beat after [setup], one iteration every 10 ms. *)
Lemma silent_before_first_beat_witness :
  let ins := dashboard_quiet_run 10 10 2000 500 in
  let st := Part000.booted true in
  Forall Part000.no_beat ins /\
  (Part000.fingerPresent (Part000.run ins st) = false /\
   Part000.beatFlashActive (Part000.run ins st) = false /\
   Part000.ledBrightness (Part000.run ins st) = 0) /\
  serial_writes (dashboard_run_calls ins st) = [] /\
  heart_colors (dashboard_run_calls ins st) = [] /\
  ledc_writes (dashboard_run_calls ins st) = [].
Proof.
  cbn zeta.
  assert (H : Forall Part000.no_beat (dashboard_quiet_run 10 10 2000 500)).
  { unfold dashboard_quiet_run. apply Forall_fmap, Forall_forall. reflexivity. }
  split; [exact H|].
  exact (proj1 silent_before_first_beat true (dashboard_quiet_run 10 10 2000 500) H).
Defined.

(** X15.  What the timeout does to the rest of the state.  In
    [PulseSensor_CYD.ino] the iteration that finds the finger gone also
    resets the envelope to 1800..2200 and forgets the three values on
    display (-1), so that the next values are drawn afresh, but keeps
    [currentBPM] and [currentIBI] as they were.  In the Dashboard sketch
    [checkFingerTimeout] touches neither the envelope nor the buffer, the
    cursor, the LED brightness or the signal on display. *)
Theorem timeout_and_the_display :
  (forall i st,
     CYD.in_beat i = None -> CYD.fingerPresent st = true -> CYD.timed_out i st = true ->
     let st' := exec (CYD.loop i) st in
     CYD.fingerPresent st' = false /\
     CYD.minSignal st' = 1800 /\ CYD.maxSignal st' = 2200 /\
     CYD.lastDisplayedBPM st' = -1 /\ CYD.lastDisplayedSignal st' = -1 /\
     CYD.lastDisplayedIBI st' = -1 /\
     CYD.currentBPM st' = CYD.currentBPM st /\ CYD.currentIBI st' = CYD.currentIBI st) /\
  (forall now s,
     let s1 := exec (Part000.checkFingerTimeout now) s in
     Part000.minSignal s1 = Part000.minSignal s /\
     Part000.maxSignal s1 = Part000.maxSignal s /\
     Part000.waveformBuffer s1 = Part000.waveformBuffer s /\
     Part000.waveformX s1 = Part000.waveformX s /\
     Part000.ledBrightness s1 = Part000.ledBrightness s /\
     Part000.lastDisplayedSignal s1 = Part000.lastDisplayedSignal s).
Proof.
  split.
  - intros i st Hb Hfp Hto. exact (CYDMore.cyd_loop_timeout i st Hb Hfp Hto).
  - intros now s. exact (Part000More.checkFingerTimeout_keeps now s).
Qed.

(** A beat at 1000 ms, the next look at the clock at 4001 ms. *)
Lemma timeout_and_the_display_witness :
  let st := exec (CYD.loop (CYD.beat_at 1000 2000 72 833)) (CYD.booted true 0) in
  let i := CYD.quiet_at 4001 2000 in
  let st' := exec (CYD.loop i) st in
  CYD.in_beat i = None /\ CYD.fingerPresent st = true /\ CYD.timed_out i st = true /\
  CYD.fingerPresent st' = false /\
  CYD.minSignal st' = 1800 /\ CYD.maxSignal st' = 2200 /\
  CYD.lastDisplayedBPM st' = -1 /\ CYD.lastDisplayedSignal st' = -1 /\
  CYD.lastDisplayedIBI st' = -1 /\
  CYD.currentBPM st' = CYD.currentBPM st /\ CYD.currentIBI st' = CYD.currentIBI st.
Proof.
  cbn zeta.
  set (st := exec (CYD.loop (CYD.beat_at 1000 2000 72 833)) (CYD.booted true 0)).
  assert (H1 : CYD.in_beat (CYD.quiet_at 4001 2000) = None) by reflexivity.
  assert (H2 : CYD.fingerPresent st = true) by (vm_compute; reflexivity).
  assert (H3 : CYD.timed_out (CYD.quiet_at 4001 2000) st = true) by (vm_compute; reflexivity).
  split; [exact H1|]. split; [exact H2|]. split; [exact H3|].
  exact (proj1 timeout_and_the_display (CYD.quiet_at 4001 2000) st H1 H2 H3).
Defined.

(** X16.  The red channel of the Dashboard sketch always shows the
    brightness: after [setup] and any iterations of [loop], whatever the
    inputs, the duty last written to the red channel is 255 minus
    [ledBrightness] (active low), so the LED is never left at a level the
    state does not record.  ([PulseSensor_CYD.ino] does not keep this: a beat
    sets [ledFadeValue] to 255 without writing it, see X2.) *)
Theorem red_channel_shows_brightness :
  forall ok ins,
    red_duty (calls (Part000.setup ok) Part000.init ++
              dashboard_run_calls ins (Part000.booted ok)) =
    Some (255 - Part000.ledBrightness (Part000.run ins (Part000.booted ok))).
Proof.
  intros ok ins. apply Part000More.run_red_duty.
  - destruct (Part000Facts.booted_state ok) as (_ & -> & _). lia.
  - destruct ok; vm_compute; reflexivity.
Qed.

(** X17.  The numbers on display follow the presence of the finger, at the
    end of every iteration of every run from [setup].  While the finger is
    present, the BPM and IBI last drawn are the current ones.  While it is
    absent, the Dashboard sketch has the current values at 0 and on display
    what [setup] left (-1) or what the timeout drew (0), and
    [PulseSensor_CYD.ino] has nothing on display (-1). *)
Theorem readouts_follow_presence :
  (forall ok ins,
     dashboard_readouts_follow_presence (Part000.run ins (Part000.booted ok))) /\
  (forall ok now ins,
     cyd_readouts_follow_presence (CYD.run ins (CYD.booted ok now))).
Proof.
  split.
  - intros ok ins. apply Part000More.run_readouts.
    destruct ok; vm_compute; auto.
  - intros ok now ins. apply CYDMore.cyd_run_readouts.
    destruct ok; vm_compute; auto.
Qed.

(** X18.  The text of the IBI field fits its buffer.  In
    [PulseSensor_CYD.ino] [drawIBI] formats the value with ["%dms"] into a
    buffer of ten characters.  For every IBI from -999999 to 9999999 that
    differs from the one on display, the text drawn is the decimal value
    followed by ["ms"], and with its terminator it takes at most ten
    characters.  The bounds are sharp: 10000000 and -1000000 take eleven. *)
Theorem ibi_text_fits_buffer :
  (forall ibi s,
     ibi <> CYD.lastDisplayedIBI s -> -999999 <= ibi <= 9999999 ->
     let text := dec ibi +:+ "ms" in
     In (TftDrawString text CYD.IBI_X (CYD.BOTTOM_Y + 16) 4) (calls (CYD.drawIBI ibi) s) /\
     (String.length text + 1 <= 10)%nat) /\
  (String.length (dec 10000000 +:+ "ms") + 1 = 11)%nat /\
  (String.length (dec (-1000000) +:+ "ms") + 1 = 11)%nat.
Proof.
  split; [|split; vm_compute; reflexivity].
  intros ibi s Hne Hr. exact (CYDMore.cyd_drawIBI_text ibi s Hne Hr).
Qed.

(** An IBI of 833 ms, drawn for the first time. *)
Lemma ibi_text_fits_buffer_witness :
  833 <> CYD.lastDisplayedIBI CYD.init /\ -999999 <= 833 <= 9999999 /\
  In (TftDrawString (dec 833 +:+ "ms") CYD.IBI_X (CYD.BOTTOM_Y + 16) 4)
    (calls (CYD.drawIBI 833) CYD.init) /\
  (String.length (dec 833 +:+ "ms") + 1 <= 10)%nat.
Proof.
  assert (H1 : 833 <> CYD.lastDisplayedIBI CYD.init) by (simpl; lia).
  assert (H2 : -999999 <= 833 <= 9999999) by lia.
  split; [exact H1|]. split; [exact H2|].
  exact (proj1 ibi_text_fits_buffer 833 CYD.init H1 H2).
Defined.
